(** * Watch stream: target state machines and inbound dispatch

    A shallow embedding of
    [packages/firestore/scripts/bloom_filter_watch_test/watch_stream.ts]:
    the per-target state machine [TargetState], the existence-filter
    constructor [createBloomFilterFrom] and the controller [WatchStream]
    with its registry of targets and its dispatch of inbound messages.

    Methods that mutate [this] and may [throw] are computations in a state
    and exception monad: a computation maps the object before the call to
    an outcome (a value, or the thrown error) and the object as the call
    leaves it.  A thrown error does not roll the object back. *)

From Stdlib Require Import ZArith String List Bool Strings.Byte Lia.
From stdpp Require Import base decidable option list sorting gmap strings.

Local Open Scope string_scope.
Local Open Scope Z_scope.

(** ** Errors *)

(** The three error classes of the file, and the [TypeError] JavaScript
    raises for a call on [null]. *)
Inductive ErrorName :=
| WatchError
| TargetStateError
| InvalidBloomFilterError
| TypeError.

(** A message is the template literal of the [throw] site: its literal text
    and the values interpolated into it. *)
Inductive Frag :=
| Lit (s : string)
| Num (n : Z)
| Str (s : string)
| Undefined.

Record Error := mkError { name : ErrorName; message : list Frag }.

Global Instance ErrorName_eq_dec : EqDecision ErrorName.
Proof. solve_decision. Defined.

(** ** The state and exception monad *)

Inductive Res (A : Type) :=
| Ok (a : A)
| Throw (e : Error).
Arguments Ok {A} a.
Arguments Throw {A} e.

Definition M (S A : Type) : Type := S -> Res A * S.

Definition ret {S A} (a : A) : M S A := fun s => (Ok a, s).

Definition bind {S A B} (m : M S A) (k : A -> M S B) : M S B :=
  fun s =>
    match m s with
    | (Ok a, s') => k a s'
    | (Throw e, s') => (Throw e, s')
    end.

Definition throw {S A} (n : ErrorName) (msg : list Frag) : M S A :=
  fun s => (Throw (mkError n msg), s).

Definition get {S} : M S S := fun s => (Ok s, s).

Definition modify {S} (f : S -> S) : M S unit := fun s => (Ok tt, f s).

Notation "'let!' x ':=' m 'in' k" := (bind m (fun x => k))
  (at level 10, x name, m at level 100, k at level 200).
Notation "m '>>' k" := (bind m (fun _ => k))
  (at level 90, right associativity).

(** [for (const x of xs) body(x)]: the first [throw] leaves the loop. *)
Fixpoint forOf {S A} (xs : list A) (body : A -> M S unit) : M S unit :=
  match xs with
  | [] => ret tt
  | x :: xs' => body x >> forOf xs' body
  end.

(** [Array.from(xs, f)]: the first [throw] of [f] abandons the array. *)
Fixpoint arrayFrom {S A B} (xs : list A) (f : A -> M S B) : M S (list B) :=
  match xs with
  | [] => ret []
  | x :: xs' =>
      let! y := f x in
      let! ys := arrayFrom xs' f in
      ret (y :: ys)
  end.

(** Did the computation throw an error of class [n]? *)
Definition throws {A} (n : ErrorName) (r : Res A) : Prop :=
  match r with
  | Throw e => name e = n
  | Ok _ => False
  end.

(** ** Wire data *)

(** [string | Uint8Array]: a resume token or a bitmap as it arrives. *)
Inductive ByteString :=
| OfString (s : string)
| OfBytes (bs : list byte).

(** [google.rpc.Status] of a target change, also the shape of the error a
    closing transport reports. *)
Record Status := mkStatus { code : Z; status_message : string }.

Record BitSequence := mkBitSequence {
  bits_bitmap : option ByteString;
  bits_padding : option Z
}.

Record BloomFilterProto := mkBloomFilterProto {
  bits : option BitSequence;
  proto_hashCount : option Z
}.

Record ExistenceFilter := mkExistenceFilter {
  ef_targetId : option Z;
  ef_count : option Z;
  unchangedNames : option BloomFilterProto
}.

Record TargetChange := mkTargetChange {
  tc_targetIds : option (list Z);
  cause : option Status;
  targetChangeType : option string;
  tc_resumeToken : option ByteString
}.

Record DocumentChange := mkDocumentChange {
  dc_document_name : string;
  dc_targetIds : option (list Z);
  dc_removedTargetIds : option (list Z)
}.

(** [DocumentRemove] and [DocumentDelete] have the same two fields. *)
Record DocumentRemove := mkDocumentRemove {
  dr_document : string;
  dr_removedTargetIds : option (list Z)
}.

Record ListenResponse := mkListenResponse {
  msg_targetChange : option TargetChange;
  msg_documentChange : option DocumentChange;
  msg_documentRemove : option DocumentRemove;
  msg_documentDelete : option DocumentRemove;
  msg_filter : option ExistenceFilter
}.

(** [x ?? d] *)
Definition orElse {A} (x : option A) (d : A) : A :=
  match x with Some a => a | None => d end.
Infix "??" := orElse (at level 45, left associativity).

(** ** Deferred *)

(** Modelled from the spec: [Deferred] of [test/util/promise] is not among
    the sources.  The spec's completion primitive is a single-assignment
    future: it starts unresolved, the first [resolve] or [reject] settles
    it, and a later call does not change the settled outcome. *)
Inductive Deferred (A : Type) :=
| Pending
| Resolved (a : A)
| Rejected (err : Status).
Arguments Pending {A}.
Arguments Resolved {A} a.
Arguments Rejected {A} err.

Definition resolve {A} (a : A) (d : Deferred A) : Deferred A :=
  match d with
  | Pending => Resolved a
  | _ => d
  end.

Definition reject {A} (err : Status) (d : Deferred A) : Deferred A :=
  match d with
  | Pending => Rejected err
  | _ => d
  end.

(** ** Bloom filter values and snapshots *)

(** Modelled from the spec: [BloomFilter] of [src/remote/bloom_filter] is
    not among the sources.  The spec's existence filter value is an
    immutable triple of a byte buffer, the padding and the hash count. *)
Record BloomFilter := mkBloomFilter {
  bitmap : list byte;
  padding : Z;
  hashCount : Z
}.

Record TargetSnapshot := mkTargetSnapshot {
  documentPaths : gset string;
  resumeToken : ByteString
}.

(** A reference to a [TargetState] object: its index in the heap of the
    controller. *)
Abbreviation loc := nat.

(** ** Existence-filter construction and the target state machine *)

Section WatchStream.

(** [normalizeByteString(b).toUint8Array()] of [src/model/normalize] is not
    among the sources: the decoding of a wire byte string is a parameter. *)
Variable normalizeByteString : ByteString -> list byte.

Definition createBloomFilterFrom {S} (existenceFilter : ExistenceFilter)
  : M S (option BloomFilter) :=
  match unchangedNames existenceFilter with
  | None => ret None
  | Some un =>
      let padding := (bits un ≫= bits_padding) ?? 0 in
      let hashCount := proto_hashCount un ?? 0 in
      if (padding <? 0) || (padding >? 7) then
        throw InvalidBloomFilterError [Lit "invalid padding size: "; Num padding]
      else if hashCount <? 0 then
        throw InvalidBloomFilterError [Lit "invalid hash count: "; Num hashCount]
      else
        let bitmap := (bits un ≫= bits_bitmap) ?? OfString "" in
        let bytes := normalizeByteString bitmap in
        if (hashCount =? 0) && (0 <? Z.of_nat (length bytes)) then
          throw InvalidBloomFilterError
            [Lit "non-zero hash count "; Num hashCount;
             Lit " when bitmap size is zero"]
        else
          ret (Some (mkBloomFilter bytes padding hashCount))
  end.

Record TargetState := mkTargetState {
  targetId : Z;
  _added : bool;
  _removed : bool;
  _current : bool;
  _accumulatedDocumentNames : gset string;
  _addedDeferred : Deferred unit;
  _removedDeferred : Deferred unit;
  _initialSnapshotDeferred : Deferred TargetSnapshot;
  _existenceFilterDeferred : Deferred (option BloomFilter)
}.

(** Field assignments [this._f = v] and calls on a field's object. *)
Definition set_added (v : bool) (t : TargetState) : TargetState :=
  mkTargetState (targetId t) v (_removed t) (_current t)
    (_accumulatedDocumentNames t) (_addedDeferred t) (_removedDeferred t)
    (_initialSnapshotDeferred t) (_existenceFilterDeferred t).

Definition set_removed (v : bool) (t : TargetState) : TargetState :=
  mkTargetState (targetId t) (_added t) v (_current t)
    (_accumulatedDocumentNames t) (_addedDeferred t) (_removedDeferred t)
    (_initialSnapshotDeferred t) (_existenceFilterDeferred t).

Definition set_current (v : bool) (t : TargetState) : TargetState :=
  mkTargetState (targetId t) (_added t) (_removed t) v
    (_accumulatedDocumentNames t) (_addedDeferred t) (_removedDeferred t)
    (_initialSnapshotDeferred t) (_existenceFilterDeferred t).

Definition upd_accumulatedDocumentNames (f : gset string -> gset string)
  (t : TargetState) : TargetState :=
  mkTargetState (targetId t) (_added t) (_removed t) (_current t)
    (f (_accumulatedDocumentNames t)) (_addedDeferred t) (_removedDeferred t)
    (_initialSnapshotDeferred t) (_existenceFilterDeferred t).

Definition upd_addedDeferred (f : Deferred unit -> Deferred unit)
  (t : TargetState) : TargetState :=
  mkTargetState (targetId t) (_added t) (_removed t) (_current t)
    (_accumulatedDocumentNames t) (f (_addedDeferred t)) (_removedDeferred t)
    (_initialSnapshotDeferred t) (_existenceFilterDeferred t).

Definition upd_removedDeferred (f : Deferred unit -> Deferred unit)
  (t : TargetState) : TargetState :=
  mkTargetState (targetId t) (_added t) (_removed t) (_current t)
    (_accumulatedDocumentNames t) (_addedDeferred t) (f (_removedDeferred t))
    (_initialSnapshotDeferred t) (_existenceFilterDeferred t).

Definition upd_initialSnapshotDeferred
  (f : Deferred TargetSnapshot -> Deferred TargetSnapshot)
  (t : TargetState) : TargetState :=
  mkTargetState (targetId t) (_added t) (_removed t) (_current t)
    (_accumulatedDocumentNames t) (_addedDeferred t) (_removedDeferred t)
    (f (_initialSnapshotDeferred t)) (_existenceFilterDeferred t).

Definition upd_existenceFilterDeferred
  (f : Deferred (option BloomFilter) -> Deferred (option BloomFilter))
  (t : TargetState) : TargetState :=
  mkTargetState (targetId t) (_added t) (_removed t) (_current t)
    (_accumulatedDocumentNames t) (_addedDeferred t) (_removedDeferred t)
    (_initialSnapshotDeferred t) (f (_existenceFilterDeferred t)).

(** The constructor: the initial document paths, when given, are added one
    by one to the machine's own set. *)
Definition newTargetState (targetId : Z)
  (initialDocumentPaths : option (gset string)) : TargetState :=
  mkTargetState targetId false false false
    (match initialDocumentPaths with
     | Some paths => list_to_set (elements paths)
     | None => ∅
     end)
    Pending Pending Pending Pending.

Definition onError (error : Status) : M TargetState unit :=
  modify (upd_addedDeferred (reject error)) >>
  modify (upd_removedDeferred (reject error)) >>
  modify (upd_initialSnapshotDeferred (reject error)) >>
  modify (upd_existenceFilterDeferred (reject error)).

Definition onAdded : M TargetState unit :=
  let! this := get in
  if _added this then
    throw TargetStateError [Lit "onAdded() already invoked."]
  else
    modify (set_added true) >>
    modify (upd_addedDeferred (resolve tt)).

Definition onRemoved : M TargetState unit :=
  let! this := get in
  if _removed this then
    throw TargetStateError [Lit "onRemoved() already invoked."]
  else if negb (_added this) then
    throw TargetStateError [Lit "onRemoved() invoked before onAdded()."]
  else
    modify (set_removed true) >>
    modify (upd_removedDeferred (resolve tt)).

Definition onCurrent : M TargetState unit :=
  let! this := get in
  if negb (_added this) then
    throw TargetStateError [Lit "onCurrent() invoked before onAdded()."]
  else if _removed this then
    throw TargetStateError [Lit "onCurrent() invoked after onRemoved()."]
  else
    modify (set_current true).

Definition onReset : M TargetState unit :=
  let! this := get in
  if negb (_added this) then
    throw TargetStateError [Lit "onReset() invoked before onAdded()."]
  else if _removed this then
    throw TargetStateError [Lit "onReset() invoked after onRemoved()."]
  else
    modify (set_current false) >>
    modify (upd_accumulatedDocumentNames (fun _ => ∅)).

Definition onNoChange (resumeToken : option ByteString) : M TargetState unit :=
  let! this := get in
  if negb (_added this) then
    throw TargetStateError [Lit "onNoChange() invoked before onAdded()."]
  else if _removed this then
    throw TargetStateError [Lit "onNoChange() invoked after onRemoved()."]
  else
    match _current this, resumeToken with
    | true, Some token =>
        let documentPaths := _accumulatedDocumentNames this in
        modify (upd_initialSnapshotDeferred
                  (resolve (mkTargetSnapshot documentPaths token)))
    | _, _ => ret tt
    end.

Definition onDocumentChanged (documentName : string) : M TargetState unit :=
  let! this := get in
  if negb (_added this) then
    throw TargetStateError [Lit "onDocumentChanged() invoked when not added."]
  else if _removed this then
    throw TargetStateError [Lit "onDocumentChanged() invoked after onRemoved()."]
  else
    modify (set_current false) >>
    modify (upd_accumulatedDocumentNames (fun s => s ∪ {[documentName]})).

Definition onDocumentRemoved (documentName : string) : M TargetState unit :=
  let! this := get in
  if negb (_added this) then
    throw TargetStateError [Lit "onDocumentRemoved() invoked when not added."]
  else if _removed this then
    throw TargetStateError [Lit "onDocumentRemoved() invoked after onRemoved()."]
  else
    modify (set_current false) >>
    modify (upd_accumulatedDocumentNames (fun s => s ∖ {[documentName]})).

Definition onExistenceFilter (existenceFilter : ExistenceFilter)
  : M TargetState unit :=
  let! this := get in
  if negb (_added this) then
    throw TargetStateError [Lit "onExistenceFilter() invoked when not added."]
  else if _removed this then
    throw TargetStateError [Lit "onExistenceFilter() invoked after onRemoved()."]
  else
    let! filter := createBloomFilterFrom existenceFilter in
    modify (upd_existenceFilterDeferred (resolve filter)).

(** The events a machine receives, one per method. *)
Inductive Event :=
| EvError (error : Status)
| EvAdded
| EvRemoved
| EvCurrent
| EvReset
| EvNoChange (resumeToken : option ByteString)
| EvDocumentChanged (documentName : string)
| EvDocumentRemoved (documentName : string)
| EvExistenceFilter (existenceFilter : ExistenceFilter).

Definition fire (ev : Event) : M TargetState unit :=
  match ev with
  | EvError error => onError error
  | EvAdded => onAdded
  | EvRemoved => onRemoved
  | EvCurrent => onCurrent
  | EvReset => onReset
  | EvNoChange resumeToken => onNoChange resumeToken
  | EvDocumentChanged documentName => onDocumentChanged documentName
  | EvDocumentRemoved documentName => onDocumentRemoved documentName
  | EvExistenceFilter existenceFilter => onExistenceFilter existenceFilter
  end.

(** A machine fed a sequence of events: the outcome of each call, and the
    machine at the end.  A call that throws is followed by the next. *)
Fixpoint feed (evs : list Event) (t : TargetState)
  : list (Event * Res unit) * TargetState :=
  match evs with
  | [] => ([], t)
  | ev :: evs' =>
      let (r, t') := fire ev t in
      let (rs, t'') := feed evs' t' in
      ((ev, r) :: rs, t'')
  end.

(** ** The registry: a JavaScript [Map] from numbers to object references *)

(** A [Map] iterates in insertion order: it is a list of entries, with at
    most one entry per key. *)

Fixpoint map_get {V} (k : Z) (m : list (Z * V)) : option V :=
  match m with
  | [] => None
  | (k', v) :: m' => if k' =? k then Some v else map_get k m'
  end.

Fixpoint map_set {V} (k : Z) (v : V) (m : list (Z * V)) : list (Z * V) :=
  match m with
  | [] => [(k, v)]
  | (k', v') :: m' =>
      if k' =? k then (k, v) :: m' else (k', v') :: map_set k v m'
  end.

Fixpoint map_delete {V} (k : Z) (m : list (Z * V)) : list (Z * V) :=
  match m with
  | [] => []
  | (k', v) :: m' =>
      if k' =? k then map_delete k m' else (k', v) :: map_delete k m'
  end.

Definition map_values {V} (m : list (Z * V)) : list V := snd <$> m.

Definition map_keys {V} (m : list (Z * V)) : list Z := fst <$> m.

(** ** Requests and the transport *)

Record StructuredQuery := mkStructuredQuery {
  from_collectionId : list string;
  where_fieldPath : string;
  where_op : string;
  where_stringValue : string;
  orderBy : list (string * string)
}.

Record AddTargetRequest := mkAddTargetRequest {
  at_targetId : Z;
  at_parent : string;
  at_structuredQuery : StructuredQuery;
  at_resumeToken : option ByteString;
  at_expectedCount : option Z
}.

Record ListenRequest := mkListenRequest {
  database : option string;
  addTarget_req : option AddTargetRequest;
  removeTarget_req : option Z
}.

(** The transport is outside the file.  A [Stream] is known here by what
    was done to it: the requests sent and the calls of [close()].  Its
    methods are taken not to throw. *)
Record Stream := mkStream {
  sent : list ListenRequest;
  closeCalls : nat
}.

Record Resume := mkResume {
  resume_from : TargetSnapshot;
  expectedCount : Z
}.

Record WatchStreamAddTargetInfo := mkWatchStreamAddTargetInfo {
  projectId : string;
  collectionId : string;
  keyFilter : string;
  valueFilter : string;
  resume : option Resume
}.

Record TargetHandle := mkTargetHandle { handle_targetId : Z }.

(** ** The controller *)

(** [TargetState] objects are shared: the registry, the arrays built by
    [_targetStatesForTargetIds] and the continuation of [addTarget] hold
    references to the same object.  The objects live in [heap], a
    reference is an index into it, and [new TargetState] appends. *)
Record WatchStream := mkWatchStream {
  _projectId : string;
  _stream : option Stream;
  _closed : bool;
  _closedDeferred : Deferred unit;
  _nextTargetId : Z;
  _targets : list (Z * loc);
  heap : list TargetState;
  (* [deferred], local to the call of [open()] that opened the stream *)
  open_deferred : Deferred unit
}.

Definition newWatchStream (projectId : string) : WatchStream :=
  mkWatchStream projectId None false Pending 1 [] [] Pending.

Definition set_stream (v : option Stream) (w : WatchStream) : WatchStream :=
  mkWatchStream (_projectId w) v (_closed w) (_closedDeferred w)
    (_nextTargetId w) (_targets w) (heap w) (open_deferred w).

Definition set_closed (v : bool) (w : WatchStream) : WatchStream :=
  mkWatchStream (_projectId w) (_stream w) v (_closedDeferred w)
    (_nextTargetId w) (_targets w) (heap w) (open_deferred w).

Definition upd_closedDeferred (f : Deferred unit -> Deferred unit)
  (w : WatchStream) : WatchStream :=
  mkWatchStream (_projectId w) (_stream w) (_closed w) (f (_closedDeferred w))
    (_nextTargetId w) (_targets w) (heap w) (open_deferred w).

Definition set_nextTargetId (v : Z) (w : WatchStream) : WatchStream :=
  mkWatchStream (_projectId w) (_stream w) (_closed w) (_closedDeferred w)
    v (_targets w) (heap w) (open_deferred w).

Definition upd_targets (f : list (Z * loc) -> list (Z * loc))
  (w : WatchStream) : WatchStream :=
  mkWatchStream (_projectId w) (_stream w) (_closed w) (_closedDeferred w)
    (_nextTargetId w) (f (_targets w)) (heap w) (open_deferred w).

Definition set_heap (v : list TargetState) (w : WatchStream) : WatchStream :=
  mkWatchStream (_projectId w) (_stream w) (_closed w) (_closedDeferred w)
    (_nextTargetId w) (_targets w) v (open_deferred w).

Definition upd_open_deferred (f : Deferred unit -> Deferred unit)
  (w : WatchStream) : WatchStream :=
  mkWatchStream (_projectId w) (_stream w) (_closed w) (_closedDeferred w)
    (_nextTargetId w) (_targets w) (heap w) (f (open_deferred w)).

Global Instance TargetState_inhabited : Inhabited TargetState :=
  populate (newTargetState 0 None).

(** The object behind a reference.  Every reference the controller holds
    was returned by [alloc], so the default is never what is read. *)
Definition deref (w : WatchStream) (l : loc) : TargetState := heap w !!! l.

(** [new TargetState(...)] *)
Definition alloc (t : TargetState) : M WatchStream loc :=
  fun w => (Ok (length (heap w)), set_heap (heap w ++ [t]) w).

(** A method call [o.m(...)] on the object behind [l]: the object is
    mutated in place, also when the method throws. *)
Definition call {A} (l : loc) (m : M TargetState A) : M WatchStream A :=
  fun w =>
    let (r, t') := m (deref w l) in
    (r, set_heap (<[l := t']> (heap w)) w).

(** What a call of the public interface returns: a promise, named by the
    deferred it belongs to. *)
Inductive Promise :=
| OpenPromise
| ResolvedPromise
| ClosedPromise
| AddTargetPromise (targetId : Z) (targetState : loc)
| RemovedPromise (targetState : loc)
| InitialSnapshotPromise (targetState : loc)
| ExistenceFilterPromise (targetState : loc).

Definition open : M WatchStream Promise :=
  let! this := get in
  if bool_decide (is_Some (_stream this)) then
    throw WatchError [Lit "open() may only be called once"]
  else if _closed this then
    throw WatchError [Lit "open() may not be called after close()"]
  else
    modify (upd_open_deferred (fun _ => Pending)) >>
    modify (set_stream (Some (mkStream [] 0))) >>
    ret OpenPromise.

(** The callbacks [open()] registers on the stream. *)
Definition stream_onOpen : M WatchStream unit :=
  modify (upd_open_deferred (resolve tt)).

Definition stream_onClose (err : option Status) : M WatchStream unit :=
  match err with
  | Some err =>
      modify (upd_open_deferred (reject err)) >>
      modify (upd_closedDeferred (reject err))
  | None =>
      modify (upd_open_deferred (resolve tt)) >>
      modify (upd_closedDeferred (resolve tt))
  end.

Definition close : M WatchStream Promise :=
  modify (set_closed true) >>
  let! this := get in
  match _stream this with
  | None => ret ResolvedPromise
  | Some stream =>
      modify (set_stream
                (Some (mkStream (sent stream) (S (closeCalls stream))))) >>
      ret ClosedPromise
  end.

Definition sendListenRequest (listenRequest : ListenRequest)
  : M WatchStream unit :=
  let! this := get in
  match _stream this with
  | None => throw TypeError [Lit "this._stream is null"]
  | Some stream =>
      let msg :=
        mkListenRequest
          (Some ("projects/" +:+ _projectId this +:+ "/databases/(default)"))
          (addTarget_req listenRequest) (removeTarget_req listenRequest) in
      modify (set_stream (Some (mkStream (sent stream ++ [msg])
                                  (closeCalls stream))))
  end.

(** [x++] on a JavaScript number stores [x + 1] computed in binary64
    arithmetic, rounded to nearest with ties to the even significand.  The
    counter of target ids starts at 1 and is only incremented, so that it
    holds an integer.  On the integers a number can hold: the sum is exact
    from [-2^53] up to [2^53 - 1]; between [2^53] and [2^54] in magnitude
    the numbers are the even integers, [n + 1] lies halfway between [n]
    and [n + 2] and goes to the multiple of 4; from [2^54] on it is
    rounded back to [n].  At [2^53] the increment is absorbed. *)
Definition number_inc (n : Z) : Z :=
  if (- 2 ^ 53 <=? n) && (n <? 2 ^ 53) then n + 1
  else if (Z.abs n <? 2 ^ 54) && negb (n mod 4 =? 0) then n + 2
  else n.

Arguments number_inc : simpl never.

(** [addTarget] up to its [await]: everything it does when it is called.
    A [throw] here is the rejection of the promise the async function
    returns.  The promise returned otherwise settles with the machine's
    "added" deferred. *)
Definition addTarget (targetInfo : WatchStreamAddTargetInfo)
  : M WatchStream Promise :=
  let! this := get in
  let targetId := _nextTargetId this in
  modify (set_nextTargetId (number_inc targetId)) >>
  let! this := get in
  if negb (bool_decide (is_Some (_stream this))) then
    throw WatchError [Lit "open() must be called before addTarget()"]
  else if _closed this then
    throw WatchError [Lit "addTarget() may not be called after close()"]
  else
    let listenRequest :=
      mkListenRequest None
        (Some (mkAddTargetRequest targetId
                 ("projects/" +:+ projectId targetInfo
                    +:+ "/databases/(default)/documents")
                 (mkStructuredQuery [collectionId targetInfo]
                    (keyFilter targetInfo) "EQUAL" (valueFilter targetInfo)
                    [("__name__", "ASCENDING")])
                 ((fun r => resumeToken (resume_from r)) <$> resume targetInfo)
                 (expectedCount <$> resume targetInfo)))
        None in
    let! targetState :=
      alloc (newTargetState targetId
               ((fun r => documentPaths (resume_from r))
                  <$> resume targetInfo)) in
    modify (upd_targets (map_set targetId targetState)) >>
    sendListenRequest listenRequest >>
    ret (AddTargetPromise targetId targetState).

Definition removeTarget (targetHandle : TargetHandle) : M WatchStream Promise :=
  let targetId := handle_targetId targetHandle in
  let! this := get in
  if negb (bool_decide (is_Some (_stream this))) then
    throw WatchError [Lit "open() must be called before removeTarget()"]
  else if _closed this then
    throw WatchError [Lit "removeTarget() may not be called after close()"]
  else
    match map_get targetId (_targets this) with
    | None =>
        throw WatchError
          [Lit "targetId "; Num targetId;
           Lit " has not been added by addTarget()"]
    | Some targetState =>
        sendListenRequest (mkListenRequest None None (Some targetId)) >>
        ret (RemovedPromise targetState)
    end.

Definition getInitialSnapshot (targetHandle : TargetHandle)
  : M WatchStream Promise :=
  let targetId := handle_targetId targetHandle in
  let! this := get in
  match map_get targetId (_targets this) with
  | None => throw WatchError [Lit "unknown targetId: "; Num targetId]
  | Some targetState => ret (InitialSnapshotPromise targetState)
  end.

Definition getExistenceFilter (targetHandle : TargetHandle)
  : M WatchStream Promise :=
  let targetId := handle_targetId targetHandle in
  let! this := get in
  match map_get targetId (_targets this) with
  | None => throw WatchError [Lit "unknown targetId: "; Num targetId]
  | Some targetState => ret (ExistenceFilterPromise targetState)
  end.

(** ** Inbound dispatch *)

Definition _targetStatesForTargetIds (targetIds : list Z)
  (allTargetsIfEmpty : bool) : M WatchStream (list loc) :=
  let! targetStates :=
    arrayFrom targetIds (fun targetId =>
      let! this := get in
      match map_get targetId (_targets this) with
      | None =>
          throw WatchError
            [Lit "TargetChange specifies an unknown targetId: "; Num targetId]
      | Some targetState => ret targetState
      end) in
  if (0 <? Z.of_nat (length targetStates)) || negb allTargetsIfEmpty then
    ret targetStates
  else
    let! this := get in
    ret (map_values (_targets this)).

(** The body of the loop of [_onTargetChange] for one machine. *)
Definition onTargetChange_body (targetChange : TargetChange)
  (targetState : loc) : M WatchStream unit :=
  match cause targetChange with
  | Some error => call targetState (onError error)
  | None =>
      let type := targetChangeType targetChange ?? "NO_CHANGE" in
      if String.eqb type "ADD" then
        call targetState onAdded
      else if String.eqb type "REMOVE" then
        call targetState onRemoved >>
        let! this := get in
        modify (upd_targets (map_delete (targetId (deref this targetState))))
      else if String.eqb type "CURRENT" then
        call targetState onCurrent
      else if String.eqb type "RESET" then
        call targetState onReset
      else if String.eqb type "NO_CHANGE" then
        call targetState (onNoChange (tc_resumeToken targetChange))
      else
        throw WatchError
          [Lit "unknown targetChangeType: ";
           match targetChangeType targetChange with
           | Some t => Str t
           | None => Undefined
           end]
  end.

Definition _onTargetChange (targetChange : TargetChange)
  : M WatchStream unit :=
  let! targetStates :=
    _targetStatesForTargetIds (tc_targetIds targetChange ?? []) true in
  forOf targetStates (onTargetChange_body targetChange).

Definition _onDocumentChange (documentChange : DocumentChange)
  : M WatchStream unit :=
  (let! targetStates :=
     _targetStatesForTargetIds (dc_targetIds documentChange ?? []) true in
   forOf targetStates (fun targetState =>
     call targetState
       (onDocumentChanged (dc_document_name documentChange)))) >>
  (let! targetStates :=
     _targetStatesForTargetIds
       (dc_removedTargetIds documentChange ?? []) false in
   forOf targetStates (fun targetState =>
     call targetState
       (onDocumentRemoved (dc_document_name documentChange)))).

Definition _onDocumentRemove (documentRemove : DocumentRemove)
  : M WatchStream unit :=
  let! targetStates :=
    _targetStatesForTargetIds
      (dr_removedTargetIds documentRemove ?? []) false in
  forOf targetStates (fun targetState =>
    call targetState (onDocumentRemoved (dr_document documentRemove))).

Definition _onDocumentDelete (documentDelete : DocumentRemove)
  : M WatchStream unit :=
  let! targetStates :=
    _targetStatesForTargetIds
      (dr_removedTargetIds documentDelete ?? []) false in
  forOf targetStates (fun targetState =>
    call targetState (onDocumentRemoved (dr_document documentDelete))).

Definition _onExistenceFilter (existenceFilter : ExistenceFilter)
  : M WatchStream unit :=
  let! this := get in
  match ef_targetId existenceFilter
          ≫= (fun targetId => map_get targetId (_targets this)) with
  | None =>
      throw WatchError
        [Lit "ExistenceFilter specified an unknown targetId: ";
         match ef_targetId existenceFilter with
         | Some targetId => Num targetId
         | None => Undefined
         end]
  | Some targetState =>
      call targetState (onExistenceFilter existenceFilter)
  end.

Definition _onMessageReceived (msg : ListenResponse) : M WatchStream unit :=
  match msg_targetChange msg with
  | Some targetChange => _onTargetChange targetChange
  | None =>
  match msg_documentChange msg with
  | Some documentChange => _onDocumentChange documentChange
  | None =>
  match msg_documentRemove msg with
  | Some documentRemove => _onDocumentRemove documentRemove
  | None =>
  match msg_documentDelete msg with
  | Some documentDelete => _onDocumentDelete documentDelete
  | None =>
  match msg_filter msg with
  | Some filter => _onExistenceFilter filter
  | None => ret tt
  end end end end end.

(** ** Runs *)

(** What can happen to a controller: a call of its public interface, or an
    event of the transport. *)
Inductive Op :=
| Open
| Close
| AddTarget (targetInfo : WatchStreamAddTargetInfo)
| RemoveTarget (targetHandle : TargetHandle)
| GetInitialSnapshot (targetHandle : TargetHandle)
| GetExistenceFilter (targetHandle : TargetHandle)
| StreamOpened
| StreamClosed (err : option Status)
| Message (msg : ListenResponse).

Inductive OpResult :=
| Returned (p : Promise)
| Done
| Thrown (e : Error).

Definition result_of {A} (f : A -> OpResult) (r : Res A) : OpResult :=
  match r with
  | Ok a => f a
  | Throw e => Thrown e
  end.

Definition step (op : Op) (w : WatchStream) : OpResult * WatchStream :=
  match op with
  | Open => let (r, w') := open w in (result_of Returned r, w')
  | Close => let (r, w') := close w in (result_of Returned r, w')
  | AddTarget i => let (r, w') := addTarget i w in (result_of Returned r, w')
  | RemoveTarget h =>
      let (r, w') := removeTarget h w in (result_of Returned r, w')
  | GetInitialSnapshot h =>
      let (r, w') := getInitialSnapshot h w in (result_of Returned r, w')
  | GetExistenceFilter h =>
      let (r, w') := getExistenceFilter h w in (result_of Returned r, w')
  | StreamOpened =>
      let (r, w') := stream_onOpen w in (result_of (fun _ => Done) r, w')
  | StreamClosed err =>
      let (r, w') := stream_onClose err w in (result_of (fun _ => Done) r, w')
  | Message msg =>
      let (r, w') := _onMessageReceived msg w in
      (result_of (fun _ => Done) r, w')
  end.

(** The controller after a sequence of operations, and what each one
    returned or threw. *)
Fixpoint run (ops : list Op) (w : WatchStream) : list OpResult * WatchStream :=
  match ops with
  | [] => ([], w)
  | op :: ops' =>
      let (r, w') := step op w in
      let (rs, w'') := run ops' w' in
      (r :: rs, w'')
  end.

Definition exec (ops : list Op) (w : WatchStream) : WatchStream :=
  snd (run ops w).

(** How the promise a call returned stands in a controller state. *)
Inductive Settled :=
| StillPending
| Fulfilled
| FulfilledHandle (h : TargetHandle)
| FulfilledSnapshot (s : TargetSnapshot)
| FulfilledFilter (f : option BloomFilter)
| RejectedWith (err : Status).

Definition settled {A} (f : A -> Settled) (d : Deferred A) : Settled :=
  match d with
  | Pending => StillPending
  | Resolved a => f a
  | Rejected err => RejectedWith err
  end.

Definition promise_state (w : WatchStream) (p : Promise) : Settled :=
  match p with
  | OpenPromise => settled (fun _ => Fulfilled) (open_deferred w)
  | ResolvedPromise => Fulfilled
  | ClosedPromise => settled (fun _ => Fulfilled) (_closedDeferred w)
  | AddTargetPromise targetId l =>
      settled (fun _ => FulfilledHandle (mkTargetHandle targetId))
        (_addedDeferred (deref w l))
  | RemovedPromise l =>
      settled (fun _ => Fulfilled) (_removedDeferred (deref w l))
  | InitialSnapshotPromise l =>
      settled FulfilledSnapshot (_initialSnapshotDeferred (deref w l))
  | ExistenceFilterPromise l =>
      settled FulfilledFilter (_existenceFilterDeferred (deref w l))
  end.

End WatchStream.

(** ** Well-formed controllers *)

(** What a controller built by the public interface satisfies for as long
    as its counter is below [2^53]: keys of the registry are distinct and
    below the counter, which allocated them, and the entry of a key refers
    to the machine created with that target id. *)
Definition wf (w : WatchStream) : Prop :=
  NoDup (map_keys (_targets w)) ∧
  Forall (fun e => targetId <$> heap w !! e.2 = Some e.1 ∧
                   e.1 < _nextTargetId w) (_targets w).

Global Instance wf_dec w : Decision (wf w).
Proof. unfold wf. apply _. Defined.

(** The part of well-formedness that does not mention the counter: the
    keys of the registry are distinct, and the entry of a key refers to
    the machine created with that target id. *)
Definition linked (w : WatchStream) : Prop :=
  NoDup (map_keys (_targets w)) ∧
  Forall (fun e => targetId <$> heap w !! e.2 = Some e.1) (_targets w).

(** The ids in the registry were handed out by the counter, which has not
    gone past [2^53]: an id is at least 1 and at most the counter, and
    below it for as long as the counter is below [2^53]. *)
Definition allocated (w : WatchStream) : Prop :=
  1 ≤ _nextTargetId w ≤ 2 ^ 53 ∧
  Forall (fun e => 1 ≤ e.1 ≤ _nextTargetId w ∧
                   (_nextTargetId w < 2 ^ 53 → e.1 < _nextTargetId w))
    (_targets w).

(** The machines a target change names, given that all are registered. *)
Definition named (targetIds : list Z) (w : WatchStream) : list loc :=
  omap (fun targetId => map_get targetId (_targets w)) targetIds.

(** What the body of the loop of [_onTargetChange] calls on the machine it
    is given. *)
Definition machine_transition (targetChange : TargetChange)
  : M TargetState unit :=
  match cause targetChange with
  | Some error => onError error
  | None =>
      let type := targetChangeType targetChange ?? "NO_CHANGE" in
      if String.eqb type "ADD" then onAdded
      else if String.eqb type "REMOVE" then onRemoved
      else if String.eqb type "CURRENT" then onCurrent
      else if String.eqb type "RESET" then onReset
      else if String.eqb type "NO_CHANGE" then
        onNoChange (tc_resumeToken targetChange)
      else
        throw WatchError
          [Lit "unknown targetChangeType: ";
           match targetChangeType targetChange with
           | Some t => Str t
           | None => Undefined
           end]
  end.

(** The target ids of the promises that calls of [addTarget] returned. *)
Definition addTarget_ids (rs : list OpResult) : list Z :=
  omap (fun r =>
          match r with
          | Returned (AddTargetPromise targetId _) => Some targetId
          | _ => None
          end) rs.

(** The seven events that are legal only after "added" and before
    "removed". *)
Definition guarded (ev : Event) : Prop :=
  match ev with
  | EvError _ | EvAdded => False
  | _ => True
  end.

(** A machine in the Added state: added, and not yet removed. *)
Definition Added (t : TargetState) : Prop :=
  _added t = true ∧ _removed t = false.

(** What the dispatch of an inbound message leaves alone: it can only
    delete entries of the registry and mutate machines in place. *)
Definition frame (w w' : WatchStream) : Prop :=
  _projectId w' = _projectId w ∧ _stream w' = _stream w ∧
  _closed w' = _closed w ∧ _closedDeferred w' = _closedDeferred w ∧
  _nextTargetId w' = _nextTargetId w ∧ open_deferred w' = open_deferred w ∧
  _targets w' `sublist_of` _targets w ∧
  ∀ l : loc, targetId <$> heap w' !! l = targetId <$> heap w !! l.

(** A loop body that calls the method [f] on the machine it is given. *)
Definition acts_as (body : loc -> M WatchStream unit)
  (f : M TargetState unit) : Prop :=
  ∀ l w,
    (body l w).1 = (f (deref w l)).1 ∧
    heap (body l w).2 = <[l := (f (deref w l)).2]> (heap w) ∧
    frame w (body l w).2.

(** ** Invariants of machines and controllers *)

(** How the flags and the deferreds of a machine hang together: "removed"
    and "current" only after "added"; a flag that is set has settled its
    deferred, and a deferred is resolved only with its flag set; the
    snapshot and the filter are resolved only after "added". *)
Definition consistent (t : TargetState) : Prop :=
  (_removed t = true → _added t = true) ∧
  (_current t = true → _added t = true) ∧
  (_added t = true → _addedDeferred t ≠ Pending) ∧
  (_addedDeferred t = Resolved tt → _added t = true) ∧
  (_removed t = true → _removedDeferred t ≠ Pending) ∧
  (_removedDeferred t = Resolved tt → _removed t = true) ∧
  (∀ snap, _initialSnapshotDeferred t = Resolved snap → _added t = true) ∧
  (∀ filter, _existenceFilterDeferred t = Resolved filter → _added t = true).

(** The data-model invariant of a filter value. *)
Definition valid_filter (f : BloomFilter) : Prop :=
  0 ≤ padding f ≤ 7 ∧ 0 ≤ hashCount f ∧ (hashCount f = 0 → bitmap f = []).

(** No registered machine has been removed. *)
Definition live (w : WatchStream) : Prop :=
  Forall (fun e => _removed (deref w e.2) = false) (_targets w).

(** The change types [_onTargetChange] knows. *)
Definition known_type (type : string) : bool :=
  String.eqb type "ADD" || String.eqb type "REMOVE" ||
  String.eqb type "CURRENT" || String.eqb type "RESET" ||
  String.eqb type "NO_CHANGE".


(** What the requests on the stream say about the registry: without a
    stream no target is registered; with one, every request carries the
    database of the controller's project, and every registered id has its
    [addTarget] request among those sent. *)
Definition requested (w : WatchStream) : Prop :=
  match _stream w with
  | None => _targets w = []
  | Some stream =>
      (∀ req, req ∈ sent stream →
              database req =
                Some ("projects/" +:+ _projectId w +:+ "/databases/(default)")) ∧
      (∀ id, id ∈ map_keys (_targets w) →
             ∃ req r, req ∈ sent stream ∧ addTarget_req req = Some r ∧
                      at_targetId r = id)
  end.

(** ** Sample data *)

(** A decoder to run the model with: a string stands for its own bytes. *)
Definition sample_decoder (b : ByteString) : list byte :=
  match b with
  | OfString s => list_byte_of_string s
  | OfBytes bs => bs
  end.

Definition sample_info : WatchStreamAddTargetInfo :=
  mkWatchStreamAddTargetInfo "proj" "coll" "key" "value" None.

Definition targetChange_msg (targetIds : list Z) (type : string)
  (resumeToken : option ByteString) : Op :=
  Message (mkListenResponse
             (Some (mkTargetChange (Some targetIds) None (Some type) resumeToken))
             None None None None).

Definition targetChange_error_msg (targetIds : list Z) (error : Status) : Op :=
  Message (mkListenResponse
             (Some (mkTargetChange (Some targetIds) (Some error) None None))
             None None None None).

Definition documentChange_msg (documentName : string)
  (targetIds removedTargetIds : list Z) : Op :=
  Message (mkListenResponse None
             (Some (mkDocumentChange documentName (Some targetIds)
                      (Some removedTargetIds)))
             None None None).

(** The wire filters of the examples: a padding of 8; a hash count of 0
    with a bitmap of one byte; and a well-formed filter. *)
Definition filter_padding_8 : ExistenceFilter :=
  mkExistenceFilter (Some 1) None
    (Some (mkBloomFilterProto (Some (mkBitSequence None (Some 8))) (Some 0))).

Definition filter_no_hash : ExistenceFilter :=
  mkExistenceFilter (Some 1) None
    (Some (mkBloomFilterProto
             (Some (mkBitSequence (Some (OfBytes [x01%byte])) (Some 0)))
             (Some 0))).

Definition filter_valid : ExistenceFilter :=
  mkExistenceFilter (Some 1) None
    (Some (mkBloomFilterProto
             (Some (mkBitSequence (Some (OfBytes [x2a%byte])) (Some 3)))
             (Some 5))).

(** An open stream with [n] targets, all acknowledged by the server. *)
Definition sample_stream (n : nat) : WatchStream :=
  exec sample_decoder
    (Open :: StreamOpened :: replicate n (AddTarget sample_info)
       ++ [targetChange_msg [] "ADD" None])
    (newWatchStream "proj").

(** * Properties *)

Section Properties.

Variable normalizeByteString : ByteString -> list byte.

(** One event, one operation at a time. *)

Lemma feed_cons (ev : Event) (evs : list Event) (t : TargetState) :
  let r := fire normalizeByteString ev t in
  feed normalizeByteString (ev :: evs) t =
  ((ev, r.1) :: (feed normalizeByteString evs r.2).1,
   (feed normalizeByteString evs r.2).2).
Proof.
  simpl. destruct (fire normalizeByteString ev t) as [r t']. simpl.
  by destruct (feed normalizeByteString evs t').
Qed.

Lemma step_state (op : Op) (w : WatchStream) :
  (step normalizeByteString op w).2 =
  match op with
  | Open => (open w).2
  | Close => (close w).2
  | AddTarget i => (addTarget i w).2
  | RemoveTarget h => (removeTarget h w).2
  | GetInitialSnapshot h => (getInitialSnapshot h w).2
  | GetExistenceFilter h => (getExistenceFilter h w).2
  | StreamOpened => (stream_onOpen w).2
  | StreamClosed err => (stream_onClose err w).2
  | Message msg => (_onMessageReceived normalizeByteString msg w).2
  end.
Proof.
  destruct op; unfold step;
    match goal with |- context [let (_, _) := ?x in _] => by destruct x end.
Qed.

Lemma step_result (op : Op) (w : WatchStream) :
  (step normalizeByteString op w).1 =
  match op with
  | Open => result_of Returned (open w).1
  | Close => result_of Returned (close w).1
  | AddTarget i => result_of Returned (addTarget i w).1
  | RemoveTarget h => result_of Returned (removeTarget h w).1
  | GetInitialSnapshot h => result_of Returned (getInitialSnapshot h w).1
  | GetExistenceFilter h => result_of Returned (getExistenceFilter h w).1
  | StreamOpened => result_of (fun _ => Done) (stream_onOpen w).1
  | StreamClosed err => result_of (fun _ => Done) (stream_onClose err w).1
  | Message msg =>
      result_of (fun _ => Done)
        (_onMessageReceived normalizeByteString msg w).1
  end.
Proof.
  destruct op; unfold step;
    match goal with |- context [let (_, _) := ?x in _] => by destruct x end.
Qed.

Lemma run_cons (op : Op) (ops : list Op) (w : WatchStream) :
  let r := step normalizeByteString op w in
  run normalizeByteString (op :: ops) w =
  (r.1 :: (run normalizeByteString ops r.2).1,
   (run normalizeByteString ops r.2).2).
Proof.
  simpl. destruct (step normalizeByteString op w) as [r w']. simpl.
  by destruct (run normalizeByteString ops w').
Qed.

Lemma exec_cons (op : Op) (ops : list Op) (w : WatchStream) :
  exec normalizeByteString (op :: ops) w =
  exec normalizeByteString ops (step normalizeByteString op w).2.
Proof. unfold exec. by rewrite run_cons. Qed.

Local Abbreviation fire := (fire normalizeByteString).
Local Abbreviation feed := (feed normalizeByteString).
Local Abbreviation step := (step normalizeByteString).
Local Abbreviation run := (run normalizeByteString).
Local Abbreviation exec := (exec normalizeByteString).

Ltac unfold_monad :=
  unfold bind, ret, throw, get, modify in *; simpl in *.

(** ** Existence-filter construction *)

Lemma createBloomFilterFrom_state {S} (ef : ExistenceFilter) (s : S) :
  (createBloomFilterFrom normalizeByteString ef s).2 = s.
Proof.
  unfold createBloomFilterFrom.
  destruct (unchangedNames ef) as [un|]; [|reflexivity].
  repeat case_match; reflexivity.
Qed.

Lemma length_pos_nonempty {A} (l : list A) :
  (0 <? Z.of_nat (length l)) = true ↔ l ≠ [].
Proof.
  destruct l; simpl; split; intros H; try congruence; try done.
Qed.

(** C5: without an [unchangedNames] payload the result is [null], no
    error; with one, a padding outside [0,7], a negative hash count, and a
    hash count of 0 with a non-empty decoded bitmap each throw
    [InvalidBloomFilterError]; every other payload yields the filter made
    of the decoded bytes, the padding and the hash count. *)
Theorem createBloomFilterFrom_validates {S} (ef : ExistenceFilter) (s : S) :
  match unchangedNames ef with
  | None => createBloomFilterFrom normalizeByteString ef s = (Ok None, s)
  | Some un =>
      let p := (bits un ≫= bits_padding) ?? 0 in
      let h := proto_hashCount un ?? 0 in
      let bytes :=
        normalizeByteString ((bits un ≫= bits_bitmap) ?? OfString "") in
      let r := createBloomFilterFrom normalizeByteString ef s in
      (p < 0 ∨ 7 < p → throws InvalidBloomFilterError r.1) ∧
      (h < 0 → throws InvalidBloomFilterError r.1) ∧
      (h = 0 → bytes ≠ [] → throws InvalidBloomFilterError r.1) ∧
      (0 ≤ p ≤ 7 → 0 ≤ h → (h = 0 → bytes = []) →
       r = (Ok (Some (mkBloomFilter bytes p h)), s))
  end.
Proof.
  unfold createBloomFilterFrom.
  destruct (unchangedNames ef) as [un|]; [|reflexivity].
  cbv zeta.
  set (p := (bits un ≫= bits_padding) ?? 0).
  set (h := proto_hashCount un ?? 0).
  set (bytes := normalizeByteString _).
  destruct (Z.ltb_spec p 0), (Z.gtb_spec p 7), (Z.ltb_spec h 0),
    (Z.eqb_spec h 0); simpl;
    try (repeat split; intros; first [reflexivity | lia]).
  destruct (0 <? Z.of_nat (length bytes)) eqn:Hlen; simpl.
  - apply length_pos_nonempty in Hlen.
    repeat split; intros; first [reflexivity | lia | exfalso; by auto].
  - assert (bytes = []) as Hnil.
    { apply Z.ltb_ge in Hlen. destruct bytes; [done | simpl length in Hlen; lia]. }
    repeat split; intros; first [reflexivity | lia | by exfalso].
Qed.

(** ** The target state machine *)

Ltac unfold_methods :=
  unfold onError, onAdded, onRemoved, onCurrent, onReset, onNoChange,
    onDocumentChanged, onDocumentRemoved, onExistenceFilter in *.

Lemma onExistenceFilter_cases (ef : ExistenceFilter) (t : TargetState) :
  (∃ e, createBloomFilterFrom normalizeByteString ef t = (Throw e, t)) ∨
  (∃ f, createBloomFilterFrom normalizeByteString ef t = (Ok f, t)).
Proof.
  pose proof (createBloomFilterFrom_state ef t) as Hs.
  destruct (createBloomFilterFrom normalizeByteString ef t) as [[f|e] t'];
    simpl in Hs; subst; eauto.
Qed.

Ltac fire_cases ev t :=
  destruct ev as [err| | | | |tok|doc|doc|ef]; simpl;
  unfold_methods; unfold_monad;
  destruct (_added t) eqn:?, (_removed t) eqn:?; simpl;
  try (destruct (_current t) eqn:?, tok; simpl);
  try (destruct (onExistenceFilter_cases ef t) as [[? ->]|[? ->]]; simpl).

(** A call that throws has not touched the machine. *)
Lemma fire_throw_unchanged (ev : Event) (t : TargetState) (e : Error) :
  (fire ev t).1 = Throw e → (fire ev t).2 = t.
Proof. fire_cases ev t; done. Qed.

Lemma fire_targetId (ev : Event) (t : TargetState) :
  targetId (fire ev t).2 = targetId t.
Proof. fire_cases ev t; done. Qed.

(** No method assigns [targetId]. *)
Ltac method_targetId t :=
  unfold_methods; unfold_monad;
  destruct (_added t), (_removed t), (_current t); simpl;
  repeat case_match; done.

Lemma onError_targetId (error : Status) (t : TargetState) :
  targetId (onError error t).2 = targetId t.
Proof. method_targetId t. Qed.

Lemma onAdded_targetId (t : TargetState) :
  targetId (onAdded t).2 = targetId t.
Proof. method_targetId t. Qed.

Lemma onRemoved_targetId (t : TargetState) :
  targetId (onRemoved t).2 = targetId t.
Proof. method_targetId t. Qed.

Lemma onCurrent_targetId (t : TargetState) :
  targetId (onCurrent t).2 = targetId t.
Proof. method_targetId t. Qed.

Lemma onReset_targetId (t : TargetState) :
  targetId (onReset t).2 = targetId t.
Proof. method_targetId t. Qed.

Lemma onNoChange_targetId (tok : option ByteString) (t : TargetState) :
  targetId (onNoChange tok t).2 = targetId t.
Proof. method_targetId t. Qed.

Lemma onDocumentChanged_targetId (documentName : string) (t : TargetState) :
  targetId (onDocumentChanged documentName t).2 = targetId t.
Proof. method_targetId t. Qed.

Lemma onDocumentRemoved_targetId (documentName : string) (t : TargetState) :
  targetId (onDocumentRemoved documentName t).2 = targetId t.
Proof. method_targetId t. Qed.

Lemma fire_added_flag (ev : Event) (t : TargetState) :
  _added (fire ev t).2 = true ↔ _added t = true ∨ ev = EvAdded.
Proof. fire_cases ev t; intuition (first [discriminate | congruence]). Qed.

Lemma fire_removed_flag (ev : Event) (t : TargetState) :
  _removed (fire ev t).2 = true ↔
  _removed t = true ∨ (ev = EvRemoved ∧ (fire ev t).1 = Ok tt).
Proof. fire_cases ev t; intuition (first [discriminate | congruence]). Qed.

(** The guards: outside the Added state each of the seven throws. *)
Lemma fire_guard (ev : Event) (t : TargetState) :
  guarded ev → _added t = false ∨ _removed t = true →
  throws TargetStateError (fire ev t).1.
Proof.
  intros Hg Hs.
  fire_cases ev t; simpl in *; intuition (first [discriminate | congruence]).
Qed.

Lemma onAdded_twice (t : TargetState) :
  _added t = true → throws TargetStateError (fire EvAdded t).1.
Proof. intros H. simpl. unfold onAdded. unfold_monad. by rewrite H. Qed.


Lemma feed_added_flag (evs : list Event) (t : TargetState) :
  _added (feed evs t).2 = true ↔ _added t = true ∨ EvAdded ∈ evs.
Proof.
  revert t. induction evs as [|ev evs IH]; intros t.
  - simpl. set_solver.
  - rewrite feed_cons. simpl. rewrite IH, fire_added_flag. set_solver.
Qed.

Lemma feed_removed_flag (evs : list Event) (t : TargetState) :
  _removed (feed evs t).2 = true ↔
  _removed t = true ∨ (EvRemoved, Ok tt) ∈ (feed evs t).1.
Proof.
  revert t. induction evs as [|ev evs IH]; intros t.
  - simpl. set_solver.
  - rewrite feed_cons. simpl. rewrite IH, fire_removed_flag.
    rewrite elem_of_cons. split.
    + intros [[H|[-> H]]|H];
        [by left | right; left; by rewrite H | right; by right].
    + intros [H|[H|H]]; [left; by left | | by right].
      injection H as <- H'. left; right. by split.
Qed.

(** C3: a machine that has been fed any sequence of events throws
    [TargetStateError] on each of the seven guarded events when no
    [onAdded] came before or an [onRemoved] was accepted, and on a second
    [onAdded]; a second [onRemoved] is one of the guarded events.  A call
    that throws leaves the whole machine, flags and accumulated set
    included, as it was. *)
Theorem target_state_guards (targetId : Z) (paths : option (gset string))
    (evs : list Event) :
  let r := feed evs (newTargetState targetId paths) in
  (EvAdded ∉ evs →
   ∀ ev, guarded ev → throws TargetStateError (fire ev r.2).1) ∧
  ((EvRemoved, Ok tt) ∈ r.1 →
   ∀ ev, guarded ev → throws TargetStateError (fire ev r.2).1) ∧
  (EvAdded ∈ evs → throws TargetStateError (fire EvAdded r.2).1) ∧
  (∀ ev t e, (fire ev t).1 = Throw e → (fire ev t).2 = t).
Proof.
  cbv zeta. repeat split.
  - intros Hnot ev Hg. apply fire_guard; [done|]. left.
    apply not_true_is_false. rewrite feed_added_flag. simpl. naive_solver.
  - intros Hrem ev Hg. apply fire_guard; [done|]. right.
    apply feed_removed_flag. by right.
  - intros Hin. apply onAdded_twice, feed_added_flag. by right.
  - apply fire_throw_unchanged.
Qed.

(** Once resolved, the initial snapshot stays what it is, whatever the
    machine receives afterwards. *)
Lemma fire_snapshot_settled (ev : Event) (t : TargetState)
    (snap : TargetSnapshot) :
  _initialSnapshotDeferred t = Resolved snap →
  _initialSnapshotDeferred (fire ev t).2 = Resolved snap.
Proof. intros H. fire_cases ev t; by rewrite ?H. Qed.

Lemma feed_snapshot_settled (evs : list Event) (t : TargetState)
    (snap : TargetSnapshot) :
  _initialSnapshotDeferred t = Resolved snap →
  _initialSnapshotDeferred (feed evs t).2 = Resolved snap.
Proof.
  revert t. induction evs as [|ev evs IH]; intros t H; [done|].
  rewrite feed_cons. simpl. by apply IH, fire_snapshot_settled.
Qed.

(** C2: after [onAdded], two document changes "A" and "B", [onCurrent]
    and [onNoChange("T1")] the initial snapshot is resolved with
    ({A,B}, "T1").  In the Added state [onNoChange] returns, and it
    resolves a pending initial snapshot, with the accumulated set and the
    token, exactly when the machine is current and the token is not null;
    in every other case, and when the snapshot was settled before, the call
    changes nothing; a resolved snapshot survives all later events. *)
Theorem onNoChange_initial_snapshot :
  (∀ targetId,
     _initialSnapshotDeferred
       (feed [EvAdded; EvDocumentChanged "A"; EvDocumentChanged "B";
              EvCurrent; EvNoChange (Some (OfString "T1"))]
          (newTargetState targetId None)).2
     = Resolved (mkTargetSnapshot {["A"; "B"]} (OfString "T1"))) ∧
  (∀ t tok, Added t →
     let r := onNoChange tok t in
     r.1 = Ok tt ∧
     (_initialSnapshotDeferred t = Pending →
      ∀ snap,
        _initialSnapshotDeferred r.2 = Resolved snap ↔
        _current t = true ∧
        ∃ token, tok = Some token ∧
                 snap = mkTargetSnapshot (_accumulatedDocumentNames t) token) ∧
     (_current t = false ∨ tok = None → r.2 = t) ∧
     (_initialSnapshotDeferred t ≠ Pending → r.2 = t)) ∧
  (∀ t snap evs,
     _initialSnapshotDeferred t = Resolved snap →
     _initialSnapshotDeferred (feed evs t).2 = Resolved snap).
Proof.
  split; [|split].
  - intros targetId. vm_compute. f_equal.
  - intros [tid a r c acc d1 d2 d3 d4] tok [Ha Hr]; simpl in *; subst.
    unfold onNoChange; unfold_monad.
    split; [by destruct c, tok|]. split; [|split].
    + intros -> snap. destruct c, tok as [token|]; simpl; split;
        try (intros [? (? & ? & ?)]); try (intros [=]); try done.
      * subst. eauto.
      * by simplify_eq.
    + intros [->| ->]; [done | by destruct c].
    + intros Hd. destruct c, tok, d3; done.
  - intros t snap evs. apply feed_snapshot_settled.
Qed.

(** C6: in the Added state [onReset] returns, leaves the machine not
    current and its accumulated set empty, whatever it held; then
    [onCurrent] and [onNoChange] with a token both return, and the call of
    [onNoChange] resolves the initial snapshot with the empty set and the
    token: a pending snapshot becomes that one. *)
Theorem onReset_clears (t : TargetState) :
  Added t →
  let r := onReset t in
  r.1 = Ok tt ∧ _current r.2 = false ∧ _accumulatedDocumentNames r.2 = ∅ ∧
  ∀ token,
    let r3 := feed [EvReset; EvCurrent; EvNoChange (Some token)] t in
    r3.1 = [(EvReset, Ok tt); (EvCurrent, Ok tt);
            (EvNoChange (Some token), Ok tt)] ∧
    _accumulatedDocumentNames r3.2 = ∅ ∧
    _initialSnapshotDeferred r3.2 =
      resolve (mkTargetSnapshot ∅ token) (_initialSnapshotDeferred t) ∧
    (_initialSnapshotDeferred t = Pending →
     _initialSnapshotDeferred r3.2 = Resolved (mkTargetSnapshot ∅ token)).
Proof.
  destruct t as [tid a r c acc d1 d2 d3 d4]. intros [Ha Hr]; simpl in *; subst.
  repeat split; simpl. by intros ->.
Qed.

(** ** The registry *)

Lemma map_get_Some_elem {V} (k : Z) (v : V) (m : list (Z * V)) :
  map_get k m = Some v → (k, v) ∈ m.
Proof.
  induction m as [|[k' v'] m IH]; simpl; [done|].
  destruct (Z.eqb_spec k' k) as [->|Hne].
  - intros [= ->]. apply list_elem_of_here.
  - intros H. apply list_elem_of_further. auto.
Qed.


Lemma map_get_elem_NoDup {V} (k : Z) (v : V) (m : list (Z * V)) :
  NoDup (map_keys m) → (k, v) ∈ m → map_get k m = Some v.
Proof.
  unfold map_keys. induction m as [|[k' v'] m IH]; simpl.
  - intros _ H. by apply elem_of_nil in H.
  - rewrite NoDup_cons. intros [Hk Hnd] [Heq|Hin]%elem_of_cons.
    + injection Heq as -> ->. by rewrite Z.eqb_refl.
    + destruct (Z.eqb_spec k' k) as [->|Hne]; [|by apply IH].
      exfalso. apply Hk. by apply (list_elem_of_fmap_2 fst) in Hin.
Qed.

Lemma map_delete_sublist {V} (k : Z) (m : list (Z * V)) :
  map_delete k m `sublist_of` m.
Proof.
  induction m as [|[k' v'] m IH]; simpl; [done|].
  destruct (k' =? k); by constructor.
Qed.

Lemma map_get_delete_eq {V} (k : Z) (m : list (Z * V)) :
  map_get k (map_delete k m) = None.
Proof.
  induction m as [|[k' v'] m IH]; simpl; [done|].
  destruct (Z.eqb_spec k' k) as [->|Hne]; [done|].
  simpl. by destruct (Z.eqb_spec k' k).
Qed.

Lemma map_get_delete_ne {V} (k k' : Z) (m : list (Z * V)) :
  k ≠ k' → map_get k' (map_delete k m) = map_get k' m.
Proof.
  intros Hne. induction m as [|[k1 v1] m IH]; simpl; [done|].
  destruct (Z.eqb_spec k1 k) as [->|Hne1].
  - destruct (Z.eqb_spec k k'); [done | apply IH].
  - simpl. destruct (Z.eqb_spec k1 k'); [done | apply IH].
Qed.

Lemma map_set_fresh {V} (k : Z) (v : V) (m : list (Z * V)) :
  k ∉ map_keys m → map_set k v m = (m ++ [(k, v)])%list.
Proof.
  unfold map_keys. induction m as [|[k' v'] m IH]; simpl; [done|].
  rewrite not_elem_of_cons. intros [Hne Hk].
  destruct (Z.eqb_spec k' k); [congruence|]. by rewrite IH.
Qed.


Lemma map_set_elem {V} (k : Z) (v : V) (m : list (Z * V)) (e : Z * V) :
  e ∈ map_set k v m → e = (k, v) ∨ e ∈ m.
Proof.
  induction m as [|[k' v'] m IH]; simpl.
  - intros ->%list_elem_of_singleton. by left.
  - destruct (Z.eqb_spec k' k) as [->|Hne].
    + intros [->|Hin]%elem_of_cons; [by left|]. right. by right.
    + intros [->|[->|Hin]%IH]%elem_of_cons.
      * right. by left.
      * by left.
      * right. by right.
Qed.

Lemma map_set_present {V} (k : Z) (v : V) (m : list (Z * V)) :
  k ∈ map_keys m → map_keys (map_set k v m) = map_keys m.
Proof.
  unfold map_keys. induction m as [|[k' v'] m IH]; simpl.
  - by intros ?%elem_of_nil.
  - destruct (Z.eqb_spec k' k) as [->|Hne]; [done|].
    intros [?|Hin]%elem_of_cons; [congruence|]. simpl. f_equal. by apply IH.
Qed.

Lemma map_set_NoDup {V} (k : Z) (v : V) (m : list (Z * V)) :
  NoDup (map_keys m) → NoDup (map_keys (map_set k v m)).
Proof.
  intros Hnd. destruct (decide (k ∈ map_keys m)) as [Hin|Hnot].
  - by rewrite map_set_present.
  - rewrite map_set_fresh by done. unfold map_keys in *.
    rewrite fmap_app. simpl. apply NoDup_app.
    repeat split; [done| |apply NoDup_singleton].
    by intros k' Hk ->%list_elem_of_singleton.
Qed.


(** ** Method calls through references *)

Lemma frame_refl (w : WatchStream) : frame w w.
Proof. by repeat split. Qed.

Lemma frame_trans (w1 w2 w3 : WatchStream) :
  frame w1 w2 → frame w2 w3 → frame w1 w3.
Proof.
  intros (?&?&?&?&?&?&?&Ha) (?&?&?&?&?&?&?&Hb).
  repeat split; try congruence. by etrans.
Qed.

Lemma frame_length (w w' : WatchStream) :
  frame w w' → length (heap w') = length (heap w).
Proof.
  intros (_&_&_&_&_&_&_&H).
  destruct (Nat.lt_trichotomy (length (heap w')) (length (heap w)))
    as [Hlt|[?|Hlt]]; [exfalso|done|exfalso].
  - specialize (H (length (heap w'))).
    rewrite (lookup_ge_None_2 (heap w')) in H by done.
    apply lookup_lt_is_Some_2 in Hlt as [t Ht]. by rewrite Ht in H.
  - specialize (H (length (heap w))).
    rewrite (lookup_ge_None_2 (heap w)) in H by done.
    apply lookup_lt_is_Some_2 in Hlt as [t Ht]. by rewrite Ht in H.
Qed.

Lemma insert_deref_id (h : list TargetState) (l : loc) :
  <[l := h !!! l]> h = h.
Proof.
  destruct (h !! l) as [t|] eqn:Hl.
  - rewrite (list_lookup_total_correct _ _ _ Hl). by apply list_insert_id.
  - apply list_insert_ge. by apply lookup_ge_None.
Qed.

Lemma call_result {A} (l : loc) (m : M TargetState A) (w : WatchStream) :
  (call l m w).1 = (m (deref w l)).1.
Proof. unfold call. by destruct (m (deref w l)). Qed.

Lemma call_state {A} (l : loc) (m : M TargetState A) (w : WatchStream) :
  (call l m w).2 = set_heap (<[l := (m (deref w l)).2]> (heap w)) w.
Proof. unfold call. by destruct (m (deref w l)). Qed.

Lemma insert_targetId (h : list TargetState) (l l0 : loc) (t : TargetState) :
  targetId t = targetId (h !!! l) →
  targetId <$> <[l := t]> h !! l0 = targetId <$> h !! l0.
Proof.
  intros Ht. rewrite list_lookup_insert. case_decide as Hd; [|done].
  destruct Hd as [-> Hlt]. apply lookup_lt_is_Some_2 in Hlt as [t0 Ht0].
  rewrite (list_lookup_total_correct _ _ _ Ht0) in Ht. rewrite Ht0. simpl.
  by f_equal.
Qed.

Lemma call_acts_as (f : M TargetState unit) :
  (∀ t, targetId (f t).2 = targetId t) →
  acts_as (fun l => call l f) f.
Proof.
  intros Hf l w. rewrite call_result, call_state. simpl.
  repeat split; try done. intros l0. by apply insert_targetId.
Qed.

(** ** Loops over machines *)

Section Loops.

Variable body : loc -> M WatchStream unit.
Variable f : M TargetState unit.
Hypothesis Hbody : acts_as body f.

Lemma body_deref_eq (l : loc) (w : WatchStream) :
  (l < length (heap w))%nat → deref (body l w).2 l = (f (deref w l)).2.
Proof.
  intros Hl. destruct (Hbody l w) as (_ & Hh & _). unfold deref at 1.
  rewrite Hh. by apply list_lookup_total_insert_eq.
Qed.

Lemma body_deref_ne (l l' : loc) (w : WatchStream) :
  l ≠ l' → deref (body l w).2 l' = deref w l'.
Proof.
  intros Hl. destruct (Hbody l w) as (_ & Hh & _). unfold deref at 1.
  rewrite Hh. by apply list_lookup_total_insert_ne.
Qed.

Lemma body_length (l : loc) (w : WatchStream) :
  length (heap (body l w).2) = length (heap w).
Proof. destruct (Hbody l w) as (_ & Hh & _). by rewrite Hh, length_insert. Qed.

Lemma forOf_cons {A} (x : A) (xs : list A) (b : A -> M WatchStream unit)
    (w : WatchStream) :
  forOf (x :: xs) b w =
  match (b x w).1 with
  | Ok _ => forOf xs b (b x w).2
  | Throw e => (Throw e, (b x w).2)
  end.
Proof. simpl. unfold bind. by destruct (b x w) as [[[]|e] w1]. Qed.

Lemma forOf_frame (locs : list loc) (w : WatchStream) :
  frame w (forOf locs body w).2.
Proof.
  revert w. induction locs as [|x xs IH]; intros w; [apply frame_refl|].
  rewrite forOf_cons. destruct (Hbody x w) as (_ & _ & Hfr).
  destruct (body x w).1; [|done]. eapply frame_trans; [done | apply IH].
Qed.

Lemma forOf_length (locs : list loc) (w : WatchStream) :
  length (heap (forOf locs body w).2) = length (heap w).
Proof. apply frame_length, forOf_frame. Qed.

(** Whatever the outcome, a machine the loop does not visit is as it
    was. *)
Lemma forOf_untouched (locs : list loc) (w : WatchStream) (l : loc) :
  l ∉ locs → deref (forOf locs body w).2 l = deref w l.
Proof.
  revert w. induction locs as [|x xs IH]; intros w Hl; [done|].
  apply not_elem_of_cons in Hl as [Hne Hl]. rewrite forOf_cons.
  destruct (body x w).1 eqn:Hr.
  - rewrite IH by done. by apply body_deref_ne.
  - by apply body_deref_ne.
Qed.

(** A loop over distinct machines returns exactly when every machine
    accepts the call. *)
Lemma forOf_ok_iff (locs : list loc) (w : WatchStream) :
  NoDup locs →
  (forOf locs body w).1 = Ok tt ↔
  ∀ l, l ∈ locs → (f (deref w l)).1 = Ok tt.
Proof.
  revert w. induction locs as [|x xs IH]; intros w Hnd.
  - split; [intros _ l Hl; by apply elem_of_nil in Hl | done].
  - apply NoDup_cons in Hnd as [Hx Hnd]. rewrite forOf_cons.
    destruct (Hbody x w) as (Hr & _ & _).
    destruct (body x w).1 as [[]|e] eqn:Hres.
    + rewrite IH by done. split.
      * intros H l [->|Hl]%elem_of_cons; [congruence|].
        rewrite <- (body_deref_ne x l) by (intros ->; done). by apply H.
      * intros H l Hl. rewrite (body_deref_ne x l) by (intros ->; done).
        apply H. by right.
    + split; [done|]. intros H. specialize (H x (list_elem_of_here _ _)).
      congruence.
Qed.

(** When the loop returns, every machine has made the transition once for
    each of its occurrences in the list. *)
Lemma forOf_effect (locs : list loc) (w : WatchStream) (l : loc) :
  (∀ x, x ∈ locs → (x < length (heap w))%nat) →
  (forOf locs body w).1 = Ok tt →
  deref (forOf locs body w).2 l =
  Nat.iter (count_occ Nat.eq_dec locs l) (fun t => (f t).2) (deref w l).
Proof.
  revert w. induction locs as [|x xs IH]; intros w Hv; [done|].
  rewrite forOf_cons. destruct (body x w).1 as [[]|e] eqn:Hres; [|done].
  intros Hok. rewrite IH; [|intros y Hy; rewrite body_length; apply Hv; by right|done].
  destruct (decide (x = l)) as [->|Hne].
  - rewrite count_occ_cons_eq by done. rewrite Nat.iter_succ_r.
    rewrite body_deref_eq; [done|]. apply Hv. by left.
  - rewrite count_occ_cons_neq by done. by rewrite body_deref_ne.
Qed.

(** A loop over machines that all satisfy [P] returns, when [P] makes the
    call return and is kept by it. *)
Lemma forOf_accepting (P : TargetState -> Prop) (locs : list loc)
    (w : WatchStream) :
  (∀ t, P t → (f t).1 = Ok tt ∧ P (f t).2) →
  (∀ l, l ∈ locs → (l < length (heap w))%nat ∧ P (deref w l)) →
  (forOf locs body w).1 = Ok tt ∧
  ∀ l, P (deref w l) → P (deref (forOf locs body w).2 l).
Proof.
  intros HP. revert w. induction locs as [|x xs IH]; intros w Hall; [done|].
  rewrite forOf_cons. destruct (Hall x (list_elem_of_here _ _)) as [Hx HPx].
  destruct (HP _ HPx) as [Hok HP'].
  destruct (Hbody x w) as (Hr & _ & _). rewrite Hr, Hok.
  assert (∀ l, P (deref w l) → P (deref (body x w).2 l)) as Hkeep.
  { intros l Hl. destruct (decide (x = l)) as [<-|Hne].
    - by rewrite body_deref_eq.
    - by rewrite body_deref_ne. }
  destruct (IH (body x w).2) as [Hres Hinv].
  { intros l Hl. rewrite body_length. destruct (Hall l) as [? ?]; [by right|].
    split; [done|]. by apply Hkeep. }
  split; [done|]. intros l Hl. by apply Hinv, Hkeep.
Qed.

End Loops.

(** ** Resolving target ids *)

Lemma arrayFrom_cons {S A B} (x : A) (xs : list A) (g : A -> M S B) (s : S) :
  arrayFrom (x :: xs) g s =
  match g x s with
  | (Ok y, s1) =>
      match arrayFrom xs g s1 with
      | (Ok ys, s2) => (Ok (y :: ys), s2)
      | (Throw e, s2) => (Throw e, s2)
      end
  | (Throw e, s1) => (Throw e, s1)
  end.
Proof.
  simpl. unfold bind, ret. destruct (g x s) as [[y|e] s1]; [|done].
  by destruct (arrayFrom xs g s1) as [[ys|e] s2].
Qed.


Lemma arrayFrom_lookup (ids : list Z) (w : WatchStream) :
  let g := fun targetId : Z =>
      let! this := get in
      match map_get targetId (_targets this) with
      | None =>
          throw WatchError
            [Lit "TargetChange specifies an unknown targetId: "; Num targetId]
      | Some targetState => ret targetState
      end in
  (arrayFrom ids g w).2 = w ∧
  ((∀ id, id ∈ ids → is_Some (map_get id (_targets w))) →
   (arrayFrom ids g w).1 = Ok (named ids w)) ∧
  (∀ id, id ∈ ids → map_get id (_targets w) = None →
   throws WatchError (arrayFrom ids g w).1).
Proof.
  intros g. induction ids as [|x xs (IH1 & IH2 & IH3)].
  - repeat split. intros id Hid. by apply elem_of_nil in Hid.
  - rewrite arrayFrom_cons.
    assert (g x w = match map_get x (_targets w) with
                    | None => (Throw (mkError WatchError [Lit "TargetChange specifies an unknown targetId: "; Num x]), w)
                    | Some l => (Ok l, w) end) as ->.
    { unfold g. unfold_monad. by destruct (map_get x (_targets w)). }
    destruct (map_get x (_targets w)) as [l|] eqn:Hx.
    + destruct (arrayFrom xs g w) as [[ys|e] s2] eqn:Hxs; simpl in *; subst.
      * repeat split.
        -- intros Hall. unfold named. simpl. rewrite Hx. simpl.
           f_equal. f_equal.
           assert (∀ id, id ∈ xs → is_Some (map_get id (_targets w))) as Hall'
             by (intros id Hid; apply Hall; by right).
           specialize (IH2 Hall'). by injection IH2 as ->.
        -- intros id [->|Hid]%elem_of_cons Hnone; [congruence|].
           by apply (IH3 id).
      * repeat split.
        -- intros Hall.
           assert (∀ id, id ∈ xs → is_Some (map_get id (_targets w))) as Hall'
             by (intros id Hid; apply Hall; by right).
           by specialize (IH2 Hall').
        -- intros id [->|Hid]%elem_of_cons Hnone; [congruence|].
           by apply (IH3 id).
    + simpl. repeat split.
      intros Hall. destruct (Hall x (list_elem_of_here _ _)). congruence.
Qed.

Lemma bind_eq {S A B} (m : M S A) (k : A -> M S B) (s : S) :
  bind m k s =
  match m s with
  | (Ok a, s') => k a s'
  | (Throw e, s') => (Throw e, s')
  end.
Proof. reflexivity. Qed.

Lemma named_length (ids : list Z) (w : WatchStream) :
  (∀ id, id ∈ ids → is_Some (map_get id (_targets w))) →
  length (named ids w) = length ids.
Proof.
  unfold named. induction ids as [|x xs IH]; intros Hall; [done|].
  simpl. destruct (Hall x (list_elem_of_here _ _)) as [l ->]. simpl.
  f_equal. apply IH. intros id Hid. apply Hall. by right.
Qed.

(** The lookups of [_targetStatesForTargetIds]: the machines of the ids
    when all are registered, a [WatchError] otherwise; the controller is
    not changed. *)
Lemma targetStates_lookup (targetIds : list Z) (b : bool) (w : WatchStream) :
  (_targetStatesForTargetIds targetIds b w).2 = w ∧
  ((∀ id, id ∈ targetIds → is_Some (map_get id (_targets w))) →
   (_targetStatesForTargetIds targetIds b w).1 =
     Ok (if bool_decide (targetIds = []) && b
         then map_values (_targets w) else named targetIds w)) ∧
  (∀ id, id ∈ targetIds → map_get id (_targets w) = None →
   throws WatchError (_targetStatesForTargetIds targetIds b w).1).
Proof.
  destruct (arrayFrom_lookup targetIds w) as (H1 & H2 & H3).
  unfold _targetStatesForTargetIds. rewrite bind_eq.
  destruct (arrayFrom targetIds _ w) as [[ys|e] s2] eqn:Harr;
    cbn [fst snd] in *; subst s2; clear Harr.
  - assert (∀ id, id ∈ targetIds → is_Some (map_get id (_targets w))) as Hall.
    { intros id Hid. destruct (map_get id (_targets w)) eqn:Hg; [done|].
      by destruct (H3 id Hid). }
    specialize (H2 Hall). injection H2 as ->.
    pose proof (named_length targetIds w Hall) as Hlen.
    assert (∀ id, id ∈ targetIds → map_get id (_targets w) = None → False)
      as Hno by (intros id Hid Hnone; destruct (Hall id Hid); congruence).
    clear H3. revert Hlen. generalize (named targetIds w). intros ns Hlen.
    destruct targetIds as [|x xs], ns as [|l ls]; try done;
      destruct b; unfold_monad; repeat split; try done;
      try (intros id Hid Hnone; by destruct (Hno id Hid)).
  - repeat split; [|done]. intros Hall. by specialize (H2 Hall).
Qed.

(** ** Well-formed controllers *)

Lemma wf_lookup (w : WatchStream) (id : Z) (l : loc) :
  wf w → map_get id (_targets w) = Some l →
  (l < length (heap w))%nat ∧ targetId (deref w l) = id ∧
  id < _nextTargetId w.
Proof.
  intros [_ Hall] Hget. apply map_get_Some_elem in Hget.
  rewrite Forall_forall in Hall. destruct (Hall _ Hget) as [Ht Hlt].
  simpl in *. destruct (heap w !! l) as [t|] eqn:Hl; [|done].
  split; [by eapply lookup_lt_Some|]. split; [|done].
  unfold deref. rewrite (list_lookup_total_correct _ _ _ Hl).
  by injection Ht.
Qed.

Lemma wf_inj (w : WatchStream) (id1 id2 : Z) (l : loc) :
  wf w → map_get id1 (_targets w) = Some l →
  map_get id2 (_targets w) = Some l → id1 = id2.
Proof.
  intros Hwf H1 H2.
  destruct (wf_lookup w id1 l Hwf H1) as (_ & <- & _).
  by destruct (wf_lookup w id2 l Hwf H2) as (_ & <- & _).
Qed.

Lemma elem_of_values (w : WatchStream) (l : loc) :
  wf w →
  l ∈ map_values (_targets w) ↔ ∃ id, map_get id (_targets w) = Some l.
Proof.
  intros [Hnd _]. unfold map_values. rewrite list_elem_of_fmap. split.
  - intros ([id l'] & -> & Hin). exists id. by apply map_get_elem_NoDup.
  - intros [id Hget]. exists (id, l). split; [done|].
    by apply map_get_Some_elem.
Qed.

Lemma wf_values_NoDup (w : WatchStream) :
  wf w → NoDup (map_values (_targets w)).
Proof.
  intros Hwf. pose proof Hwf as [Hnd Hall]. unfold map_values, map_keys in *.
  assert (∀ e1 e2, e1 ∈ _targets w → e2 ∈ _targets w → e1.2 = e2.2 → e1 = e2)
    as Hinj.
  { intros [k1 l1] [k2 l2] H1 H2 Heq. simpl in Heq. subst l2.
    apply map_get_elem_NoDup in H1, H2; try done.
    by rewrite (wf_inj w k1 k2 l1). }
  revert Hnd Hinj. clear. induction (_targets w) as [|e m IH]; simpl.
  - intros _ _. constructor.
  - rewrite NoDup_cons. intros [Hk Hnd] Hinj. apply NoDup_cons. split.
    + rewrite list_elem_of_fmap. intros (e' & Heq & Hin).
      assert (e = e') as <-.
      { apply Hinj; [by left | by right | done]. }
      apply Hk. by apply list_elem_of_fmap_2.
    + apply IH; [done|]. intros e1 e2 H1 H2. apply Hinj; by right.
Qed.

Lemma elem_of_named (targetIds : list Z) (w : WatchStream) (l : loc) :
  l ∈ named targetIds w ↔
  ∃ id, id ∈ targetIds ∧ map_get id (_targets w) = Some l.
Proof. unfold named. apply list_elem_of_omap. Qed.

Lemma count_occ_named (targetIds : list Z) (w : WatchStream) (id : Z)
    (l : loc) :
  wf w → map_get id (_targets w) = Some l →
  count_occ Nat.eq_dec (named targetIds w) l =
  count_occ Z.eq_dec targetIds id.
Proof.
  intros Hwf Hget. unfold named.
  induction targetIds as [|x xs IH]; [done|]. simpl.
  destruct (map_get x (_targets w)) as [lx|] eqn:Hx; simpl.
  - destruct (Nat.eq_dec lx l) as [Hl|Hl], (Z.eq_dec x id) as [Hid|Hid].
    + by f_equal.
    + subst lx. exfalso. apply Hid. by eapply wf_inj.
    + subst x. congruence.
    + done.
  - destruct (Z.eq_dec x id) as [Hid|Hid]; [subst x; congruence | done].
Qed.

Lemma count_occ_NoDup {A} (dec : ∀ x y : A, {x = y} + {x ≠ y})
    (l : list A) (x : A) :
  NoDup l → x ∈ l → count_occ dec l x = 1%nat.
Proof.
  induction 1 as [|y l Hy Hnd IH]; [by intros ?%elem_of_nil|].
  intros [->|Hin]%elem_of_cons.
  - rewrite count_occ_cons_eq by done. f_equal.
    apply count_occ_not_In. by rewrite <- list_elem_of_In.
  - rewrite count_occ_cons_neq; [by apply IH|]. by intros ->.
Qed.

(** ** The dispatch of target changes *)

Lemma machine_transition_targetId (tc : TargetChange) (t : TargetState) :
  targetId (machine_transition tc t).2 = targetId t.
Proof.
  unfold machine_transition. destruct (cause tc) as [err|].
  { apply onError_targetId. }
  cbv zeta. set (type := targetChangeType tc ?? "NO_CHANGE").
  destruct (String.eqb type "ADD"); [apply onAdded_targetId|].
  destruct (String.eqb type "REMOVE"); [apply onRemoved_targetId|].
  destruct (String.eqb type "CURRENT"); [apply onCurrent_targetId|].
  destruct (String.eqb type "RESET"); [apply onReset_targetId|].
  destruct (String.eqb type "NO_CHANGE"); [apply onNoChange_targetId|done].
Qed.

Lemma onTargetChange_body_acts_as (tc : TargetChange) :
  acts_as (onTargetChange_body tc) (machine_transition tc).
Proof.
  intros l w. unfold onTargetChange_body, machine_transition.
  destruct (cause tc) as [err|].
  { apply (call_acts_as (onError err)), (onError_targetId err). }
  cbv zeta. set (type := targetChangeType tc ?? "NO_CHANGE").
  destruct (String.eqb type "ADD"); [|destruct (String.eqb type "REMOVE");
    [|destruct (String.eqb type "CURRENT"); [|destruct (String.eqb type "RESET");
    [|destruct (String.eqb type "NO_CHANGE")]]]].
  - apply (call_acts_as onAdded), onAdded_targetId.
  - rewrite bind_eq.
    destruct (call_acts_as onRemoved onRemoved_targetId l w)
      as (Hr & Hh & Hfr).
    destruct (call l onRemoved w) as [[[]|e] w1]; simpl in *; [|done].
    split; [done|]. split; [done|].
    eapply frame_trans; [done|]. repeat split; simpl; try done.
    apply map_delete_sublist.
  - apply (call_acts_as onCurrent), onCurrent_targetId.
  - apply (call_acts_as onReset), onReset_targetId.
  - apply (call_acts_as (onNoChange _)), (onNoChange_targetId _).
  - simpl. split; [done|]. split; [|apply frame_refl].
    symmetry. apply insert_deref_id.
Qed.

Lemma onTargetChange_eq (tc : TargetChange) (w : WatchStream) :
  _onTargetChange tc w =
  match (_targetStatesForTargetIds (tc_targetIds tc ?? []) true w).1 with
  | Ok targetStates => forOf targetStates (onTargetChange_body tc) w
  | Throw e => (Throw e, w)
  end.
Proof.
  unfold _onTargetChange. rewrite bind_eq.
  destruct (targetStates_lookup (tc_targetIds tc ?? []) true w) as (Hs & _).
  destruct (_targetStatesForTargetIds _ true w) as [[ts|e] w1];
    simpl in *; by subst.
Qed.

(** C4: a target change with an empty list of ids is dispatched to every
    registered machine: the call returns exactly when every registered
    machine accepts the transition, and then each has made it.  With a
    non-empty list of registered ids a machine that is not named is left
    as it was, whatever the outcome, and when the call returns a named
    machine has made the transition once per occurrence of its id; for
    distinct ids the call returns exactly when every named machine accepts.
    An id that is not registered throws [WatchError] before anything is
    dispatched. *)
Theorem onTargetChange_dispatch (tc : TargetChange) (w : WatchStream) :
  wf w →
  let targetIds := tc_targetIds tc ?? [] in
  let r := _onTargetChange tc w in
  let f := machine_transition tc in
  (targetIds = [] →
   (r.1 = Ok tt ↔
    ∀ id l, map_get id (_targets w) = Some l → (f (deref w l)).1 = Ok tt) ∧
   (r.1 = Ok tt →
    ∀ id l, map_get id (_targets w) = Some l →
            deref r.2 l = (f (deref w l)).2)) ∧
  (targetIds ≠ [] →
   (∀ id, id ∈ targetIds → is_Some (map_get id (_targets w))) →
   (∀ id l, map_get id (_targets w) = Some l → id ∉ targetIds →
            deref r.2 l = deref w l) ∧
   (r.1 = Ok tt →
    ∀ id l, map_get id (_targets w) = Some l →
            deref r.2 l =
            Nat.iter (count_occ Z.eq_dec targetIds id)
              (fun t => (f t).2) (deref w l)) ∧
   (NoDup targetIds →
    (r.1 = Ok tt ↔
     ∀ id l, id ∈ targetIds → map_get id (_targets w) = Some l →
             (f (deref w l)).1 = Ok tt))) ∧
  (∀ id, id ∈ targetIds → map_get id (_targets w) = None →
         throws WatchError r.1 ∧ r.2 = w).
Proof.
  intros Hwf targetIds r f. subst r. rewrite onTargetChange_eq.
  fold targetIds.
  destruct (targetStates_lookup targetIds true w) as (_ & Hok & Hthrow).
  pose proof (onTargetChange_body_acts_as tc) as Hbody. fold f in Hbody.
  split; [|split].
  - intros Hnil. rewrite Hok by (rewrite Hnil; by intros id ?%elem_of_nil).
    rewrite Hnil. simpl.
    pose proof (wf_values_NoDup w Hwf) as Hnd. split.
    + rewrite (forOf_ok_iff _ f Hbody) by done. split.
      * intros H id l Hget. apply H, elem_of_values; eauto.
      * intros H l [id Hget]%elem_of_values; eauto.
    + intros Hres id l Hget.
      rewrite (forOf_effect _ f Hbody); [|intros x [idx Hx]%elem_of_values|];
        try done.
      * rewrite count_occ_NoDup; [done..|]. apply elem_of_values; eauto.
      * by destruct (wf_lookup w idx x Hwf Hx).
  - intros Hne Hall. rewrite (Hok Hall).
    rewrite bool_decide_eq_false_2 by done. simpl.
    assert (∀ x, x ∈ named targetIds w → (x < length (heap w))%nat) as Hvalid.
    { intros x (idx & _ & Hx)%elem_of_named.
      by destruct (wf_lookup w idx x Hwf Hx). }
    split; [|split].
    + intros id l Hget Hnot. apply (forOf_untouched _ f Hbody).
      intros (id' & Hin & Hget')%elem_of_named.
      by rewrite (wf_inj w id id' l Hwf Hget Hget') in Hnot.
    + intros Hres id l Hget. rewrite (forOf_effect _ f Hbody) by done.
      by rewrite (count_occ_named targetIds w id l).
    + intros Hnd. rewrite (forOf_ok_iff _ f Hbody).
      * split.
        -- intros H id l Hin Hget. apply H, elem_of_named; eauto.
        -- intros H l (id & Hin & Hget)%elem_of_named; eauto.
      * unfold named. clear -Hnd Hwf. induction Hnd as [|x xs Hx Hnd IH]; simpl.
        { constructor. }
        destruct (map_get x (_targets w)) as [lx|] eqn:Hget; [|done]. simpl.
        apply NoDup_cons. split; [|done].
        intros (id' & Hin & Hget')%list_elem_of_omap.
        by rewrite (wf_inj w x id' lx Hwf Hget Hget') in Hx.
  - intros id Hin Hnone. specialize (Hthrow id Hin Hnone).
    by destruct (_targetStatesForTargetIds targetIds true w).1.
Qed.

(** ** The dispatch of document changes *)

Lemma forOf_call_targets (m : M TargetState unit) (locs : list loc)
    (w : WatchStream) :
  _targets (forOf locs (fun l => call l m) w).2 = _targets w.
Proof.
  revert w. induction locs as [|x xs IH]; intros w; [done|].
  rewrite forOf_cons.
  destruct (call x m w).1; [rewrite IH|]; by rewrite call_state.
Qed.

Lemma deref_out_of_range (w : WatchStream) (l : loc) :
  (length (heap w) ≤ l)%nat → _added (deref w l) = false.
Proof.
  intros Hl. unfold deref. rewrite list_lookup_total_alt.
  by rewrite (lookup_ge_None_2 _ _ Hl).
Qed.

Lemma onDocumentChanged_Added (documentName : string) (t : TargetState) :
  Added t →
  (onDocumentChanged documentName t).1 = Ok tt ∧
  Added (onDocumentChanged documentName t).2.
Proof.
  intros [Ha Hr]. unfold onDocumentChanged. unfold_monad.
  by rewrite Ha, Hr.
Qed.

Lemma onDocumentRemoved_Added (documentName : string) (t : TargetState) :
  Added t →
  (onDocumentRemoved documentName t).1 = Ok tt ∧
  Added (onDocumentRemoved documentName t).2.
Proof.
  intros [Ha Hr]. unfold onDocumentRemoved. unfold_monad.
  by rewrite Ha, Hr.
Qed.

Lemma onDocumentRemoved_absent (documentName : string) (t : TargetState) :
  (onDocumentRemoved documentName t).1 = Ok tt →
  _added t = true ∧
  documentName ∉ _accumulatedDocumentNames (onDocumentRemoved documentName t).2.
Proof.
  unfold onDocumentRemoved. unfold_monad.
  destruct (_added t), (_removed t); simpl; try done.
  intros _. split; [done|]. set_solver.
Qed.

(** When the loop of removals returns, the document is in the set of none
    of the machines it visited. *)
Lemma forOf_removed_absent (documentName : string) (locs : list loc)
    (w : WatchStream) (l : loc) :
  (forOf locs (fun l => call l (onDocumentRemoved documentName)) w).1 = Ok tt →
  l ∈ locs →
  documentName ∉ _accumulatedDocumentNames
    (deref (forOf locs (fun l => call l (onDocumentRemoved documentName)) w).2
       l).
Proof.
  pose proof (call_acts_as (onDocumentRemoved documentName)
                (onDocumentRemoved_targetId documentName)) as Hbody.
  revert w. induction locs as [|x xs IH]; intros w; [by intros _ ?%elem_of_nil|].
  rewrite forOf_cons. destruct (call x _ w).1 as [[]|e] eqn:Hres; [|done].
  intros Hok Hl. destruct (decide (l ∈ xs)) as [Hin|Hnot]; [by apply IH|].
  apply elem_of_cons in Hl as [->|?]; [|done].
  rewrite (forOf_untouched _ _ Hbody) by done.
  rewrite call_result in Hres.
  apply onDocumentRemoved_absent in Hres as [Hadded Habs].
  rewrite (body_deref_eq _ _ Hbody); [done|].
  apply Nat.nle_gt. intros Hge. apply deref_out_of_range in Hge. congruence.
Qed.

Lemma onDocumentChange_eq (dc : DocumentChange) (w : WatchStream) :
  _onDocumentChange dc w =
  match (_targetStatesForTargetIds (dc_targetIds dc ?? []) true w).1 with
  | Throw e => (Throw e, w)
  | Ok added =>
      let r1 :=
        forOf added
          (fun l => call l (onDocumentChanged (dc_document_name dc))) w in
      match r1.1 with
      | Throw e => (Throw e, r1.2)
      | Ok _ =>
          match (_targetStatesForTargetIds
                   (dc_removedTargetIds dc ?? []) false r1.2).1 with
          | Throw e => (Throw e, r1.2)
          | Ok removed =>
              forOf removed
                (fun l => call l (onDocumentRemoved (dc_document_name dc)))
                r1.2
          end
      end
  end.
Proof.
  unfold _onDocumentChange. rewrite !bind_eq.
  destruct (targetStates_lookup (dc_targetIds dc ?? []) true w) as (Hs & _).
  destruct (_targetStatesForTargetIds _ true w) as [[ts|e] w1];
    simpl in *; subst; [|done].
  destruct (forOf ts _ w) as [[[]|e] w1]; simpl; [|done].
  rewrite bind_eq.
  destruct (targetStates_lookup (dc_removedTargetIds dc ?? []) false w1)
    as (Hs & _).
  destruct (_targetStatesForTargetIds _ false w1) as [[ts'|e] w2];
    simpl in *; by subst.
Qed.

(** When the loop of additions returns, the document is in the set of
    every machine it visited. *)
Lemma onDocumentChanged_present (documentName : string) (t : TargetState) :
  (onDocumentChanged documentName t).1 = Ok tt →
  _added t = true ∧
  documentName ∈ _accumulatedDocumentNames (onDocumentChanged documentName t).2.
Proof.
  unfold onDocumentChanged. unfold_monad.
  destruct (_added t), (_removed t); simpl; try done.
  intros _. split; [done|]. set_solver.
Qed.

Lemma onDocumentChanged_keeps (documentName : string) (t : TargetState) :
  documentName ∈ _accumulatedDocumentNames t →
  documentName ∈ _accumulatedDocumentNames (onDocumentChanged documentName t).2.
Proof.
  unfold onDocumentChanged. unfold_monad.
  destruct (_added t), (_removed t); simpl; try done. set_solver.
Qed.

Lemma forOf_changed_present (documentName : string) (locs : list loc)
    (w : WatchStream) (l : loc) :
  (forOf locs (fun l => call l (onDocumentChanged documentName)) w).1 = Ok tt →
  l ∈ locs →
  documentName ∈ _accumulatedDocumentNames
    (deref (forOf locs (fun l => call l (onDocumentChanged documentName)) w).2
       l).
Proof.
  pose proof (call_acts_as (onDocumentChanged documentName)
                (onDocumentChanged_targetId documentName)) as Hbody.
  revert w. induction locs as [|x xs IH]; intros w; [by intros _ ?%elem_of_nil|].
  rewrite forOf_cons. destruct (call x _ w).1 as [[]|e] eqn:Hres; [|done].
  intros Hok Hl. destruct (decide (l ∈ xs)) as [Hin|Hnot]; [by apply IH|].
  apply elem_of_cons in Hl as [->|?]; [|done].
  rewrite (forOf_untouched _ _ Hbody) by done.
  rewrite call_result in Hres.
  apply onDocumentChanged_present in Hres as [Hadded Hpres].
  rewrite (body_deref_eq _ _ Hbody); [done|].
  apply Nat.nle_gt. intros Hge. apply deref_out_of_range in Hge. congruence.
Qed.

(** A loop over the machines of a list of ids: the lookup leaves the
    controller as it is, and throws before the loop is entered. *)
Lemma targets_loop_eq (m : M TargetState unit) (targetIds : list Z)
    (b : bool) (w : WatchStream) :
  (let! targetStates := _targetStatesForTargetIds targetIds b in
   forOf targetStates (fun targetState => call targetState m)) w =
  match (_targetStatesForTargetIds targetIds b w).1 with
  | Throw e => (Throw e, w)
  | Ok targetStates => forOf targetStates (fun l => call l m) w
  end.
Proof.
  rewrite bind_eq.
  destruct (targetStates_lookup targetIds b w) as (Hs & _).
  destruct (_targetStatesForTargetIds _ b w) as [[ts|e] w1];
    simpl in *; by subst.
Qed.

Lemma onDocumentChange_both_lists (dc : DocumentChange)
    (w : WatchStream) (id : Z) :
  id ∈ dc_targetIds dc ?? [] →
  id ∈ dc_removedTargetIds dc ?? [] →
  let r := _onDocumentChange dc w in
  (r.1 = Ok tt →
   ∃ l, map_get id (_targets w) = Some l ∧
        map_get id (_targets r.2) = Some l ∧
        dc_document_name dc ∉ _accumulatedDocumentNames (deref r.2 l)) ∧
  (wf w →
   (∀ id', id' ∈ dc_targetIds dc ?? [] ∨ id' ∈ dc_removedTargetIds dc ?? [] →
           ∃ l', map_get id' (_targets w) = Some l' ∧ Added (deref w l')) →
   r.1 = Ok tt).
Proof.
  intros Hadd Hrem r. subst r. rewrite onDocumentChange_eq.
  set (tids := dc_targetIds dc ?? []) in *.
  set (rids := dc_removedTargetIds dc ?? []) in *.
  set (name := dc_document_name dc).
  pose proof (call_acts_as (onDocumentChanged name)
                (onDocumentChanged_targetId name)) as HbodyC.
  pose proof (call_acts_as (onDocumentRemoved name)
                (onDocumentRemoved_targetId name)) as HbodyR.
  split.
  - destruct (_targetStatesForTargetIds tids true w).1 as [added|e]; [|done].
    cbv zeta.
    pose proof (forOf_call_targets (onDocumentChanged name) added w) as Htg.
    destruct (forOf added _ w) as [[[]|e] w1]; simpl in *; [|done].
    destruct (targetStates_lookup rids false w1) as (_ & Hok & Hthrow).
    destruct (_targetStatesForTargetIds rids false w1).1 as [removed|e] eqn:Hl;
      [|done].
    assert (∀ id', id' ∈ rids → is_Some (map_get id' (_targets w1))) as Hall.
    { intros id' Hin. destruct (map_get id' (_targets w1)) eqn:Hg; [done|].
      by destruct (Hthrow id' Hin). }
    specialize (Hok Hall). rewrite andb_false_r in Hok. injection Hok as ->.
    destruct (Hall id Hrem) as [l Hget]. intros Hres. exists l.
    rewrite forOf_call_targets. rewrite <- Htg. repeat split; try done.
    apply forOf_removed_absent; [done|]. apply elem_of_named; eauto.
  - intros Hwf Hall.
    destruct (targetStates_lookup tids true w) as (_ & Hok & _).
    rewrite Hok by (intros id' Hin; destruct (Hall id') as (l' & -> & _); eauto).
    rewrite bool_decide_eq_false_2 by (intros Hnil; rewrite Hnil in Hadd;
                                         by apply elem_of_nil in Hadd).
    cbv zeta. simpl.
    assert (∀ ids, (∀ id', id' ∈ ids → id' ∈ tids ∨ id' ∈ rids) →
            ∀ l, l ∈ named ids w →
                 (l < length (heap w))%nat ∧ Added (deref w l)) as Hnamed.
    { intros ids Hsub l (id' & Hin & Hget)%elem_of_named.
      destruct (Hall id' (Hsub id' Hin)) as (l' & Hget' & HA).
      assert (l' = l) as -> by congruence.
      split; [|done]. by destruct (wf_lookup w id' l Hwf Hget). }
    destruct (forOf_accepting _ _ HbodyC Added (named tids w) w) as [Hres Hinv].
    { apply onDocumentChanged_Added. }
    { apply Hnamed. by left. }
    pose proof (forOf_call_targets (onDocumentChanged name) (named tids w) w)
      as Htg.
    pose proof (forOf_length _ _ HbodyC (named tids w) w) as Hlen.
    destruct (forOf (named tids w) _ w) as [r1 w1]; simpl in *. subst r1.
    destruct (targetStates_lookup rids false w1) as (_ & Hok' & _).
    rewrite Hok'
      by (intros id' Hin; rewrite Htg; destruct (Hall id') as (l' & -> & _);
          eauto).
    rewrite andb_false_r.
    apply (forOf_accepting _ _ HbodyR Added).
    { apply onDocumentRemoved_Added. }
    unfold named. rewrite Htg. fold (named rids w). intros l Hl.
    destruct (Hnamed rids (fun _ H => or_intror H) l Hl) as [Hv HA].
    rewrite Hlen. split; [done|]. by apply Hinv.
Qed.

(** C7: a document change is processed in two phases, the additions for
    [targetIds] and then the removals for [removedTargetIds].  When it
    names a target id in both lists and the processing returns, the
    additions have returned, and the machine registered under that id has
    the document in its accumulated set when they have; the removals run
    on the controller the additions leave, and after them the machine does
    not have the document.  The processing does return when the
    controller is well formed and every id of the two lists is registered
    to a machine in the Added state. *)
Theorem onDocumentChange_add_then_remove (dc : DocumentChange)
    (w : WatchStream) (id : Z) :
  id ∈ dc_targetIds dc ?? [] →
  id ∈ dc_removedTargetIds dc ?? [] →
  let additions :=
    let! targetStates :=
      _targetStatesForTargetIds (dc_targetIds dc ?? []) true in
    forOf targetStates (fun targetState =>
      call targetState (onDocumentChanged (dc_document_name dc))) in
  let removals :=
    let! targetStates :=
      _targetStatesForTargetIds (dc_removedTargetIds dc ?? []) false in
    forOf targetStates (fun targetState =>
      call targetState (onDocumentRemoved (dc_document_name dc))) in
  let r1 := additions w in
  let r := _onDocumentChange dc w in
  _onDocumentChange dc = (additions >> removals) ∧
  (r.1 = Ok tt →
   r1.1 = Ok tt ∧ r = removals r1.2 ∧
   ∃ l, map_get id (_targets w) = Some l ∧
        dc_document_name dc ∈ _accumulatedDocumentNames (deref r1.2 l) ∧
        map_get id (_targets r.2) = Some l ∧
        dc_document_name dc ∉ _accumulatedDocumentNames (deref r.2 l)) ∧
  (wf w →
   (∀ id', id' ∈ dc_targetIds dc ?? [] ∨ id' ∈ dc_removedTargetIds dc ?? [] →
           ∃ l', map_get id' (_targets w) = Some l' ∧ Added (deref w l')) →
   r.1 = Ok tt).
Proof.
  intros Hadd Hrem additions removals r1 r.
  destruct (onDocumentChange_both_lists dc w id Hadd Hrem) as [Habs Hret].
  split; [reflexivity|]. split; [|exact Hret].
  intros Hres. destruct (Habs Hres) as (l & Hget & Hget' & Hnot).
  assert (r = bind additions (fun _ => removals) w) as Hdef by reflexivity.
  rewrite bind_eq in Hdef. subst r1.
  destruct (additions w) as [[[]|e] w1] eqn:Hadds;
    [|rewrite Hdef in Hres; discriminate].
  split; [done|]. split; [done|]. exists l. split; [done|].
  split; [|by split]. simpl.
  unfold additions in Hadds. rewrite targets_loop_eq in Hadds.
  destruct (targetStates_lookup (dc_targetIds dc ?? []) true w)
    as (_ & Hok & Hthrow).
  destruct (_targetStatesForTargetIds (dc_targetIds dc ?? []) true w).1
    as [added|e] eqn:Hl; [|discriminate].
  assert (∀ id', id' ∈ dc_targetIds dc ?? [] →
                 is_Some (map_get id' (_targets w))) as Hall.
  { intros id' Hin. destruct (map_get id' (_targets w)) eqn:Hg; [done|].
    by destruct (Hthrow id' Hin). }
  specialize (Hok Hall).
  rewrite bool_decide_eq_false_2 in Hok
    by (intros Hnil; rewrite Hnil in Hadd; by apply elem_of_nil in Hadd).
  injection Hok as ->.
  pose proof (forOf_changed_present (dc_document_name dc)
                (named (dc_targetIds dc ?? []) w) w l) as Hp.
  rewrite Hadds in Hp. apply Hp; [done|]. apply elem_of_named. eauto.
Qed.

(** ** What an inbound message leaves alone *)

Lemma removal_loop_frame (documentName : string) (targetIds : list Z)
    (w : WatchStream) :
  frame w
    ((let! targetStates := _targetStatesForTargetIds targetIds false in
      forOf targetStates (fun targetState =>
        call targetState (onDocumentRemoved documentName))) w).2.
Proof.
  rewrite bind_eq.
  destruct (targetStates_lookup targetIds false w) as (Hs & _).
  destruct (_targetStatesForTargetIds _ false w) as [[ts|e] w1];
    simpl in *; subst; [|apply frame_refl].
  apply (forOf_frame _ _ (call_acts_as (onDocumentRemoved documentName)
           (onDocumentRemoved_targetId documentName))).
Qed.

Lemma onMessageReceived_frame (msg : ListenResponse) (w : WatchStream) :
  frame w (_onMessageReceived normalizeByteString msg w).2.
Proof.
  unfold _onMessageReceived.
  destruct (msg_targetChange msg) as [tc|].
  { rewrite onTargetChange_eq.
    destruct (_targetStatesForTargetIds _ true w).1; [|apply frame_refl].
    apply (forOf_frame _ _ (onTargetChange_body_acts_as tc)). }
  destruct (msg_documentChange msg) as [dc|].
  { rewrite onDocumentChange_eq.
    pose proof (call_acts_as (onDocumentChanged (dc_document_name dc))
      (onDocumentChanged_targetId (dc_document_name dc))) as HbodyC.
    pose proof (call_acts_as (onDocumentRemoved (dc_document_name dc))
      (onDocumentRemoved_targetId (dc_document_name dc))) as HbodyR.
    destruct (_targetStatesForTargetIds _ true w).1 as [added|e];
      [|apply frame_refl].
    cbv zeta. pose proof (forOf_frame _ _ HbodyC added w) as Hfr.
    destruct (forOf added _ w) as [[[]|e] w1]; simpl in *; [|done].
    destruct (_targetStatesForTargetIds _ false w1).1 as [removed|e]; [|done].
    eapply frame_trans; [done|]. apply (forOf_frame _ _ HbodyR). }
  destruct (msg_documentRemove msg) as [dr|].
  { apply removal_loop_frame. }
  destruct (msg_documentDelete msg) as [dd|].
  { apply removal_loop_frame. }
  destruct (msg_filter msg) as [ef|]; [|apply frame_refl].
  unfold _onExistenceFilter. unfold_monad.
  destruct (ef_targetId ef ≫= _) as [l|]; [|apply frame_refl].
  apply (call_acts_as _ (fire_targetId (EvExistenceFilter ef))).
Qed.

(** ** Well-formedness and its parts *)

Lemma wf_new (projectId : string) : wf (newWatchStream projectId).
Proof. split; simpl; constructor. Qed.

Lemma wf_frame (w w' : WatchStream) : wf w → frame w w' → wf w'.
Proof.
  intros [Hnd Hall] (_&_&_&_&Hnext&_&Hsub&Hheap). split.
  - eapply sublist_NoDup; [done|]. unfold map_keys. by apply fmap_sublist.
  - rewrite Forall_forall in *. intros e He.
    rewrite Hheap, Hnext. apply Hall. by eapply elem_of_sublist.
Qed.

Lemma wf_counter (w : WatchStream) (n : Z) :
  wf w → _nextTargetId w ≤ n → wf (set_nextTargetId n w).
Proof.
  intros [Hnd Hall] Hle. split; [done|]. simpl.
  eapply Forall_impl; [done|]. simpl. intros e [? ?]. split; [done | lia].
Qed.


Lemma wf_linked (w : WatchStream) : wf w → linked w.
Proof.
  intros [Hnd Hall]. split; [done|].
  eapply Forall_impl; [done|]. by intros e [? _].
Qed.

Lemma linked_lookup (w : WatchStream) (id : Z) (l : loc) :
  linked w → map_get id (_targets w) = Some l →
  (l < length (heap w))%nat ∧ targetId (deref w l) = id.
Proof.
  intros [_ Hall] Hget. apply map_get_Some_elem in Hget.
  rewrite Forall_forall in Hall. pose proof (Hall _ Hget) as Ht.
  simpl in *. destruct (heap w !! l) as [t|] eqn:Hl; [|done].
  split; [by eapply lookup_lt_Some|].
  unfold deref. rewrite (list_lookup_total_correct _ _ _ Hl).
  by injection Ht.
Qed.

Lemma linked_frame (w w' : WatchStream) : linked w → frame w w' → linked w'.
Proof.
  intros [Hnd Hall] (_&_&_&_&_&_&Hsub&Hheap). split.
  - eapply sublist_NoDup; [done|]. unfold map_keys. by apply fmap_sublist.
  - rewrite Forall_forall in *. intros e He.
    rewrite Hheap. apply Hall. by eapply elem_of_sublist.
Qed.

Lemma linked_allocated_wf (w : WatchStream) :
  linked w → allocated w → _nextTargetId w < 2 ^ 53 → wf w.
Proof.
  intros [Hnd Hall] [_ Hids] Hlt. split; [done|].
  rewrite Forall_forall in *. intros e He. split; [by apply Hall|].
  by apply (Hids e He).
Qed.

(** ** The increment of the counter *)

Lemma number_inc_exact (n : Z) :
  - 2 ^ 53 ≤ n < 2 ^ 53 → number_inc n = n + 1.
Proof.
  intros [Hlo Hhi]. unfold number_inc.
  destruct (Z.leb_spec (- 2 ^ 53) n); [|lia].
  destruct (Z.ltb_spec n (2 ^ 53)); [done | lia].
Qed.

Lemma number_inc_absorbed : number_inc (2 ^ 53) = 2 ^ 53.
Proof. reflexivity. Qed.

Lemma number_inc_ge (n : Z) : n ≤ number_inc n.
Proof. unfold number_inc. repeat case_match; lia. Qed.

Lemma number_inc_range (n : Z) :
  1 ≤ n ≤ 2 ^ 53 →
  1 ≤ number_inc n ≤ 2 ^ 53 ∧ (number_inc n < 2 ^ 53 → n < number_inc n).
Proof.
  intros [Hlo Hhi]. destruct (decide (n = 2 ^ 53)) as [->|Hne].
  - rewrite number_inc_absorbed. lia.
  - rewrite number_inc_exact by lia. lia.
Qed.

(** ** The public interface *)

Ltac unfold_api :=
  unfold open, close, addTarget, removeTarget, getInitialSnapshot,
    getExistenceFilter, stream_onOpen, stream_onClose, sendListenRequest,
    alloc in *;
  unfold_monad.

Lemma addTarget_fail (targetInfo : WatchStreamAddTargetInfo) (w : WatchStream) :
  _stream w = None ∨ _closed w = true →
  throws WatchError (addTarget targetInfo w).1 ∧
  (addTarget targetInfo w).2 =
    set_nextTargetId (number_inc (_nextTargetId w)) w.
Proof.
  unfold_api. destruct (_stream w) as [stream|], (_closed w); simpl;
    intros [?|?]; done.
Qed.

Lemma addTarget_ok (targetInfo : WatchStreamAddTargetInfo) (w : WatchStream) :
  is_Some (_stream w) → _closed w = false →
  let w' := (addTarget targetInfo w).2 in
  (addTarget targetInfo w).1 =
    Ok (AddTargetPromise (_nextTargetId w) (length (heap w))) ∧
  _nextTargetId w' = number_inc (_nextTargetId w) ∧
  _targets w' = map_set (_nextTargetId w) (length (heap w)) (_targets w) ∧
  heap w' =
    (heap w ++ [newTargetState (_nextTargetId w)
                  ((fun r => documentPaths (resume_from r))
                     <$> resume targetInfo)])%list ∧
  _closed w' = false ∧ is_Some (_stream w').
Proof.
  intros [stream Hs] Hc. destruct w; simpl in *; subst.
  unfold_api. repeat split; eauto.
Qed.

Lemma addTarget_returns (targetInfo : WatchStreamAddTargetInfo)
    (w : WatchStream) (p : Promise) :
  (addTarget targetInfo w).1 = Ok p →
  is_Some (_stream w) ∧ _closed w = false.
Proof.
  unfold_api. destruct (_stream w) as [stream|], (_closed w); simpl;
    by eauto.
Qed.

Lemma linked_addTarget (targetInfo : WatchStreamAddTargetInfo)
    (w : WatchStream) :
  linked w → linked (addTarget targetInfo w).2.
Proof.
  intros Hl.
  destruct (_stream w) as [stream|] eqn:Hs, (_closed w) eqn:Hc;
    try (by destruct (addTarget_fail targetInfo w) as [_ ->]; [auto|]).
  destruct (addTarget_ok targetInfo w) as (_ & _ & Ht & Hh & _); [by eauto..|].
  destruct Hl as [Hnd Hall]. split.
  - rewrite Ht. by apply map_set_NoDup.
  - rewrite Ht, Hh. rewrite Forall_forall in *.
    intros e [->|He]%map_set_elem; simpl.
    + by rewrite list_lookup_middle.
    + specialize (Hall e He). simpl in Hall.
      destruct (heap w !! e.2) as [t|] eqn:Hl; [|done].
      by rewrite (lookup_app_l_Some _ _ _ _ Hl).
Qed.

Lemma allocated_addTarget (targetInfo : WatchStreamAddTargetInfo)
    (w : WatchStream) :
  allocated w → allocated (addTarget targetInfo w).2.
Proof.
  intros [Hc Hall]. destruct (number_inc_range _ Hc) as [Hc' Hlt].
  pose proof (number_inc_ge (_nextTargetId w)) as Hge.
  assert (Forall (fun e => 1 ≤ e.1 ≤ number_inc (_nextTargetId w) ∧
                   (number_inc (_nextTargetId w) < 2 ^ 53 →
                    e.1 < number_inc (_nextTargetId w))) (_targets w))
    as Hold.
  { eapply Forall_impl; [done|]. simpl. intros e [? ?]. lia. }
  destruct (_stream w) as [stream|] eqn:Hs, (_closed w) eqn:Hcl;
    try (by destruct (addTarget_fail targetInfo w) as [_ ->]; [auto|]).
  destruct (addTarget_ok targetInfo w) as (_ & Hn & Ht & _); [by eauto..|].
  split; rewrite Hn; [done|]. rewrite Ht. rewrite Forall_forall in *.
  intros e [->|He]%map_set_elem; [simpl; lia | by apply Hold].
Qed.

Lemma exec_app (ops1 ops2 : list Op) (w : WatchStream) :
  exec (ops1 ++ ops2) w = exec ops2 (exec ops1 w).
Proof.
  revert w. induction ops1 as [|op ops1 IH]; intros w; [done|].
  rewrite <- app_comm_cons, !exec_cons. apply IH.
Qed.

(** The operations that touch neither the registry, nor the machines, nor
    the counter. *)
Lemma step_registry (op : Op) (w : WatchStream) :
  match op with
  | AddTarget _ | Message _ => True
  | _ =>
      _targets (step op w).2 = _targets w ∧ heap (step op w).2 = heap w ∧
      _nextTargetId (step op w).2 = _nextTargetId w
  end.
Proof.
  rewrite step_state. destruct op as [| |i|h|h|h| |err|msg]; try done;
    destruct w; unfold_api; repeat case_match; by simplify_eq/=.
Qed.

Lemma linked_step (op : Op) (w : WatchStream) :
  linked w → linked (step op w).2.
Proof.
  intros Hl. pose proof (step_registry op w) as Hreg.
  destruct op as [| |i|h|h|h| |err|msg];
    try (destruct Hreg as (Ht & Hh & Hn); destruct Hl as [Hnd Hall];
         split; rewrite ?Ht, ?Hh; done).
  - rewrite step_state. by apply linked_addTarget.
  - rewrite step_state. eapply linked_frame; [done|].
    apply onMessageReceived_frame.
Qed.

Lemma allocated_step (op : Op) (w : WatchStream) :
  allocated w → allocated (step op w).2.
Proof.
  intros Ha. pose proof (step_registry op w) as Hreg.
  destruct op as [| |i|h|h|h| |err|msg];
    try (destruct Hreg as (Ht & Hh & Hn); destruct Ha as [Hc Hall];
         split; rewrite ?Ht, ?Hn; done).
  - rewrite step_state. by apply allocated_addTarget.
  - rewrite step_state.
    destruct (onMessageReceived_frame msg w) as (_&_&_&_&Hn&_&Hsub&_).
    destruct Ha as [Hc Hall]. split; rewrite Hn; [done|].
    rewrite Forall_forall in *. intros e He. apply Hall.
    by eapply elem_of_sublist.
Qed.

(** What every controller reached from a new one satisfies. *)
Lemma linked_exec (ops : list Op) (w : WatchStream) :
  linked w → linked (exec ops w).
Proof.
  revert w. induction ops as [|op ops IH]; intros w Hl; [done|].
  rewrite exec_cons. by apply IH, linked_step.
Qed.

Lemma allocated_exec (ops : list Op) (w : WatchStream) :
  allocated w → allocated (exec ops w).
Proof.
  revert w. induction ops as [|op ops IH]; intros w Ha; [done|].
  rewrite exec_cons. by apply IH, allocated_step.
Qed.

Lemma allocated_new (projectId : string) :
  allocated (newWatchStream projectId).
Proof. split; [done | constructor]. Qed.

(** ** The lifecycle of the stream *)

Lemma step_lifecycle (op : Op) (w : WatchStream) :
  let w' := (step op w).2 in
  (_closed w = true → _closed w' = true) ∧
  (is_Some (_stream w) → is_Some (_stream w')) ∧
  (op = Close → _closed w' = true) ∧
  (op = Open → is_Some (_stream w') ∨ _closed w' = true) ∧
  (op ≠ Open → _stream w = None → _stream w' = None).
Proof.
  cbv zeta. rewrite step_state.
  destruct op as [| |i|h|h|h| |err|msg].
  3: { destruct (_stream w) as [stream|] eqn:Hs, (_closed w) eqn:Hc;
         try (destruct (addTarget_fail i w) as [_ ->]; [by auto|];
              simpl; rewrite Hs, Hc; repeat split; by eauto).
       destruct (addTarget_ok i w) as (_ & _ & _ & _ & Hc' & Hs');
         [by eauto..|].
       rewrite Hc'. repeat split; by eauto. }
  8: { destruct (onMessageReceived_frame msg w) as (_&Hs&Hc&_).
       rewrite Hs, Hc. repeat split; try done. }
  all: destruct w as [? [stream|] [] ? ? ? ? ?]; unfold_api;
    repeat case_match; simplify_eq/=; repeat split; by eauto.
Qed.

Lemma exec_closed (ops : list Op) (w : WatchStream) :
  _closed w = true ∨ Close ∈ ops → _closed (exec ops w) = true.
Proof.
  revert w. induction ops as [|op ops IH]; intros w.
  - intros [?|?%elem_of_nil]; done.
  - rewrite exec_cons. destruct (step_lifecycle op w) as (Hc & _ & Hcl & _).
    intros [?|[<-|?]%elem_of_cons]; apply IH; auto.
Qed.

Lemma exec_opened (ops : list Op) (w : WatchStream) :
  is_Some (_stream w) ∨ _closed w = true ∨ Open ∈ ops →
  is_Some (_stream (exec ops w)) ∨ _closed (exec ops w) = true.
Proof.
  revert w. induction ops as [|op ops IH]; intros w.
  - intros [?|[?|?%elem_of_nil]]; auto; done.
  - rewrite exec_cons.
    destruct (step_lifecycle op w) as (Hc & Hs & _ & Hop & _).
    intros [?|[?|[<-|?]%elem_of_cons]]; apply IH; auto.
    destruct Hop; auto.
Qed.

Lemma exec_never_opened (ops : list Op) (w : WatchStream) :
  Open ∉ ops → _stream w = None → _stream (exec ops w) = None.
Proof.
  revert w. induction ops as [|op ops IH]; intros w; [done|].
  rewrite exec_cons. intros [Hne Hnot]%not_elem_of_cons Hs.
  destruct (step_lifecycle op w) as (_ & _ & _ & _ & Hkeep).
  apply IH; [done|]. apply Hkeep; [congruence | done].
Qed.

Lemma open_throws (w : WatchStream) :
  is_Some (_stream w) ∨ _closed w = true → throws WatchError (open w).1.
Proof.
  unfold_api. destruct (_stream w) as [stream|], (_closed w); simpl;
    intros [[? ?]|?]; done.
Qed.

Lemma removeTarget_throws (h : TargetHandle) (w : WatchStream) :
  _stream w = None ∨ _closed w = true ∨
  map_get (handle_targetId h) (_targets w) = None →
  throws WatchError (removeTarget h w).1 ∧ (removeTarget h w).2 = w.
Proof.
  unfold_api. destruct (_stream w) as [stream|], (_closed w); simpl;
    intros [?|[?|Hg]]; try done.
  by rewrite Hg.
Qed.

(** C9: in a controller that was created and then went through any
    sequence of calls and transport events, [open()] throws [WatchError]
    when [open()] or [close()] was called before, and [addTarget] and
    [removeTarget] throw [WatchError] when [open()] was never called or
    [close()] was called. *)
Theorem lifecycle_preconditions (projectId : string) (ops : list Op) :
  let w := exec ops (newWatchStream projectId) in
  (Open ∈ ops ∨ Close ∈ ops → throws WatchError (open w).1) ∧
  (Open ∉ ops ∨ Close ∈ ops →
   ∀ targetInfo, throws WatchError (addTarget targetInfo w).1) ∧
  (Open ∉ ops ∨ Close ∈ ops →
   ∀ targetHandle, throws WatchError (removeTarget targetHandle w).1).
Proof.
  cbv zeta.
  assert (Open ∉ ops ∨ Close ∈ ops →
          _stream (exec ops (newWatchStream projectId)) = None ∨
          _closed (exec ops (newWatchStream projectId)) = true) as Hpre.
  { intros [Hno|Hcl]; [left; by apply exec_never_opened|].
    right. apply exec_closed. by right. }
  repeat split.
  - intros [Hop|Hcl]; apply open_throws.
    + apply exec_opened. auto.
    + right. apply exec_closed. by right.
  - intros H targetInfo. by apply addTarget_fail, Hpre.
  - intros H targetHandle. apply removeTarget_throws.
    destruct (Hpre H); auto.
Qed.

(** ** The counter of target ids *)

Lemma step_counter (op : Op) (w : WatchStream) :
  _nextTargetId w ≤ _nextTargetId (step op w).2.
Proof.
  pose proof (step_registry op w) as Hreg.
  pose proof (number_inc_ge (_nextTargetId w)) as Hinc.
  destruct op as [| |i|h|h|h| |err|msg];
    try (destruct Hreg as (_ & _ & ->); lia).
  - rewrite step_state.
    destruct (_stream w) as [stream|] eqn:Hs, (_closed w) eqn:Hc;
      try (by destruct (addTarget_fail i w) as [_ ->]; [auto|]).
    by destruct (addTarget_ok i w) as (_ & -> & _); [eauto..|].
  - rewrite step_state.
    destruct (onMessageReceived_frame msg w) as (_&_&_&_&->&_). lia.
Qed.

Lemma exec_counter (ops : list Op) (w : WatchStream) :
  _nextTargetId w ≤ _nextTargetId (exec ops w).
Proof.
  revert w. induction ops as [|op ops IH]; intros w; [done|].
  rewrite exec_cons. pose proof (step_counter op w).
  pose proof (IH (step op w).2). lia.
Qed.

(** A step moves the counter by one at most, while it has not gone past
    [2^53]. *)
Lemma step_counter_le (op : Op) (w : WatchStream) :
  allocated w → _nextTargetId (step op w).2 ≤ _nextTargetId w + 1.
Proof.
  intros [Hc _]. pose proof (step_registry op w) as Hreg.
  assert (number_inc (_nextTargetId w) ≤ _nextTargetId w + 1) as Hinc.
  { destruct (decide (_nextTargetId w = 2 ^ 53)) as [->|Hne].
    - rewrite number_inc_absorbed. lia.
    - rewrite number_inc_exact; lia. }
  destruct op as [| |i|h|h|h| |err|msg];
    try (destruct Hreg as (_ & _ & ->); lia).
  - rewrite step_state.
    destruct (_stream w) as [stream|] eqn:Hs, (_closed w) eqn:Hcl;
      try (by destruct (addTarget_fail i w) as [_ ->]; [auto|]).
    by destruct (addTarget_ok i w) as (_ & -> & _); [eauto..|].
  - rewrite step_state.
    destruct (onMessageReceived_frame msg w) as (_&_&_&_&->&_). lia.
Qed.

Lemma exec_counter_le (ops : list Op) (w : WatchStream) :
  allocated w →
  _nextTargetId (exec ops w) ≤ _nextTargetId w + Z.of_nat (length ops).
Proof.
  revert w. induction ops as [|op ops IH]; intros w Ha.
  { change (exec [] w) with w. simpl. lia. }
  rewrite exec_cons. pose proof (step_counter_le op w Ha).
  pose proof (IH (step op w).2 (allocated_step op w Ha)).
  rewrite length_cons. lia.
Qed.

(** Only [addTarget] returns the promise of a handle; the id is the value
    of the counter at the call, and the counter is incremented. *)
Lemma step_returns_handle (op : Op) (w : WatchStream) (id : Z) (l : loc) :
  (step op w).1 = Returned (AddTargetPromise id l) →
  id = _nextTargetId w ∧ _nextTargetId (step op w).2 = number_inc id.
Proof.
  rewrite step_result, step_state.
  destruct op as [| |i|h|h|h| |err|msg];
    try (destruct w; unfold_api; repeat case_match; by simplify_eq/=).
  - destruct (addTarget i w).1 as [p|e] eqn:Hres; simpl; [|done].
    apply addTarget_returns in Hres as Hpre. destruct Hpre as [Hs Hc].
    destruct (addTarget_ok i w Hs Hc) as (Hr & Hn & _).
    intros [= ->]. rewrite Hr in Hres. injection Hres as <- _. done.
  - by destruct (_onMessageReceived _ msg w).1.
Qed.

(** The ids handed out in a run never decrease. *)
Lemma run_ids (ops : list Op) (w : WatchStream) :
  Forall (fun id => _nextTargetId w ≤ id) (addTarget_ids (run ops w).1) ∧
  StronglySorted Z.le (addTarget_ids (run ops w).1).
Proof.
  revert w. induction ops as [|op ops IH]; intros w.
  - split; constructor.
  - rewrite run_cons. destruct (IH (step op w).2) as [Hge Hsorted].
    pose proof (step_counter op w) as Hmono. unfold addTarget_ids. simpl.
    destruct (step op w).1 as [[| | |id l| | |]| |e] eqn:Hres; simpl;
      try (split; [|done]; eapply Forall_impl; [done|]; simpl; intros; lia).
    apply step_returns_handle in Hres as [-> Hnext]. split.
    + constructor; [done|]. eapply Forall_impl; [done|]. simpl. intros; lia.
    + constructor; [done|]. eapply Forall_impl; [done|]. simpl. intros; lia.
Qed.

(** They increase strictly in a run that leaves the counter below
    [2^53]. *)
Lemma run_ids_lt (ops : list Op) (w : WatchStream) :
  - 2 ^ 53 ≤ _nextTargetId w → _nextTargetId (exec ops w) < 2 ^ 53 →
  StronglySorted Z.lt (addTarget_ids (run ops w).1).
Proof.
  revert w. induction ops as [|op ops IH]; intros w Hlo Hhi.
  - constructor.
  - rewrite exec_cons in Hhi. rewrite run_cons.
    pose proof (step_counter op w) as Hmono.
    pose proof (exec_counter ops (step op w).2) as Hrest.
    destruct (run_ids ops (step op w).2) as [Hge _].
    specialize (IH (step op w).2 ltac:(lia) Hhi).
    unfold addTarget_ids in *. simpl.
    destruct (step op w).1 as [[| | |id l| | |]| |e] eqn:Hres; simpl;
      try done.
    apply step_returns_handle in Hres as [-> Hnext].
    rewrite number_inc_exact in Hnext by lia.
    constructor; [done|]. eapply Forall_impl; [done|]. simpl. intros; lia.
Qed.

(** The controller whose counter has stopped is reached from a new one:
    by [n - 1] calls of [addTarget] before [open()] the counter gets to
    [n], for every [n] up to [2^53]. *)
Lemma counter_reaches (targetInfo : WatchStreamAddTargetInfo)
    (projectId : string) (n : Z) :
  1 ≤ n ≤ 2 ^ 53 →
  exec (repeat (AddTarget targetInfo) (Z.to_nat (n - 1)))
    (newWatchStream projectId) =
  set_nextTargetId n (newWatchStream projectId).
Proof.
  intros Hn.
  assert (∀ (k : nat) (w : WatchStream),
            _stream w = None → - 2 ^ 53 ≤ _nextTargetId w →
            _nextTargetId w + Z.of_nat k ≤ 2 ^ 53 →
            exec (repeat (AddTarget targetInfo) k) w =
            set_nextTargetId (_nextTargetId w + Z.of_nat k) w) as H.
  { induction k as [|k IH]; intros w Hs Hlo Hhi.
    - change (exec (repeat (AddTarget targetInfo) 0) w) with w.
      destruct w. unfold set_nextTargetId. simpl. f_equal. lia.
    - change (repeat (AddTarget targetInfo) (S k))
        with (AddTarget targetInfo :: repeat (AddTarget targetInfo) k).
      rewrite exec_cons, step_state.
      destruct (addTarget_fail targetInfo w) as [_ ->]; [by left|].
      rewrite number_inc_exact by lia.
      rewrite IH; [|done|simpl; lia|simpl; lia].
      destruct w. unfold set_nextTargetId. simpl. f_equal. lia. }
  rewrite (H (Z.to_nat (n - 1)) (newWatchStream projectId));
    [|done|done|simpl; lia].
  simpl. f_equal. lia.
Qed.

(** C10, amended: a call of [addTarget] on a stream that was never opened,
    or is closed, throws [WatchError] and changes the counter of target
    ids, which is incremented, and nothing else.  The counter is a
    JavaScript number: it is one more after the call when it was below
    [2^53], where the increment is exact.  In a run that leaves the
    counter below [2^53], which a run of fewer than [2^53 - 1] operations
    from a new controller does, the ids of the promises that calls of
    [addTarget] return are strictly increasing; in every run they never
    decrease.  They need not be contiguous: after a call that failed the
    first id returned is 2; and of three targets added, the second refused
    by the server, the handles obtained have the ids 1 and 3. *)
Theorem addTarget_consumes_id :
  (∀ targetInfo w,
     _stream w = None ∨ _closed w = true →
     throws WatchError (addTarget targetInfo w).1 ∧
     (addTarget targetInfo w).2 =
       set_nextTargetId (number_inc (_nextTargetId w)) w ∧
     (- 2 ^ 53 ≤ _nextTargetId w < 2 ^ 53 →
      (addTarget targetInfo w).2 =
        set_nextTargetId (_nextTargetId w + 1) w)) ∧
  (∀ ops w,
     - 2 ^ 53 ≤ _nextTargetId w → _nextTargetId (exec ops w) < 2 ^ 53 →
     StronglySorted Z.lt (addTarget_ids (run ops w).1)) ∧
  (∀ projectId ops,
     Z.of_nat (length ops) < 2 ^ 53 - 1 →
     StronglySorted Z.lt
       (addTarget_ids (run ops (newWatchStream projectId)).1)) ∧
  (∀ ops w, StronglySorted Z.le (addTarget_ids (run ops w).1)) ∧
  addTarget_ids
    (run [AddTarget sample_info; Open; AddTarget sample_info]
       (newWatchStream "proj")).1 = [2] ∧
  (let r :=
     run [Open; AddTarget sample_info; AddTarget sample_info;
          AddTarget sample_info; targetChange_msg [1] "ADD" None;
          targetChange_error_msg [2] (mkStatus 7 "denied");
          targetChange_msg [3] "ADD" None]
       (newWatchStream "proj") in
   addTarget_ids r.1 = [1; 2; 3] ∧
   promise_state r.2 (AddTargetPromise 1 0) =
     FulfilledHandle (mkTargetHandle 1) ∧
   promise_state r.2 (AddTargetPromise 2 1) =
     RejectedWith (mkStatus 7 "denied") ∧
   promise_state r.2 (AddTargetPromise 3 2) =
     FulfilledHandle (mkTargetHandle 3)).
Proof.
  split; [|split; [|split; [|split; [|split]]]].
  - intros targetInfo w Hpre.
    destruct (addTarget_fail targetInfo w Hpre) as [Hthrows Hstate].
    split; [done|]. split; [done|]. intros Hc.
    by rewrite Hstate, number_inc_exact.
  - intros ops w. apply run_ids_lt.
  - intros projectId ops Hlen. apply run_ids_lt; [done|].
    pose proof (exec_counter_le ops _ (allocated_new projectId)) as Hle.
    simpl in Hle. lia.
  - intros ops w. apply run_ids.
  - reflexivity.
  - vm_compute. repeat split.
Qed.

(** ** Eviction *)







(** ** A document change with an empty list of target ids *)

(** [_onDocumentChange] resolves the ids of the additions with
    [allTargetsIfEmpty] set: an empty list stands for every registered
    machine. *)
Lemma onDocumentChange_empty_targetIds_all (dc : DocumentChange)
    (w : WatchStream) :
  wf w →
  dc_targetIds dc ?? [] = [] → dc_removedTargetIds dc ?? [] = [] →
  (∀ id l, map_get id (_targets w) = Some l → Added (deref w l)) →
  let r := _onDocumentChange dc w in
  r.1 = Ok tt ∧
  ∀ id l, map_get id (_targets w) = Some l →
          _accumulatedDocumentNames (deref r.2 l) =
          _accumulatedDocumentNames (deref w l) ∪ {[dc_document_name dc]}.
Proof.
  intros Hwf Htids Hrids Hadded r. subst r. rewrite onDocumentChange_eq.
  rewrite Htids, Hrids.
  set (name := dc_document_name dc).
  pose proof (call_acts_as (onDocumentChanged name)
                (onDocumentChanged_targetId name)) as HbodyC.
  destruct (targetStates_lookup [] true w) as (_ & Hok & _).
  rewrite Hok by (by intros id ?%elem_of_nil).
  simpl. cbv zeta.
  assert (∀ l, l ∈ map_values (_targets w) →
               (l < length (heap w))%nat ∧ Added (deref w l)) as Hall.
  { intros l [id Hget]%elem_of_values; [|done]. split; [|by eauto].
    by destruct (wf_lookup w id l Hwf Hget). }
  destruct (forOf_accepting _ _ HbodyC Added (map_values (_targets w)) w)
    as [Hres _]; [apply onDocumentChanged_Added | done |].
  pose proof (forOf_effect _ _ HbodyC (map_values (_targets w)) w) as Heff.
  destruct (forOf (map_values (_targets w)) _ w) as [r1 w1]; simpl in *.
  subst r1.
  split; [done|]. intros id l Hget.
  rewrite Heff; [|intros x Hx; by destruct (Hall x Hx)|done].
  rewrite count_occ_NoDup;
    [|by apply wf_values_NoDup|apply elem_of_values; eauto]. simpl.
  destruct (Hadded id l Hget) as [Ha Hr].
  unfold onDocumentChanged. unfold_monad. by rewrite Ha, Hr.
Qed.

(** C1 fails on the code.  Two targets are registered and acknowledged,
    their sets are empty; a document change with an empty [targetIds] and
    an empty [removedTargetIds] is processed without error and leaves the
    document in the set of both machines. *)
Theorem onDocumentChange_empty_targetIds_broadcasts :
  let w := sample_stream 2 in
  let r := _onDocumentChange (mkDocumentChange "docs/A" (Some []) (Some [])) w in
  _targets w = [(1, 0%nat); (2, 1%nat)] ∧
  _accumulatedDocumentNames (deref w 0) = ∅ ∧
  _accumulatedDocumentNames (deref w 1) = ∅ ∧
  r.1 = Ok tt ∧
  _accumulatedDocumentNames (deref r.2 0) = {["docs/A"]} ∧
  _accumulatedDocumentNames (deref r.2 1) = {["docs/A"]}.
Proof.
  cbv zeta. repeat (split; [vm_compute; reflexivity|]).
  vm_compute; reflexivity.
Qed.

End Properties.

(** * The properties at sample inputs *)

Lemma createBloomFilterFrom_validates_witness :
  7 < 8 ∧
  throws InvalidBloomFilterError
    (createBloomFilterFrom sample_decoder filter_padding_8 tt).1 ∧
  throws InvalidBloomFilterError
    (createBloomFilterFrom sample_decoder filter_no_hash tt).1 ∧
  createBloomFilterFrom sample_decoder filter_valid tt =
    (Ok (Some (mkBloomFilter [x2a%byte] 3 5)), tt).
Proof.
  pose proof (createBloomFilterFrom_validates sample_decoder
                filter_padding_8 tt) as (H8 & _).
  pose proof (createBloomFilterFrom_validates sample_decoder
                filter_no_hash tt) as (_ & _ & H0 & _).
  pose proof (createBloomFilterFrom_validates sample_decoder
                filter_valid tt) as (_ & _ & _ & Hv).
  simpl in *. assert (7 < 8) as H78 by lia.
  split; [done|]. split; [|split].
  - apply H8. by right.
  - by apply H0.
  - apply Hv; [lia | lia | intros [=]].
Defined.

Lemma target_state_guards_witness :
  throws TargetStateError
    (fire sample_decoder EvCurrent (newTargetState 1 None)).1 ∧
  throws TargetStateError
    (fire sample_decoder (EvDocumentChanged "A")
       (feed sample_decoder [EvAdded; EvRemoved] (newTargetState 1 None)).2).1 ∧
  throws TargetStateError
    (fire sample_decoder EvAdded
       (feed sample_decoder [EvAdded] (newTargetState 1 None)).2).1.
Proof.
  split; [|split].
  - destruct (target_state_guards sample_decoder 1 None []) as (H & _).
    apply H; [apply not_elem_of_nil | exact I].
  - destruct (target_state_guards sample_decoder 1 None [EvAdded; EvRemoved])
      as (_ & H & _).
    apply H; [|exact I]. vm_compute. apply list_elem_of_further, list_elem_of_here.
  - destruct (target_state_guards sample_decoder 1 None [EvAdded])
      as (_ & _ & H & _).
    apply H. apply list_elem_of_here.
Defined.

Lemma onNoChange_initial_snapshot_witness :
  let t :=
    (feed sample_decoder [EvAdded; EvDocumentChanged "A"; EvCurrent]
       (newTargetState 1 None)).2 in
  Added t ∧
  (onNoChange (Some (OfString "T1")) t).1 = Ok tt ∧
  _initialSnapshotDeferred (onNoChange (Some (OfString "T1")) t).2 =
    Resolved (mkTargetSnapshot {["A"]} (OfString "T1")).
Proof.
  cbv zeta.
  set (t := (feed sample_decoder [EvAdded; EvDocumentChanged "A"; EvCurrent]
               (newTargetState 1 None)).2).
  assert (Added t) as HA by (by vm_compute).
  destruct (onNoChange_initial_snapshot sample_decoder) as (_ & H & _).
  destruct (H t (Some (OfString "T1")) HA) as (Hok & Hiff & _).
  split; [done|]. split; [done|].
  apply Hiff; [by vm_compute|]. split; [by vm_compute|].
  eexists. split; [done|]. vm_compute. f_equal.
Defined.

Lemma onReset_clears_witness :
  let t :=
    (feed sample_decoder [EvAdded; EvDocumentChanged "A"; EvDocumentChanged "B"]
       (newTargetState 1 None)).2 in
  Added t ∧ _accumulatedDocumentNames t = {["A"; "B"]} ∧
  _accumulatedDocumentNames (onReset t).2 = ∅ ∧
  _initialSnapshotDeferred
    (feed sample_decoder [EvReset; EvCurrent; EvNoChange (Some (OfString "T2"))]
       t).2 = Resolved (mkTargetSnapshot ∅ (OfString "T2")).
Proof.
  cbv zeta.
  set (t := (feed sample_decoder
               [EvAdded; EvDocumentChanged "A"; EvDocumentChanged "B"]
               (newTargetState 1 None)).2).
  assert (Added t) as HA by (by vm_compute).
  destruct (onReset_clears sample_decoder t HA) as (_ & _ & Hacc & Hseq).
  destruct (Hseq (OfString "T2")) as (_ & _ & _ & Hsnap).
  split; [done|]. split; [vm_compute; f_equal|]. split; [done|].
  apply Hsnap. by vm_compute.
Defined.

Lemma onTargetChange_dispatch_witness :
  let w := sample_stream 2 in
  let tc := mkTargetChange None None (Some "CURRENT") None in
  wf w ∧ (_onTargetChange tc w).1 = Ok tt ∧
  deref (_onTargetChange tc w).2 0 = (onCurrent (deref w 0)).2 ∧
  deref (_onTargetChange tc w).2 1 = (onCurrent (deref w 1)).2 ∧
  _current (deref (_onTargetChange tc w).2 0) = true ∧
  _current (deref (_onTargetChange tc w).2 1) = true.
Proof.
  cbv zeta.
  set (w := sample_stream 2).
  set (tc := mkTargetChange None None (Some "CURRENT") None).
  assert (wf w) as Hwf by compute_done.
  assert ((_onTargetChange tc w).1 = Ok tt) as Hok by (by vm_compute).
  destruct (onTargetChange_dispatch tc w Hwf) as (Hall & _).
  destruct (Hall eq_refl) as (_ & Heff).
  pose proof (Heff Hok 1 0%nat eq_refl) as H0.
  pose proof (Heff Hok 2 1%nat eq_refl) as H1.
  split; [done|]. split; [done|]. split; [done|]. split; [done|].
  rewrite H0, H1. by vm_compute.
Defined.

Lemma onDocumentChange_add_then_remove_witness :
  let w := sample_stream 5 in
  let dc := mkDocumentChange "docs/A" (Some [5]) (Some [5]) in
  let additions :=
    let! targetStates := _targetStatesForTargetIds [5] true in
    forOf targetStates (fun targetState =>
      call targetState (onDocumentChanged "docs/A")) in
  wf w ∧ (_onDocumentChange dc w).1 = Ok tt ∧
  (additions w).1 = Ok tt ∧
  ∃ l, map_get 5 (_targets w) = Some l ∧
       ("docs/A" ∉ _accumulatedDocumentNames (deref w l)) ∧
       "docs/A" ∈ _accumulatedDocumentNames (deref (additions w).2 l) ∧
       map_get 5 (_targets (_onDocumentChange dc w).2) = Some l ∧
       "docs/A" ∉ _accumulatedDocumentNames (deref (_onDocumentChange dc w).2 l).
Proof.
  cbv zeta.
  set (w := sample_stream 5).
  set (dc := mkDocumentChange "docs/A" (Some [5]) (Some [5])).
  assert (wf w) as Hwf by compute_done.
  assert ((_onDocumentChange dc w).1 = Ok tt) as Hok by (by vm_compute).
  destruct (onDocumentChange_add_then_remove dc w 5) as (_ & Heff & _).
  { apply list_elem_of_here. }
  { apply list_elem_of_here. }
  destruct (Heff Hok) as (Hadds & _ & l & Hget & Hin & Hget' & Hnot).
  split; [exact Hwf|]. split; [exact Hok|]. split; [exact Hadds|].
  exists l. split; [exact Hget|]. split.
  - assert (l = 4%nat) as -> by (vm_compute in Hget; congruence).
    vm_compute. set_solver.
  - split; [exact Hin|]. split; [exact Hget'|exact Hnot].
Defined.


Lemma lifecycle_preconditions_witness :
  let w := exec sample_decoder [Open; Close] (newWatchStream "proj") in
  throws WatchError (open w).1 ∧
  throws WatchError (addTarget sample_info w).1 ∧
  throws WatchError
    (addTarget sample_info (newWatchStream "proj")).1 ∧
  throws WatchError (removeTarget (mkTargetHandle 1) w).1.
Proof.
  cbv zeta.
  destruct (lifecycle_preconditions sample_decoder "proj" [Open; Close])
    as (Hopen & Hadd & Hremove).
  destruct (lifecycle_preconditions sample_decoder "proj" [])
    as (_ & Hadd0 & _).
  assert (Open ∈ [Open; Close]) as Hin1 by apply list_elem_of_here.
  assert (Close ∈ [Open; Close]) as Hin2
    by apply list_elem_of_further, list_elem_of_here.
  split; [|split; [|split]].
  - apply Hopen. by left.
  - apply Hadd. by right.
  - apply (Hadd0 (or_introl (not_elem_of_nil Open))).
  - apply Hremove. by right.
Defined.

Lemma addTarget_consumes_id_witness :
  let w := newWatchStream "proj" in
  let ops := [AddTarget sample_info; Open; AddTarget sample_info] in
  _stream w = None ∧ - 2 ^ 53 ≤ _nextTargetId w < 2 ^ 53 ∧
  throws WatchError (addTarget sample_info w).1 ∧
  (addTarget sample_info w).2 = set_nextTargetId 2 w ∧
  _nextTargetId (exec sample_decoder ops w) < 2 ^ 53 ∧
  Z.of_nat (length ops) < 2 ^ 53 - 1 ∧
  StronglySorted Z.lt (addTarget_ids (run sample_decoder ops w).1).
Proof.
  cbv zeta.
  set (w := newWatchStream "proj").
  set (ops := [AddTarget sample_info; Open; AddTarget sample_info]).
  assert (- 2 ^ 53 ≤ _nextTargetId w < 2 ^ 53) as Hc by (simpl; lia).
  assert (_nextTargetId (exec sample_decoder ops w) < 2 ^ 53) as Hend
    by (vm_compute; reflexivity).
  assert (Z.of_nat (length ops) < 2 ^ 53 - 1) as Hlen
    by (vm_compute; reflexivity).
  destruct (addTarget_consumes_id sample_decoder) as (H & Hlt & Hnew & _).
  destruct (H sample_info w (or_introl eq_refl)) as (Hthrows & _ & Hstate).
  pose proof (Hlt ops w (proj1 Hc) Hend) as Hsorted.
  pose proof (Hnew "proj" ops Hlen) as Hsorted'.
  split; [reflexivity|]. split; [exact Hc|]. split; [exact Hthrows|].
  split; [exact (Hstate Hc)|]. split; [exact Hend|]. split; [exact Hlen|].
  exact Hsorted.
Defined.

(** C10 as it was stated fails where the counter has stopped.  The
    controller with the counter at [2^53] is what a new controller becomes
    after [2^53 - 1] calls of [addTarget] before [open()]
    ([counter_reaches]).  There a failing [addTarget] consumes no id, it
    leaves the controller as it was; and once the stream is open two
    successive calls return the same id. *)
Lemma addTarget_id_not_consumed :
  let w := set_nextTargetId (2 ^ 53) (newWatchStream "proj") in
  let ops := [Open; AddTarget sample_info; AddTarget sample_info] in
  _stream w = None ∧
  throws WatchError (addTarget sample_info w).1 ∧
  (addTarget sample_info w).2 = w ∧
  (addTarget sample_info w).2 ≠ set_nextTargetId (_nextTargetId w + 1) w ∧
  addTarget_ids (run sample_decoder ops w).1 = [2 ^ 53; 2 ^ 53] ∧
  ¬ StronglySorted Z.lt (addTarget_ids (run sample_decoder ops w).1).
Proof.
  cbv zeta.
  set (w := set_nextTargetId (2 ^ 53) (newWatchStream "proj")).
  set (ops := [Open; AddTarget sample_info; AddTarget sample_info]).
  assert (addTarget_ids (run sample_decoder ops w).1 = [2 ^ 53; 2 ^ 53])
    as Hids by (vm_compute; reflexivity).
  split; [reflexivity|]. split; [vm_compute; reflexivity|].
  split; [vm_compute; reflexivity|]. split; [|split; [exact Hids|]].
  - intros H. apply (f_equal _nextTargetId) in H. vm_compute in H.
    discriminate.
  - rewrite Hids. intros Hs. inversion Hs as [|? ? _ Hall].
    inversion Hall as [|? ? Hlt _]. vm_compute in Hlt. discriminate.
Defined.

(** * Further properties *)

Section Further.

Variable normalizeByteString : ByteString -> list byte.

Local Abbreviation fire := (fire normalizeByteString).
Local Abbreviation feed := (feed normalizeByteString).
Local Abbreviation step := (step normalizeByteString).
Local Abbreviation run := (run normalizeByteString).
Local Abbreviation exec := (exec normalizeByteString).

Ltac unfold_monad :=
  unfold bind, ret, throw, get, modify in *; simpl in *.

Ltac unfold_methods :=
  unfold onError, onAdded, onRemoved, onCurrent, onReset, onNoChange,
    onDocumentChanged, onDocumentRemoved, onExistenceFilter in *.

Ltac fire_cases ev t :=
  destruct ev as [err| | | | |tok|doc|doc|ef]; simpl;
  unfold_methods; unfold_monad;
  destruct (_added t) eqn:?, (_removed t) eqn:?; simpl;
  try (destruct (_current t) eqn:?, tok; simpl);
  try (destruct (onExistenceFilter_cases normalizeByteString ef t)
         as [[? ->]|[? ->]]; simpl).

Ltac unfold_api :=
  unfold open, close, addTarget, removeTarget, getInitialSnapshot,
    getExistenceFilter, stream_onOpen, stream_onClose, sendListenRequest,
    alloc in *;
  unfold_monad.

(** ** The machine *)

Lemma feed_app (evs1 evs2 : list Event) (t : TargetState) :
  (feed (evs1 ++ evs2) t).2 = (feed evs2 (feed evs1 t).2).2.
Proof.
  revert t. induction evs1 as [|ev evs1 IH]; intros t; [done|].
  rewrite <- app_comm_cons, !(feed_cons normalizeByteString). simpl.
  apply IH.
Qed.

Lemma fire_settled (ev : Event) (t : TargetState) :
  (_addedDeferred t ≠ Pending →
   _addedDeferred (fire ev t).2 = _addedDeferred t) ∧
  (_removedDeferred t ≠ Pending →
   _removedDeferred (fire ev t).2 = _removedDeferred t) ∧
  (_initialSnapshotDeferred t ≠ Pending →
   _initialSnapshotDeferred (fire ev t).2 = _initialSnapshotDeferred t) ∧
  (_existenceFilterDeferred t ≠ Pending →
   _existenceFilterDeferred (fire ev t).2 = _existenceFilterDeferred t).
Proof.
  fire_cases ev t; repeat split; intros H; try done;
    first [by destruct (_addedDeferred t)
          | by destruct (_removedDeferred t)
          | by destruct (_initialSnapshotDeferred t)
          | by destruct (_existenceFilterDeferred t)].
Qed.

(** Each of the four deferreds of a machine is settled at most once: once
    it is resolved or rejected, no sequence of events changes it. *)
Theorem deferreds_settle_once (evs : list Event) (t : TargetState) :
  (_addedDeferred t ≠ Pending →
   _addedDeferred (feed evs t).2 = _addedDeferred t) ∧
  (_removedDeferred t ≠ Pending →
   _removedDeferred (feed evs t).2 = _removedDeferred t) ∧
  (_initialSnapshotDeferred t ≠ Pending →
   _initialSnapshotDeferred (feed evs t).2 = _initialSnapshotDeferred t) ∧
  (_existenceFilterDeferred t ≠ Pending →
   _existenceFilterDeferred (feed evs t).2 = _existenceFilterDeferred t).
Proof.
  revert t. induction evs as [|ev evs IH]; intros t; [done|].
  rewrite (feed_cons normalizeByteString). simpl.
  destruct (fire_settled ev t) as (F1 & F2 & F3 & F4).
  destruct (IH (fire ev t).2) as (I1 & I2 & I3 & I4).
  repeat split; intros H.
  - rewrite I1; rewrite F1; done.
  - rewrite I2; rewrite F2; done.
  - rewrite I3; rewrite F3; done.
  - rewrite I4; rewrite F4; done.
Qed.

(** How one event moves each deferred: not at all, by a rejection, or by
    the resolution that belongs to an accepted event. *)
Lemma fire_addedDeferred (ev : Event) (t : TargetState) :
  _addedDeferred (fire ev t).2 = _addedDeferred t ∨
  (∃ err, _addedDeferred (fire ev t).2 = reject err (_addedDeferred t)) ∨
  ev = EvAdded.
Proof.
  fire_cases ev t;
    first [by left | right; left; by eexists | by (right; right)].
Qed.

Lemma fire_removedDeferred (ev : Event) (t : TargetState) :
  _removedDeferred (fire ev t).2 = _removedDeferred t ∨
  (∃ err, _removedDeferred (fire ev t).2 = reject err (_removedDeferred t)) ∨
  (_removed (fire ev t).2 = true).
Proof.
  fire_cases ev t;
    first [by left | right; left; by eexists | by (right; right)].
Qed.

Lemma fire_snapshotDeferred (ev : Event) (t : TargetState) :
  _initialSnapshotDeferred (fire ev t).2 = _initialSnapshotDeferred t ∨
  (∃ err, _initialSnapshotDeferred (fire ev t).2 =
          reject err (_initialSnapshotDeferred t)) ∨
  _added t = true.
Proof.
  fire_cases ev t;
    first [by left | right; left; by eexists | by (right; right)].
Qed.

Lemma fire_filterDeferred (ev : Event) (t : TargetState) :
  _existenceFilterDeferred (fire ev t).2 = _existenceFilterDeferred t ∨
  (∃ err, _existenceFilterDeferred (fire ev t).2 =
          reject err (_existenceFilterDeferred t)) ∨
  _added t = true.
Proof.
  fire_cases ev t;
    first [by left | right; left; by eexists | by (right; right)].
Qed.

Lemma fire_current_flag (ev : Event) (t : TargetState) :
  _current (fire ev t).2 = true → _current t = true ∨ _added t = true.
Proof.
  fire_cases ev t; intros H; first [by left | by right | congruence].
Qed.

Lemma fire_removed_added (ev : Event) (t : TargetState) :
  _removed (fire ev t).2 = true → _removed t = true ∨ _added t = true.
Proof.
  fire_cases ev t; intros H; first [by left | by right | congruence].
Qed.

Lemma reject_Resolved {A} (err : Status) (d : Deferred A) (a : A) :
  reject err d = Resolved a → d = Resolved a.
Proof. by destruct d. Qed.

Lemma fire_consistent (ev : Event) (t : TargetState) :
  consistent t → consistent (fire ev t).2.
Proof.
  unfold consistent. intros (H1 & H2 & H3 & H4 & H5 & H6 & H7 & H8).
  pose proof (proj2 (fire_added_flag normalizeByteString ev t)) as Hkeep.
  destruct (fire_settled ev t) as (S1 & S2 & _ & _).
  repeat split.
  - intros [?|?]%fire_removed_added; auto.
  - intros [?|?]%fire_current_flag; auto.
  - intros [Ha| ->]%(fire_added_flag normalizeByteString).
    + rewrite S1; auto.
    + simpl. unfold onAdded. unfold_monad.
      destruct (_added t) eqn:Ha; simpl; [auto|].
      by destruct (_addedDeferred t).
  - destruct (fire_addedDeferred ev t) as [->|[[err ->]| ->]];
      intros Hd; auto.
    apply reject_Resolved in Hd. auto.
  - intros Hr. destruct (_removed t) eqn:Hrem.
    + rewrite S2; auto.
    + apply (fire_removed_flag normalizeByteString) in Hr
        as [Hr|[-> Hok]]; [congruence|].
      revert Hok. simpl. unfold onRemoved. unfold_monad. rewrite Hrem.
      destruct (_added t); simpl; [|done]. by destruct (_removedDeferred t).
  - destruct (fire_removedDeferred ev t) as [->|[[err ->]|Hr]];
      intros Hd; auto.
    + apply (fire_removed_flag normalizeByteString). auto.
    + apply reject_Resolved in Hd.
      apply (fire_removed_flag normalizeByteString). auto.
  - intros snap.
    destruct (fire_snapshotDeferred ev t) as [->|[[err ->]|Ha]];
      intros Hd; eauto.
    apply reject_Resolved in Hd. eauto.
  - intros filter.
    destruct (fire_filterDeferred ev t) as [->|[[err ->]|Ha]];
      intros Hd; eauto.
    apply reject_Resolved in Hd. eauto.
Qed.

(** The flags and the deferreds of a machine stay consistent, from its
    construction on and whatever events it receives. *)
Theorem target_state_consistent (targetId : Z) (paths : option (gset string))
    (evs : list Event) :
  consistent (feed evs (newTargetState targetId paths)).2.
Proof.
  assert (∀ t, consistent t → consistent (feed evs t).2) as H.
  { induction evs as [|ev evs IH]; intros t Ht; [done|].
    rewrite (feed_cons normalizeByteString). simpl.
    by apply IH, fire_consistent. }
  apply H. unfold consistent. simpl. repeat split; intros; done.
Qed.

Lemma createBloomFilterFrom_error {S} (ef : ExistenceFilter) (s s' : S)
    (e : Error) :
  createBloomFilterFrom normalizeByteString ef s = (Throw e, s') →
  name e = InvalidBloomFilterError.
Proof.
  unfold createBloomFilterFrom. unfold_monad.
  repeat case_match; intros [= <- _]; done.
Qed.

(** The guards are exact: [onError] never throws; [onAdded] throws
    exactly when the machine was added before; each of the seven guarded
    events throws [TargetStateError] exactly outside the Added state; and
    the only other error is the [InvalidBloomFilterError] of
    [onExistenceFilter]. *)
Theorem guards_exact (ev : Event) (t : TargetState) :
  (∀ error, (fire (EvError error) t).1 = Ok tt) ∧
  (throws TargetStateError (fire EvAdded t).1 ↔ _added t = true) ∧
  (guarded ev → throws TargetStateError (fire ev t).1 ↔ ¬ Added t) ∧
  (∀ e, (fire ev t).1 = Throw e →
        name e = TargetStateError ∨
        name e = InvalidBloomFilterError ∧
        ∃ existenceFilter, ev = EvExistenceFilter existenceFilter).
Proof.
  unfold Added. split; [|split; [|split]].
  - done.
  - simpl. unfold onAdded. unfold_monad. by destruct (_added t).
  - intros Hg. split.
    + intros Hthrows [Ha Hr]. revert Hthrows.
      destruct ev as [err| | | | |tok|doc|doc|ef]; simpl in Hg; try done;
        simpl; unfold_methods; unfold_monad; rewrite Ha, Hr; simpl;
        try done.
      * by destruct (_current t), tok.
      * destruct (createBloomFilterFrom normalizeByteString ef t)
          as [[f|e] t'] eqn:Hc; simpl; [done|].
        apply createBloomFilterFrom_error in Hc. congruence.
    + intros Hnot. apply (fire_guard normalizeByteString); [done|].
      destruct (_added t), (_removed t); auto; by destruct Hnot.
  - intros e. destruct ev as [err| | | | |tok|doc|doc|ef]; simpl;
      unfold_methods; unfold_monad;
      destruct (_added t), (_removed t); simpl;
      try (destruct (_current t), tok; simpl);
      try (intros [= <-]; by left).
    destruct (createBloomFilterFrom normalizeByteString ef t)
      as [[f|e'] t'] eqn:Hc; simpl; intros [= <-].
    right. split; [|by eexists]. by apply createBloomFilterFrom_error in Hc.
Qed.

Lemma fire_keeps_member (documentName : string) (ev : Event)
    (t : TargetState) :
  documentName ∈ _accumulatedDocumentNames t →
  ev ≠ EvReset → ev ≠ EvDocumentRemoved documentName →
  documentName ∈ _accumulatedDocumentNames (fire ev t).2.
Proof.
  intros Hin Hreset Hrem.
  fire_cases ev t;
    first [done | set_solver
          | assert (doc ≠ documentName) by congruence; set_solver].
Qed.

Lemma fire_keeps_absent (documentName : string) (ev : Event)
    (t : TargetState) :
  documentName ∉ _accumulatedDocumentNames t →
  ev ≠ EvDocumentChanged documentName →
  documentName ∉ _accumulatedDocumentNames (fire ev t).2.
Proof.
  intros Hin Hch.
  fire_cases ev t;
    first [done | set_solver
          | assert (doc ≠ documentName) by congruence; set_solver].
Qed.

Lemma feed_keeps_member (documentName : string) (evs : list Event)
    (t : TargetState) :
  documentName ∈ _accumulatedDocumentNames t →
  EvReset ∉ evs → EvDocumentRemoved documentName ∉ evs →
  documentName ∈ _accumulatedDocumentNames (feed evs t).2.
Proof.
  revert t. induction evs as [|ev evs IH]; intros t Hin; [done|].
  intros [? ?]%not_elem_of_cons [? ?]%not_elem_of_cons.
  rewrite (feed_cons normalizeByteString). simpl.
  apply IH; [|done..]. apply fire_keeps_member; done.
Qed.

Lemma feed_keeps_absent (documentName : string) (evs : list Event)
    (t : TargetState) :
  documentName ∉ _accumulatedDocumentNames t →
  EvDocumentChanged documentName ∉ evs →
  documentName ∉ _accumulatedDocumentNames (feed evs t).2.
Proof.
  revert t. induction evs as [|ev evs IH]; intros t Hin; [done|].
  intros [? ?]%not_elem_of_cons.
  rewrite (feed_cons normalizeByteString). simpl.
  apply IH; [|done]. apply fire_keeps_absent; done.
Qed.

(** The last delta decides.  A machine in the Added state that receives
    [onDocumentChanged(name)] holds the name for as long as no [onReset]
    and no [onDocumentRemoved(name)] follows; after
    [onDocumentRemoved(name)] or [onReset] it lacks the name for as long
    as no [onDocumentChanged(name)] follows. *)
Theorem last_delta_decides (documentName : string) (evs1 evs2 : list Event)
    (t : TargetState) :
  Added (feed evs1 t).2 →
  (EvReset ∉ evs2 → EvDocumentRemoved documentName ∉ evs2 →
   documentName ∈ _accumulatedDocumentNames
     (feed (evs1 ++ EvDocumentChanged documentName :: evs2) t).2) ∧
  (EvDocumentChanged documentName ∉ evs2 →
   documentName ∉ _accumulatedDocumentNames
     (feed (evs1 ++ EvDocumentRemoved documentName :: evs2) t).2) ∧
  (EvDocumentChanged documentName ∉ evs2 →
   documentName ∉ _accumulatedDocumentNames
     (feed (evs1 ++ EvReset :: evs2) t).2).
Proof.
  intros [Ha Hr]. rewrite !feed_app, !(feed_cons normalizeByteString).
  simpl. set (t1 := (feed evs1 t).2) in *.
  repeat split.
  - intros H1 H2. apply feed_keeps_member; [|done..].
    unfold onDocumentChanged. unfold_monad. rewrite Ha, Hr. simpl.
    set_solver.
  - intros H1. apply feed_keeps_absent; [|done].
    unfold onDocumentRemoved. unfold_monad. rewrite Ha, Hr. simpl.
    set_solver.
  - intros H1. apply feed_keeps_absent; [|done].
    unfold onReset. unfold_monad. rewrite Ha, Hr. simpl. set_solver.
Qed.

(** ** Filters *)

Lemma createBloomFilterFrom_valid {S} (ef : ExistenceFilter) (s s' : S)
    (f : BloomFilter) :
  createBloomFilterFrom normalizeByteString ef s = (Ok (Some f), s') →
  valid_filter f.
Proof.
  unfold createBloomFilterFrom, valid_filter.
  destruct (unchangedNames ef) as [un|]; [|done]. cbv zeta.
  set (p := (bits un ≫= bits_padding) ?? 0).
  set (h := proto_hashCount un ?? 0).
  set (bytes := normalizeByteString _).
  destruct (Z.ltb_spec p 0), (Z.gtb_spec p 7), (Z.ltb_spec h 0); simpl;
    try done.
  destruct (Z.eqb_spec h 0) as [Hzero|Hnonzero]; simpl.
  - destruct (0 <? Z.of_nat (length bytes)) eqn:Hlen; [done|].
    intros [= <- _]. simpl. repeat split; try lia. intros _.
    apply Z.ltb_ge in Hlen. destruct bytes; [done | simpl length in Hlen; lia].
  - intros [= <- _]. simpl. repeat split; lia.
Qed.

Lemma fire_filter_valid (ev : Event) (t : TargetState) :
  (∀ f, _existenceFilterDeferred t = Resolved (Some f) → valid_filter f) →
  ∀ f, _existenceFilterDeferred (fire ev t).2 = Resolved (Some f) →
       valid_filter f.
Proof.
  intros Hinv f.
  destruct ev as [err| | | | |tok|doc|doc|ef]; simpl;
    unfold_methods; unfold_monad;
    destruct (_added t), (_removed t); simpl;
    try (destruct (_current t), tok; simpl); try apply Hinv.
  - intros H. apply reject_Resolved in H. by apply Hinv.
  - intros H. apply reject_Resolved in H. by apply Hinv.
  - intros H. apply reject_Resolved in H. by apply Hinv.
  - intros H. apply reject_Resolved in H. by apply Hinv.
  - destruct (onExistenceFilter_cases normalizeByteString ef t)
      as [[e' Hc]|[f' Hc]]; rewrite Hc; simpl; [apply Hinv|].
    destruct (_existenceFilterDeferred t) eqn:Hd; simpl; try (by apply Hinv).
    intros [= ->]. by eapply createBloomFilterFrom_valid.
Qed.

(** Every filter an existence-filter deferred is resolved with satisfies
    the invariant of filter values: a padding in [0,7], a hash count that
    is not negative, and an empty bitmap when the hash count is 0. *)
Theorem resolved_filter_valid (targetId : Z) (paths : option (gset string))
    (evs : list Event) (f : BloomFilter) :
  _existenceFilterDeferred (feed evs (newTargetState targetId paths)).2 =
    Resolved (Some f) →
  valid_filter f.
Proof.
  assert (∀ t,
    (∀ f, _existenceFilterDeferred t = Resolved (Some f) → valid_filter f) →
    ∀ f, _existenceFilterDeferred (feed evs t).2 = Resolved (Some f) →
         valid_filter f) as H.
  { induction evs as [|ev evs IH]; intros t Ht; [done|].
    rewrite (feed_cons normalizeByteString). simpl.
    by apply IH, fire_filter_valid. }
  apply H. simpl. done.
Qed.

(** ** Invariants of the controller *)

(** In every controller reached from a new one by calls of the interface,
    transport events and inbound messages: the keys of the registry are
    distinct, and the entry of a key refers to the machine that was
    created with that target id; the counter is between 1 and [2^53], and
    every key is between 1 and the counter.  While the counter is below
    [2^53], where its increment stops, every key is below it: the
    controller is well formed. *)
Theorem reachable_wf (projectId : string) (ops : list Op) :
  let w := exec ops (newWatchStream projectId) in
  linked w ∧
  1 ≤ _nextTargetId w ≤ 2 ^ 53 ∧
  (∀ id, id ∈ map_keys (_targets w) → 1 ≤ id ≤ _nextTargetId w) ∧
  (_nextTargetId w < 2 ^ 53 → wf w).
Proof.
  cbv zeta.
  pose proof (linked_exec normalizeByteString ops _
                (wf_linked _ (wf_new projectId))) as Hl.
  pose proof (allocated_exec normalizeByteString ops _
                (allocated_new projectId)) as Ha.
  split; [done|]. split; [by destruct Ha|]. split.
  - intros id (e & -> & He)%list_elem_of_fmap. destruct Ha as [_ Hall].
    rewrite Forall_forall in Hall. by destruct (Hall e He).
  - by apply linked_allocated_wf.
Qed.

Lemma fire_removed_same (ev : Event) (t : TargetState) :
  ev ≠ EvRemoved → _removed (fire ev t).2 = _removed t.
Proof.
  intros Hne. pose proof (fire_removed_flag normalizeByteString ev t) as H.
  destruct (_removed (fire ev t).2), (_removed t); try done.
  - destruct (proj1 H eq_refl) as [?|[? _]]; done.
  - apply (proj2 H). by left.
Qed.

Lemma call_removed_flag (m : M TargetState unit) (x l : loc)
    (w : WatchStream) :
  (∀ t, _removed (m t).2 = _removed t) →
  _removed (deref (call x m w).2 l) = _removed (deref w l).
Proof.
  intros Hm. rewrite call_state. unfold deref. simpl.
  destruct (decide (x = l)) as [->|Hne];
    [|by rewrite list_lookup_total_insert_ne].
  destruct (decide (l < length (heap w))%nat) as [Hlt|Hge].
  - by rewrite list_lookup_total_insert_eq.
  - rewrite list_insert_ge; [done | lia].
Qed.

Lemma live_call (m : M TargetState unit) (x : loc) (w : WatchStream) :
  (∀ t, _removed (m t).2 = _removed t) →
  live w → live (call x m w).2.
Proof.
  intros Hm Hlive. unfold live in *.
  assert (_targets (call x m w).2 = _targets w) as ->
    by (by rewrite call_state).
  eapply Forall_impl; [done|]. simpl. intros e He.
  by rewrite call_removed_flag.
Qed.

Lemma elem_of_map_delete {V} (k : Z) (m : list (Z * V)) (e : Z * V) :
  e ∈ map_delete k m → e ∈ m ∧ e.1 ≠ k.
Proof.
  induction m as [|[k' v'] m IH]; simpl; [by intros ?%elem_of_nil|].
  destruct (Z.eqb_spec k' k) as [->|Hne].
  - intros [? ?]%IH. split; [by right | done].
  - intros [->|[? ?]%IH]%elem_of_cons; [split; [by left | done]|].
    split; [by right | done].
Qed.

Lemma live_body (tc : TargetChange) (x : loc) (w : WatchStream) :
  linked w → live w → live (onTargetChange_body tc x w).2.
Proof.
  intros Hwf Hlive. unfold onTargetChange_body.
  destruct (cause tc) as [err|].
  { apply live_call; [|done]. intros t.
    apply (fire_removed_same (EvError err)). done. }
  cbv zeta. set (type := targetChangeType tc ?? "NO_CHANGE").
  destruct (String.eqb type "ADD").
  { apply live_call; [|done]. intros t. by apply (fire_removed_same EvAdded). }
  destruct (String.eqb type "REMOVE").
  { rewrite bind_eq. rewrite (surjective_pairing (call x onRemoved w)).
    rewrite call_result, call_state.
    destruct (onRemoved (deref w x)).1 as [[]|e] eqn:Hres.
    - unfold_monad. unfold live. simpl.
      apply Forall_forall. intros e [He Hk]%elem_of_map_delete.
      unfold live in Hlive. rewrite Forall_forall in Hlive.
      specialize (Hlive e He). unfold deref in *. simpl in *.
      destruct (decide (x = e.2)) as [->|Hne];
        [|by rewrite list_lookup_total_insert_ne].
      exfalso. apply Hk.
      assert (map_get e.1 (_targets w) = Some e.2) as Hget.
      { apply map_get_elem_NoDup; [by destruct Hwf | by destruct e]. }
      destruct (linked_lookup w e.1 e.2 Hwf Hget) as (Hlt & Htid).
      rewrite list_lookup_total_insert_eq by done.
      rewrite onRemoved_targetId. done.
    - simpl. pose proof (fire_throw_unchanged normalizeByteString
                           EvRemoved (deref w x) e Hres) as Hsame.
      simpl in Hsame. rewrite Hsame. unfold deref. rewrite insert_deref_id.
      by destruct w. }
  destruct (String.eqb type "CURRENT").
  { apply live_call; [|done]. intros t. by apply (fire_removed_same EvCurrent). }
  destruct (String.eqb type "RESET").
  { apply live_call; [|done]. intros t. by apply (fire_removed_same EvReset). }
  destruct (String.eqb type "NO_CHANGE"); [|done].
  apply live_call; [|done]. intros t.
  by apply (fire_removed_same (EvNoChange _)).
Qed.

Lemma live_forOf (body : loc -> M WatchStream unit) (f : M TargetState unit)
    (locs : list loc) (w : WatchStream) :
  acts_as body f →
  (∀ x w, linked w → live w → live (body x w).2) →
  linked w → live w → live (forOf locs body w).2.
Proof.
  intros Hbody Hstep. revert w.
  induction locs as [|x xs IH]; intros w Hwf Hlive; [done|].
  rewrite forOf_cons. destruct (Hbody x w) as (_ & _ & Hfr).
  destruct (body x w).1; [|by apply Hstep].
  apply IH; [by eapply linked_frame | by apply Hstep].
Qed.

Lemma live_call_loop (m : M TargetState unit) (locs : list loc)
    (w : WatchStream) :
  (∀ t, targetId (m t).2 = targetId t) →
  (∀ t, _removed (m t).2 = _removed t) →
  linked w → live w → live (forOf locs (fun l => call l m) w).2.
Proof.
  intros Htid Hrem. apply (live_forOf _ m); [by apply call_acts_as|].
  intros x w' _. by apply live_call.
Qed.

Lemma live_removal_loop (documentName : string) (targetIds : list Z)
    (w : WatchStream) :
  linked w → live w →
  live ((let! targetStates := _targetStatesForTargetIds targetIds false in
         forOf targetStates (fun targetState =>
           call targetState (onDocumentRemoved documentName))) w).2.
Proof.
  intros Hwf Hlive. rewrite bind_eq.
  destruct (targetStates_lookup targetIds false w) as (Hs & _).
  destruct (_targetStatesForTargetIds _ false w) as [[ts|e] w1];
    simpl in *; subst; [|done].
  apply live_call_loop; try done.
  - apply onDocumentRemoved_targetId.
  - intros t. by apply (fire_removed_same (EvDocumentRemoved documentName)).
Qed.

Lemma live_message (msg : ListenResponse) (w : WatchStream) :
  linked w → live w → live (_onMessageReceived normalizeByteString msg w).2.
Proof.
  intros Hwf Hlive. unfold _onMessageReceived.
  destruct (msg_targetChange msg) as [tc|].
  { rewrite onTargetChange_eq.
    destruct (_targetStatesForTargetIds _ true w).1; [|done].
    apply (live_forOf _ (machine_transition tc)); try done.
    - apply onTargetChange_body_acts_as.
    - apply live_body. }
  destruct (msg_documentChange msg) as [dc|].
  { rewrite onDocumentChange_eq.
    destruct (_targetStatesForTargetIds _ true w).1 as [added|e]; [|done].
    cbv zeta.
    pose proof (live_call_loop (onDocumentChanged (dc_document_name dc))
                  added w (onDocumentChanged_targetId _)) as Hl.
    pose proof (forOf_frame _ _
                  (call_acts_as (onDocumentChanged (dc_document_name dc))
                     (onDocumentChanged_targetId _)) added w) as Hfr.
    destruct (forOf added _ w) as [[[]|e] w1]; simpl in *.
    2: { apply Hl; try done. intros t.
         by apply (fire_removed_same (EvDocumentChanged _)). }
    assert (live w1) as Hlive1.
    { apply Hl; try done. intros t.
      by apply (fire_removed_same (EvDocumentChanged _)). }
    destruct (_targetStatesForTargetIds _ false w1).1 as [removed|e]; [|done].
    apply live_call_loop; try done.
    - apply onDocumentRemoved_targetId.
    - intros t. by apply (fire_removed_same (EvDocumentRemoved _)).
    - by eapply linked_frame. }
  destruct (msg_documentRemove msg) as [dr|].
  { by apply live_removal_loop. }
  destruct (msg_documentDelete msg) as [dd|].
  { by apply live_removal_loop. }
  destruct (msg_filter msg) as [ef|]; [|done].
  unfold _onExistenceFilter. unfold_monad.
  destruct (ef_targetId ef ≫= _) as [l|]; [|done].
  apply live_call; [|done]. intros t.
  by apply (fire_removed_same (EvExistenceFilter ef)).
Qed.

Lemma live_addTarget (targetInfo : WatchStreamAddTargetInfo)
    (w : WatchStream) :
  linked w → live w → live (addTarget targetInfo w).2.
Proof.
  intros Hwf Hlive.
  destruct (_stream w) as [stream|] eqn:Hs, (_closed w) eqn:Hc;
    try (by destruct (addTarget_fail targetInfo w) as [_ ->]; [auto|]).
  destruct (addTarget_ok targetInfo w) as (_ & _ & Ht & Hh & _);
    [by eauto..|].
  unfold live, deref in *. rewrite Ht, Hh. rewrite Forall_forall in *.
  intros e [->|He]%map_set_elem; simpl.
  - by rewrite list_lookup_total_middle.
  - assert (map_get e.1 (_targets w) = Some e.2) as Hget.
    { apply map_get_elem_NoDup; [by destruct Hwf | by destruct e]. }
    destruct (linked_lookup w e.1 e.2 Hwf Hget) as (Hlt & _).
    rewrite lookup_total_app_l by done. by apply Hlive.
Qed.

Lemma live_step (op : Op) (w : WatchStream) :
  linked w → live w → live (step op w).2.
Proof.
  intros Hwf Hlive. pose proof (step_registry normalizeByteString op w) as Hreg.
  destruct op as [| |i|h|h|h| |err|msg];
    try (destruct Hreg as (Ht & Hh & _); unfold live, deref in *;
         by rewrite Ht, Hh).
  - rewrite (step_state normalizeByteString). by apply live_addTarget.
  - rewrite (step_state normalizeByteString). by apply live_message.
Qed.

(** A machine that has accepted [onRemoved] is not in the registry: in
    every controller reached from a new one, the machine registered under
    an id has its "removed" flag unset. *)
Theorem registered_not_removed (projectId : string) (ops : list Op)
    (id : Z) (l : loc) :
  let w := exec ops (newWatchStream projectId) in
  map_get id (_targets w) = Some l → _removed (deref w l) = false.
Proof.
  cbv zeta.
  assert (∀ w, linked w → live w → live (exec ops w)) as H.
  { induction ops as [|op ops IH]; intros w Hwf Hlive; [done|].
    rewrite (exec_cons normalizeByteString).
    apply IH; [by apply linked_step | by apply live_step]. }
  intros Hget%map_get_Some_elem.
  assert (live (newWatchStream projectId)) as Hnew by constructor.
  specialize (H (newWatchStream projectId)
                (wf_linked _ (wf_new projectId)) Hnew).
  unfold live in H. rewrite Forall_forall in H.
  apply (H (id, l) Hget).
Qed.

(** ** Adding and removing targets *)

Lemma map_get_set_eq {V} (k : Z) (v : V) (m : list (Z * V)) :
  map_get k (map_set k v m) = Some v.
Proof.
  induction m as [|[k' v'] m IH]; simpl; [by rewrite Z.eqb_refl|].
  destruct (Z.eqb_spec k' k) as [->|Hne]; simpl.
  - by rewrite Z.eqb_refl.
  - by destruct (Z.eqb_spec k' k).
Qed.


(** A target change that names one registered id calls the transition on
    that machine and on no other. *)
Lemma onTargetChange_single (tc : TargetChange) (w : WatchStream) (id : Z)
    (l : loc) :
  tc_targetIds tc ?? [] = [id] → map_get id (_targets w) = Some l →
  let r := _onTargetChange tc w in
  r.1 = (machine_transition tc (deref w l)).1 ∧
  heap r.2 = <[l := (machine_transition tc (deref w l)).2]> (heap w) ∧
  r.2 = (onTargetChange_body tc l w).2.
Proof.
  intros Hids Hget. cbv zeta. rewrite onTargetChange_eq, Hids.
  destruct (targetStates_lookup [id] true w) as (_ & Hok & _).
  rewrite Hok.
  2: { intros id' ->%list_elem_of_singleton. eauto. }
  rewrite bool_decide_eq_false_2 by done. cbn [andb].
  assert (named [id] w = [l]) as ->
    by (unfold named; simpl; by rewrite Hget).
  rewrite forOf_cons.
  destruct (onTargetChange_body_acts_as tc l w) as (Hr & Hh & _).
  destruct (onTargetChange_body tc l w).1 as [[]|e] eqn:Hres; simpl;
    by rewrite <- Hr.
Qed.

Lemma addTarget_new_machine (targetInfo : WatchStreamAddTargetInfo)
    (w : WatchStream) :
  wf w → is_Some (_stream w) → _closed w = false →
  let w' := (addTarget targetInfo w).2 in
  map_get (_nextTargetId w) (_targets w') = Some (length (heap w)) ∧
  deref w' (length (heap w)) =
    newTargetState (_nextTargetId w)
      ((fun r => documentPaths (resume_from r)) <$> resume targetInfo) ∧
  (length (heap w) < length (heap w'))%nat.
Proof.
  intros Hwf Hs Hc. cbv zeta.
  destruct (addTarget_ok targetInfo w) as (_ & _ & Ht & Hh & _);
    [by eauto..|].
  split; [rewrite Ht; apply map_get_set_eq|]. split.
  - unfold deref. rewrite Hh. by rewrite list_lookup_total_middle.
  - rewrite Hh, length_app. simpl. lia.
Qed.

Lemma deref_insert_eq (w w' : WatchStream) (l : loc) (t : TargetState) :
  (l < length (heap w))%nat → heap w' = <[l := t]> (heap w) →
  deref w' l = t.
Proof.
  intros Hl Hh. unfold deref. rewrite Hh.
  by apply list_lookup_total_insert_eq.
Qed.

(** The promise of [addTarget] waits for the server: it is pending when
    the call returns; an [ADD] target change for the new id fulfils it
    with the handle of that id; a target change for the id that carries a
    cause rejects it with the cause, whatever its change type. *)
Theorem addTarget_then_ack (targetInfo : WatchStreamAddTargetInfo)
    (w : WatchStream) (tc : TargetChange) :
  wf w → is_Some (_stream w) → _closed w = false →
  tc_targetIds tc = Some [_nextTargetId w] →
  let id := _nextTargetId w in
  let p := AddTargetPromise id (length (heap w)) in
  let r1 := addTarget targetInfo w in
  let r2 := _onTargetChange tc r1.2 in
  r1.1 = Ok p ∧
  promise_state r1.2 p = StillPending ∧
  (cause tc = None → targetChangeType tc = Some "ADD" →
   r2.1 = Ok tt ∧
   promise_state r2.2 p = FulfilledHandle (mkTargetHandle id)) ∧
  (∀ error, cause tc = Some error →
   r2.1 = Ok tt ∧ promise_state r2.2 p = RejectedWith error).
Proof.
  intros Hwf Hs Hc Hids. cbv zeta.
  destruct (addTarget_ok targetInfo w Hs Hc) as (Hr & _).
  destruct (addTarget_new_machine targetInfo w Hwf Hs Hc)
    as (Hget & Hnew & Hlt).
  split; [done|]. split; [unfold promise_state; by rewrite Hnew|].
  destruct (onTargetChange_single tc (addTarget targetInfo w).2
              (_nextTargetId w) (length (heap w)))
    as (Hres & Hheap & _); [by rewrite Hids | done |].
  split.
  - intros Hcause Htype. unfold promise_state.
    rewrite (deref_insert_eq _ _ _ _ Hlt Hheap), Hres, Hnew.
    unfold machine_transition. by rewrite Hcause, Htype.
  - intros error Hcause. unfold promise_state.
    rewrite (deref_insert_eq _ _ _ _ Hlt Hheap), Hres, Hnew.
    unfold machine_transition. by rewrite Hcause.
Qed.

Lemma removeTarget_ok (targetHandle : TargetHandle) (w : WatchStream)
    (stream : Stream) (l : loc) :
  _stream w = Some stream → _closed w = false →
  map_get (handle_targetId targetHandle) (_targets w) = Some l →
  removeTarget targetHandle w =
  (Ok (RemovedPromise l),
   set_stream
     (Some (mkStream
              (sent stream ++
                 [mkListenRequest
                    (Some ("projects/" +:+ _projectId w
                             +:+ "/databases/(default)"))
                    None (Some (handle_targetId targetHandle))])
              (closeCalls stream))) w).
Proof.
  intros Hs Hc Hget. destruct w; simpl in *; subst.
  unfold_api. by rewrite Hget.
Qed.

(** [removeTarget] only asks: on an open stream, for a registered id, it
    sends one request naming the id and returns the promise of the
    machine's removal, in the state it has; the registry and the machines
    are as before.  It is the [REMOVE] target change of the server that
    removes.  For a machine in the Added state it returns, evicts the id
    and resolves the "removed" deferred: the promise is fulfilled when it
    was pending, and a promise that a cause has rejected stays rejected.
    For a machine that is not in the Added state, a target not yet
    acknowledged, it throws [TargetStateError] and nothing changes. *)
Theorem removeTarget_then_REMOVE (targetHandle : TargetHandle)
    (w : WatchStream) (stream : Stream) (l : loc) (tc : TargetChange) :
  wf w → _stream w = Some stream → _closed w = false →
  map_get (handle_targetId targetHandle) (_targets w) = Some l →
  tc_targetIds tc = Some [handle_targetId targetHandle] →
  cause tc = None → targetChangeType tc = Some "REMOVE" →
  let r1 := removeTarget targetHandle w in
  let r2 := _onTargetChange tc r1.2 in
  r1.1 = Ok (RemovedPromise l) ∧
  _targets r1.2 = _targets w ∧ heap r1.2 = heap w ∧
  (∃ stream',
     _stream r1.2 = Some stream' ∧
     sent stream' =
       (sent stream ++
          [mkListenRequest
             (Some ("projects/" +:+ _projectId w +:+ "/databases/(default)"))
             None (Some (handle_targetId targetHandle))])%list) ∧
  promise_state r1.2 (RemovedPromise l) =
    promise_state w (RemovedPromise l) ∧
  (Added (deref w l) →
   r2.1 = Ok tt ∧
   map_get (handle_targetId targetHandle) (_targets r2.2) = None ∧
   _removedDeferred (deref r2.2 l) =
     resolve tt (_removedDeferred (deref w l)) ∧
   (_removedDeferred (deref w l) = Pending →
    promise_state r2.2 (RemovedPromise l) = Fulfilled) ∧
   (∀ err, _removedDeferred (deref w l) = Rejected err →
    promise_state r2.2 (RemovedPromise l) = RejectedWith err)) ∧
  (¬ Added (deref w l) →
   throws TargetStateError r2.1 ∧ r2.2 = r1.2).
Proof.
  intros Hwf Hs Hc Hget Hids Hcause Htype. cbv zeta.
  rewrite (removeTarget_ok targetHandle w stream l Hs Hc Hget). simpl.
  set (w1 := set_stream _ w).
  assert (deref w1 l = deref w l) as Hsame by done.
  destruct (wf_lookup w _ l Hwf Hget) as (Hlt & Htid & _).
  split; [done|]. split; [done|]. split; [done|].
  split; [by eexists|]. split; [done|].
  destruct (onTargetChange_single tc w1 (handle_targetId targetHandle) l)
    as (Hres & Hheap & Hstate); [by rewrite Hids | done |].
  assert (machine_transition tc = onRemoved) as Hm
    by (unfold machine_transition; by rewrite Hcause, Htype).
  rewrite Hm, Hsame in *.
  split.
  - intros [Ha Hr].
    assert ((onRemoved (deref w l)).1 = Ok tt ∧
            _removedDeferred (onRemoved (deref w l)).2 =
              resolve tt (_removedDeferred (deref w l)))
      as [Hok Hres'].
    { unfold onRemoved. unfold_monad. by rewrite Ha, Hr. }
    assert (deref (_onTargetChange tc w1).2 l = (onRemoved (deref w l)).2)
      as Hd by apply (deref_insert_eq w1 _ l _ Hlt Hheap).
    split; [congruence|]. split; [|split; [|split]].
    + rewrite Hstate. unfold onTargetChange_body. rewrite Hcause, Htype.
      simpl. rewrite bind_eq.
      rewrite (surjective_pairing (call l onRemoved w1)).
      rewrite call_result, Hsame, Hok. unfold_monad.
      rewrite call_state. unfold deref at 1. simpl.
      rewrite list_lookup_total_insert_eq by done.
      rewrite onRemoved_targetId, Hsame, Htid. apply map_get_delete_eq.
    + by rewrite Hd.
    + intros Hp. unfold promise_state. by rewrite Hd, Hres', Hp.
    + intros err Hp. unfold promise_state. by rewrite Hd, Hres', Hp.
  - intros Hnot.
    assert (∃ e, (onRemoved (deref w l)).1 = Throw e ∧
                 name e = TargetStateError ∧
                 (onRemoved (deref w l)).2 = deref w l)
      as (e & He & Hname & Hun).
    { unfold onRemoved. unfold_monad.
      destruct (_added (deref w l)) eqn:Ha, (_removed (deref w l)) eqn:Hr;
        simpl; try (by eexists); exfalso; apply Hnot; by split. }
    split; [rewrite Hres, He; exact Hname|].
    rewrite Hstate. unfold onTargetChange_body. rewrite Hcause, Htype.
    simpl. rewrite bind_eq.
    rewrite (surjective_pairing (call l onRemoved w1)).
    rewrite call_result, call_state, Hsame, He. simpl.
    rewrite Hun. unfold deref. rewrite insert_deref_id.
    by destruct w.
Qed.

(** ** Target changes that carry a cause or an unknown type *)

Lemma forOf_ext {A} (xs : list A) (b1 b2 : A -> M WatchStream unit)
    (w : WatchStream) :
  (∀ x w', b1 x w' = b2 x w') → forOf xs b1 w = forOf xs b2 w.
Proof.
  intros Hext. revert w. induction xs as [|x xs IH]; intros w; [done|].
  rewrite !forOf_cons, Hext. destruct (b2 x w).1; [apply IH | done].
Qed.

Lemma iter_idempotent {A} (f : A -> A) (n : nat) (a : A) :
  (∀ a, f (f a) = f a) → (0 < n)%nat → Nat.iter n f a = f a.
Proof.
  intros Hf Hn. destruct n as [|n]; [lia|]. clear Hn.
  induction n as [|n IH]; [done|]. simpl in *. by rewrite IH.
Qed.

Lemma count_occ_pos (locs : list loc) (l : loc) :
  l ∈ locs → (0 < count_occ Nat.eq_dec locs l)%nat.
Proof. rewrite list_elem_of_In. apply count_occ_In. Qed.

Lemma reject_idempotent {A} (err : Status) (d : Deferred A) :
  reject err (reject err d) = reject err d.
Proof. by destruct d. Qed.

Lemma onError_idempotent (error : Status) (t : TargetState) :
  (onError error (onError error t).2).2 = (onError error t).2.
Proof.
  destruct t as [tid a r c acc d1 d2 d3 d4].
  by destruct d1, d2, d3, d4.
Qed.

(** The machines a target change reaches: all the registered ones when
    its list of ids is empty, the named ones otherwise. *)
Lemma reached_machines (targetIds : list Z) (w : WatchStream) :
  wf w →
  (∀ id, id ∈ targetIds → is_Some (map_get id (_targets w))) →
  ∃ locs,
    (_targetStatesForTargetIds targetIds true w).1 = Ok locs ∧
    (∀ x, x ∈ locs → (x < length (heap w))%nat) ∧
    (∀ id l, map_get id (_targets w) = Some l →
             l ∈ locs ↔ targetIds = [] ∨ id ∈ targetIds).
Proof.
  intros Hwf Hall.
  destruct (targetStates_lookup targetIds true w) as (_ & Hok & _).
  eexists. split; [by apply Hok|].
  destruct (decide (targetIds = [])) as [->|Hne].
  - simpl. split.
    + intros x [id Hx]%elem_of_values; [|done].
      by destruct (wf_lookup w id x Hwf Hx).
    + intros id l Hget. split; [by left|]. intros _.
      apply elem_of_values; eauto.
  - rewrite bool_decide_eq_false_2 by done. simpl. split.
    + intros x (id & _ & Hx)%elem_of_named.
      by destruct (wf_lookup w id x Hwf Hx).
    + intros id l Hget. rewrite elem_of_named. split.
      * intros (id' & Hin & Hget'). right.
        by rewrite (wf_inj w id id' l Hwf Hget Hget').
      * intros [?|Hin]; [done|]. eauto.
Qed.

(** A target change that carries a cause is an error report and nothing
    else: for registered ids it returns; every machine it reaches, the
    named ones or all of them for an empty list, has run [onError] with
    the cause; the change type is ignored, so that no machine is evicted;
    and a machine that is not named is as it was. *)
Theorem targetChange_cause_rejects (tc : TargetChange) (w : WatchStream)
    (error : Status) :
  wf w → cause tc = Some error →
  (∀ id, id ∈ tc_targetIds tc ?? [] → is_Some (map_get id (_targets w))) →
  let r := _onTargetChange tc w in
  r.1 = Ok tt ∧ _targets r.2 = _targets w ∧
  ∀ id l, map_get id (_targets w) = Some l →
    (tc_targetIds tc ?? [] = [] ∨ id ∈ tc_targetIds tc ?? [] →
     deref r.2 l = (onError error (deref w l)).2) ∧
    (tc_targetIds tc ?? [] ≠ [] → id ∉ tc_targetIds tc ?? [] →
     deref r.2 l = deref w l).
Proof.
  intros Hwf Hcause Hall. cbv zeta. rewrite onTargetChange_eq.
  destruct (reached_machines _ w Hwf Hall) as (locs & -> & Hvalid & Hreach).
  rewrite (forOf_ext locs _ (fun l => call l (onError error))).
  2: { intros x w'. unfold onTargetChange_body. by rewrite Hcause. }
  pose proof (call_acts_as (onError error) (onError_targetId error)) as Hbody.
  destruct (forOf_accepting _ _ Hbody (fun _ => True) locs w) as [Hok _];
    [done | by auto |].
  split; [done|]. split; [apply forOf_call_targets|].
  intros id l Hget. split.
  - intros Hin%(Hreach id l Hget).
    rewrite (forOf_effect _ _ Hbody) by done.
    apply (iter_idempotent (fun t => (onError error t).2));
      [apply onError_idempotent | by apply count_occ_pos].
  - intros Hne Hnot. apply (forOf_untouched _ _ Hbody).
    rewrite (Hreach id l Hget). by intros [?|?].
Qed.

(** A target change without a cause whose type is none of the five known
    ones throws [WatchError] at the first machine it reaches and changes
    nothing; when it reaches no machine, an empty list on an empty
    registry, it returns. *)
Theorem unknown_targetChangeType (tc : TargetChange) (w : WatchStream) :
  wf w → cause tc = None →
  known_type (targetChangeType tc ?? "NO_CHANGE") = false →
  (∀ id, id ∈ tc_targetIds tc ?? [] → is_Some (map_get id (_targets w))) →
  let r := _onTargetChange tc w in
  r.2 = w ∧
  (tc_targetIds tc ?? [] ≠ [] ∨ _targets w ≠ [] → throws WatchError r.1) ∧
  (tc_targetIds tc ?? [] = [] → _targets w = [] → r.1 = Ok tt).
Proof.
  intros Hwf Hcause Htype Hall. cbv zeta. rewrite onTargetChange_eq.
  destruct (targetStates_lookup (tc_targetIds tc ?? []) true w)
    as (_ & Hok & _).
  rewrite (Hok Hall).
  assert (∀ x w', onTargetChange_body tc x w' =
                  (Throw (mkError WatchError
                            [Lit "unknown targetChangeType: ";
                             match targetChangeType tc with
                             | Some t => Str t
                             | None => Undefined
                             end]), w')) as Hbody.
  { intros x w'. unfold onTargetChange_body. rewrite Hcause. cbv zeta.
    unfold known_type in Htype.
    repeat (apply orb_false_elim in Htype as [Htype ?]).
    by repeat match goal with H : String.eqb _ _ = false |- _ =>
                rewrite H; clear H end. }
  destruct (decide (tc_targetIds tc ?? [] = [])) as [Hnil|Hne].
  - rewrite Hnil. rewrite bool_decide_eq_true_2 by done. cbn [andb].
    destruct (_targets w) as [|e m] eqn:Ht.
    + repeat split; try done. by intros [?|?].
    + unfold map_values. rewrite fmap_cons, forOf_cons, Hbody.
      repeat split; try done.
  - rewrite bool_decide_eq_false_2 by done. cbn [andb].
    destruct (tc_targetIds tc ?? []) as [|id ids] eqn:Hids; [done|].
    destruct (Hall id) as [l Hget]; [by left|].
    assert (named (id :: ids) w = l :: named ids w) as ->
      by (unfold named; simpl; by rewrite Hget).
    rewrite forOf_cons, Hbody. repeat split; try done.
Qed.

(** ** Document changes, removes and deletes *)

(** A loop that calls, on the machines of registered ids in the Added
    state, a method that returns there, keeps the state Added and is
    idempotent on the machine: it returns, each named machine has run the
    method, and the others and the registry are as before. *)
Lemma named_loop_effect (m : M TargetState unit) (targetIds : list Z)
    (w : WatchStream) :
  wf w →
  (∀ t, targetId (m t).2 = targetId t) →
  (∀ t, (m (m t).2).2 = (m t).2) →
  (∀ t, Added t → (m t).1 = Ok tt ∧ Added (m t).2) →
  (∀ id, id ∈ targetIds →
         ∃ l, map_get id (_targets w) = Some l ∧ Added (deref w l)) →
  let r := forOf (named targetIds w) (fun l => call l m) w in
  r.1 = Ok tt ∧ _targets r.2 = _targets w ∧ wf r.2 ∧
  ∀ id l, map_get id (_targets w) = Some l →
    (id ∈ targetIds → deref r.2 l = (m (deref w l)).2) ∧
    (id ∉ targetIds → deref r.2 l = deref w l).
Proof.
  intros Hwf Htid Hidem Hadded Hall. cbv zeta.
  pose proof (call_acts_as m Htid) as Hbody.
  assert (∀ x, x ∈ named targetIds w →
               (x < length (heap w))%nat ∧ Added (deref w x)) as Hnamed.
  { intros x (id & Hin & Hget)%elem_of_named.
    destruct (Hall id Hin) as (l' & Hget' & HA).
    assert (l' = x) as -> by congruence.
    split; [|done]. by destruct (wf_lookup w id x Hwf Hget). }
  destruct (forOf_accepting _ _ Hbody Added (named targetIds w) w)
    as [Hok _]; [done..|].
  split; [done|]. split; [apply forOf_call_targets|].
  split; [eapply wf_frame; [done|]; by apply (forOf_frame _ _ Hbody)|].
  intros id l Hget. split.
  - intros Hin. rewrite (forOf_effect _ _ Hbody);
      [|intros x Hx; by destruct (Hnamed x Hx)|done].
    apply (iter_idempotent (fun t => (m t).2)); [done|].
    apply count_occ_pos, elem_of_named. eauto.
  - intros Hnot. apply (forOf_untouched _ _ Hbody).
    intros (id' & Hin & Hget')%elem_of_named.
    by rewrite (wf_inj w id id' l Hwf Hget Hget') in Hnot.
Qed.

Lemma onDocumentRemoved_idempotent (documentName : string)
    (t : TargetState) :
  (onDocumentRemoved documentName (onDocumentRemoved documentName t).2).2 =
  (onDocumentRemoved documentName t).2.
Proof.
  destruct t as [tid [] [] c acc d1 d2 d3 d4]; try done.
  unfold onDocumentRemoved. unfold_monad.
  unfold upd_accumulatedDocumentNames, set_current. simpl. f_equal.
  set_solver.
Qed.

Lemma onDocumentChanged_idempotent (documentName : string)
    (t : TargetState) :
  (onDocumentChanged documentName (onDocumentChanged documentName t).2).2 =
  (onDocumentChanged documentName t).2.
Proof.
  destruct t as [tid [] [] c acc d1 d2 d3 d4]; try done.
  unfold onDocumentChanged. unfold_monad.
  unfold upd_accumulatedDocumentNames, set_current. simpl. f_equal.
  set_solver.
Qed.

Lemma onDocumentRemoved_effect (documentName : string) (t : TargetState) :
  Added t →
  _accumulatedDocumentNames (onDocumentRemoved documentName t).2 =
    _accumulatedDocumentNames t ∖ {[documentName]} ∧
  _current (onDocumentRemoved documentName t).2 = false.
Proof.
  intros [Ha Hr]. unfold onDocumentRemoved. unfold_monad.
  by rewrite Ha, Hr.
Qed.

Lemma onDocumentChanged_effect (documentName : string) (t : TargetState) :
  Added t →
  _accumulatedDocumentNames (onDocumentChanged documentName t).2 =
    _accumulatedDocumentNames t ∪ {[documentName]} ∧
  _current (onDocumentChanged documentName t).2 = false.
Proof.
  intros [Ha Hr]. unfold onDocumentChanged. unfold_monad.
  by rewrite Ha, Hr.
Qed.

Lemma removal_loop_eq (documentName : string) (targetIds : list Z)
    (w : WatchStream) :
  (∀ id, id ∈ targetIds → is_Some (map_get id (_targets w))) →
  (let! targetStates := _targetStatesForTargetIds targetIds false in
   forOf targetStates (fun targetState =>
     call targetState (onDocumentRemoved documentName))) w =
  forOf (named targetIds w)
    (fun l => call l (onDocumentRemoved documentName)) w.
Proof.
  intros Hall. rewrite bind_eq.
  destruct (targetStates_lookup targetIds false w) as (Hs & Hok & _).
  specialize (Hok Hall). rewrite andb_false_r in Hok.
  destruct (_targetStatesForTargetIds targetIds false w) as [r w1].
  simpl in *. by subst.
Qed.

(** A document remove, and in the same way a document delete, takes the
    document out of the set of the machines its [removedTargetIds] name,
    which become not current, and of no other: with ids registered to
    machines in the Added state the call returns, the registry is as
    before, and a machine that is not named is untouched; in particular an
    empty list changes nothing. *)
Theorem onDocumentRemove_effect (dr : DocumentRemove) (w : WatchStream) :
  wf w →
  (∀ id, id ∈ dr_removedTargetIds dr ?? [] →
         ∃ l, map_get id (_targets w) = Some l ∧ Added (deref w l)) →
  let r := _onDocumentRemove dr w in
  _onDocumentDelete dr w = r ∧
  r.1 = Ok tt ∧ _targets r.2 = _targets w ∧
  (dr_removedTargetIds dr ?? [] = [] → r.2 = w) ∧
  ∀ id l, map_get id (_targets w) = Some l →
    (id ∈ dr_removedTargetIds dr ?? [] →
     _accumulatedDocumentNames (deref r.2 l) =
       _accumulatedDocumentNames (deref w l) ∖ {[dr_document dr]} ∧
     _current (deref r.2 l) = false) ∧
    (id ∉ dr_removedTargetIds dr ?? [] → deref r.2 l = deref w l).
Proof.
  intros Hwf Hall. cbv zeta. split; [done|].
  unfold _onDocumentRemove. rewrite removal_loop_eq.
  2: { intros id Hin. destruct (Hall id Hin) as (l & -> & _). eauto. }
  destruct (named_loop_effect (onDocumentRemoved (dr_document dr))
              (dr_removedTargetIds dr ?? []) w Hwf)
    as (Hok & Htg & _ & Heff); try done.
  { apply onDocumentRemoved_targetId. }
  { apply onDocumentRemoved_idempotent. }
  { apply onDocumentRemoved_Added. }
  split; [done|]. split; [done|]. split.
  { intros ->. done. }
  intros id l Hget. destruct (Heff id l Hget) as [Hin Hout].
  split; [|done]. intros Hid. rewrite (Hin Hid).
  apply onDocumentRemoved_effect.
  destruct (Hall id Hid) as (l' & Hget' & HA). congruence.
Qed.

Lemma onDocumentChange_named (dc : DocumentChange) (w : WatchStream) :
  dc_targetIds dc ?? [] ≠ [] →
  (∀ id, id ∈ dc_targetIds dc ?? [] → is_Some (map_get id (_targets w))) →
  _onDocumentChange dc w =
  let r1 :=
    forOf (named (dc_targetIds dc ?? []) w)
      (fun l => call l (onDocumentChanged (dc_document_name dc))) w in
  match r1.1 with
  | Throw e => (Throw e, r1.2)
  | Ok _ =>
      match (_targetStatesForTargetIds
               (dc_removedTargetIds dc ?? []) false r1.2).1 with
      | Throw e => (Throw e, r1.2)
      | Ok removed =>
          forOf removed
            (fun l => call l (onDocumentRemoved (dc_document_name dc))) r1.2
      end
  end.
Proof.
  intros Hne Hall. rewrite onDocumentChange_eq.
  destruct (targetStates_lookup (dc_targetIds dc ?? []) true w)
    as (_ & Hok & _).
  rewrite (Hok Hall). by rewrite bool_decide_eq_false_2.
Qed.

(** A document change with a non-empty [targetIds], all of whose ids are
    registered to machines in the Added state: the call returns and the
    registry is as before; a machine named in [removedTargetIds] loses the
    document, a machine named only in [targetIds] gains it, both become
    not current, and a machine named in neither list is untouched. *)
Theorem onDocumentChange_effect (dc : DocumentChange) (w : WatchStream) :
  wf w →
  dc_targetIds dc ?? [] ≠ [] →
  (∀ id, id ∈ dc_targetIds dc ?? [] ∨ id ∈ dc_removedTargetIds dc ?? [] →
         ∃ l, map_get id (_targets w) = Some l ∧ Added (deref w l)) →
  let r := _onDocumentChange dc w in
  r.1 = Ok tt ∧ _targets r.2 = _targets w ∧
  ∀ id l, map_get id (_targets w) = Some l →
    (id ∈ dc_removedTargetIds dc ?? [] →
     _accumulatedDocumentNames (deref r.2 l) =
       _accumulatedDocumentNames (deref w l) ∖ {[dc_document_name dc]} ∧
     _current (deref r.2 l) = false) ∧
    (id ∈ dc_targetIds dc ?? [] → id ∉ dc_removedTargetIds dc ?? [] →
     _accumulatedDocumentNames (deref r.2 l) =
       _accumulatedDocumentNames (deref w l) ∪ {[dc_document_name dc]} ∧
     _current (deref r.2 l) = false) ∧
    (id ∉ dc_targetIds dc ?? [] → id ∉ dc_removedTargetIds dc ?? [] →
     deref r.2 l = deref w l).
Proof.
  intros Hwf Hne Hall. cbv zeta.
  set (tids := dc_targetIds dc ?? []) in *.
  set (rids := dc_removedTargetIds dc ?? []) in *.
  set (name := dc_document_name dc).
  rewrite onDocumentChange_named.
  2: done.
  2: { intros id Hin. destruct (Hall id (or_introl Hin)) as (l & -> & _).
       eauto. }
  fold tids rids name. cbv zeta.
  destruct (named_loop_effect (onDocumentChanged name) tids w Hwf)
    as (Hok1 & Htg1 & Hwf1 & Heff1).
  { apply onDocumentChanged_targetId. }
  { apply onDocumentChanged_idempotent. }
  { apply onDocumentChanged_Added. }
  { intros id Hin. apply Hall. by left. }
  set (w1 := (forOf (named tids w) _ w).2) in *. rewrite Hok1.
  assert (∀ id l, map_get id (_targets w) = Some l →
                  Added (deref w l) → Added (deref w1 l)) as Hkeep.
  { intros id l Hget HA. destruct (Heff1 id l Hget) as [Hin Hout].
    destruct (decide (id ∈ tids)) as [Hid|Hid].
    - rewrite (Hin Hid). by apply onDocumentChanged_Added.
    - by rewrite (Hout Hid). }
  assert (∀ id, id ∈ rids →
                ∃ l, map_get id (_targets w1) = Some l ∧ Added (deref w1 l))
    as Hall1.
  { intros id Hin. destruct (Hall id (or_intror Hin)) as (l & Hget & HA).
    exists l. rewrite Htg1. split; [done|]. by eapply Hkeep. }
  destruct (targetStates_lookup rids false w1) as (_ & Hok & _).
  rewrite Hok, andb_false_r.
  2: { intros id Hin. destruct (Hall1 id Hin) as (l & -> & _). eauto. }
  destruct (named_loop_effect (onDocumentRemoved name) rids w1 Hwf1)
    as (Hok2 & Htg2 & _ & Heff2); try done.
  { apply onDocumentRemoved_targetId. }
  { apply onDocumentRemoved_idempotent. }
  { apply onDocumentRemoved_Added. }
  split; [done|]. split; [congruence|].
  intros id l Hget.
  assert (map_get id (_targets w1) = Some l) as Hget1 by congruence.
  destruct (Heff1 id l Hget) as [Hin1 Hout1].
  destruct (Heff2 id l Hget1) as [Hin2 Hout2].
  split; [|split].
  - intros Hr. rewrite (Hin2 Hr).
    destruct (Hall id (or_intror Hr)) as (l' & Hget' & HA).
    assert (l' = l) as -> by congruence.
    destruct (onDocumentRemoved_effect name (deref w1 l)) as [-> ->];
      [by eapply Hkeep|].
    split; [|done].
    destruct (decide (id ∈ tids)) as [Hid|Hid].
    + rewrite (Hin1 Hid).
      destruct (onDocumentChanged_effect name (deref w l) HA) as [-> _].
      set_solver.
    + by rewrite (Hout1 Hid).
  - intros Ht Hr. rewrite (Hout2 Hr), (Hin1 Ht).
    destruct (Hall id (or_introl Ht)) as (l' & Hget' & HA).
    assert (l' = l) as -> by congruence.
    by apply onDocumentChanged_effect.
  - intros Ht Hr. by rewrite (Hout2 Hr), (Hout1 Ht).
Qed.

(** An unknown id aborts a document change where it is met.  When it is
    in [targetIds], [WatchError] is thrown before anything is done.  When
    [targetIds], not empty, is registered to machines in the Added state
    and the unknown id is in [removedTargetIds], [WatchError] is thrown
    after the additions: these stay applied, and no removal is made. *)
Theorem onDocumentChange_unknown_id (dc : DocumentChange) (w : WatchStream)
    (unknown : Z) :
  wf w → map_get unknown (_targets w) = None →
  let r := _onDocumentChange dc w in
  (unknown ∈ dc_targetIds dc ?? [] → throws WatchError r.1 ∧ r.2 = w) ∧
  (dc_targetIds dc ?? [] ≠ [] →
   (∀ id, id ∈ dc_targetIds dc ?? [] →
          ∃ l, map_get id (_targets w) = Some l ∧ Added (deref w l)) →
   unknown ∈ dc_removedTargetIds dc ?? [] →
   throws WatchError r.1 ∧
   ∀ id l, map_get id (_targets w) = Some l →
     (id ∈ dc_targetIds dc ?? [] →
      deref r.2 l = (onDocumentChanged (dc_document_name dc) (deref w l)).2) ∧
     (id ∉ dc_targetIds dc ?? [] → deref r.2 l = deref w l)).
Proof.
  intros Hwf Hunknown. cbv zeta. split.
  - intros Hin. rewrite onDocumentChange_eq.
    destruct (targetStates_lookup (dc_targetIds dc ?? []) true w)
      as (_ & _ & Hthrow).
    specialize (Hthrow unknown Hin Hunknown).
    by destruct (_targetStatesForTargetIds _ true w).1.
  - intros Hne Hall Hin.
    set (tids := dc_targetIds dc ?? []) in *.
    set (rids := dc_removedTargetIds dc ?? []) in *.
    set (name := dc_document_name dc).
    rewrite onDocumentChange_named.
    2: done.
    2: { intros id Hid. destruct (Hall id Hid) as (l & -> & _). eauto. }
    fold tids rids name. cbv zeta.
    destruct (named_loop_effect (onDocumentChanged name) tids w Hwf)
      as (Hok1 & Htg1 & Hwf1 & Heff1); try done.
    { apply onDocumentChanged_targetId. }
    { apply onDocumentChanged_idempotent. }
    { apply onDocumentChanged_Added. }
    set (w1 := (forOf (named tids w) _ w).2) in *. rewrite Hok1.
    destruct (targetStates_lookup rids false w1) as (_ & _ & Hthrow).
    specialize (Hthrow unknown Hin). rewrite Htg1 in Hthrow.
    specialize (Hthrow Hunknown).
    destruct (_targetStatesForTargetIds rids false w1).1; [done|].
    split; [done|]. simpl. done.
Qed.

(** ** Existence filters through the controller *)

Lemma createBloomFilterFrom_result {S} (ef : ExistenceFilter) (s : S) :
  createBloomFilterFrom normalizeByteString ef s =
  ((createBloomFilterFrom normalizeByteString ef tt).1, s).
Proof.
  unfold createBloomFilterFrom. unfold_monad. by repeat case_match.
Qed.

Lemma set_heap_id (w : WatchStream) : set_heap (heap w) w = w.
Proof. by destruct w. Qed.

(** An existence filter names one target.  Without a target id, or with
    one that is not registered, [WatchError] is thrown and nothing
    changes.  For a registered machine in the Added state: an invalid
    filter throws the error of [createBloomFilterFrom] and nothing
    changes, the promise staying as it was; a valid one resolves the
    machine's existence-filter deferred with the filter, or with [null]
    when the message has no [unchangedNames], and touches no other
    machine and not the registry. *)
Theorem onExistenceFilter_dispatch (ef : ExistenceFilter) (w : WatchStream) :
  let r := _onExistenceFilter normalizeByteString ef w in
  let made := (createBloomFilterFrom normalizeByteString ef tt).1 in
  (ef_targetId ef = None ∨
   (∃ id, ef_targetId ef = Some id ∧ map_get id (_targets w) = None) →
   throws WatchError r.1 ∧ r.2 = w) ∧
  (∀ id l,
     wf w → ef_targetId ef = Some id → map_get id (_targets w) = Some l →
     Added (deref w l) →
     (∀ e, made = Throw e → r.1 = Throw e ∧ r.2 = w) ∧
     (∀ f, made = Ok f →
        r.1 = Ok tt ∧ _targets r.2 = _targets w ∧
        (∀ l', l' ≠ l → deref r.2 l' = deref w l') ∧
        _existenceFilterDeferred (deref r.2 l) =
          resolve f (_existenceFilterDeferred (deref w l)) ∧
        (_existenceFilterDeferred (deref w l) = Pending →
         promise_state r.2 (ExistenceFilterPromise l) = FulfilledFilter f))).
Proof.
  cbv zeta. unfold _onExistenceFilter. rewrite bind_eq. unfold get at 1.
  split.
  - intros [Hnone|(id & Hid & Hget)].
    + rewrite Hnone. by simpl.
    + rewrite Hid. simpl. by rewrite Hget.
  - intros id l Hwf Hid Hget [Ha Hr]. rewrite Hid. simpl. rewrite Hget.
    destruct (wf_lookup w id l Hwf Hget) as (Hlt & _).
    rewrite (surjective_pairing (call l _ w)), call_result, call_state.
    assert (onExistenceFilter normalizeByteString ef (deref w l) =
            match (createBloomFilterFrom normalizeByteString ef tt).1 with
            | Ok f =>
                (Ok tt, upd_existenceFilterDeferred (resolve f) (deref w l))
            | Throw e => (Throw e, deref w l)
            end) as ->.
    { unfold onExistenceFilter. unfold_monad. rewrite Ha, Hr. simpl.
      rewrite createBloomFilterFrom_result.
      by destruct (createBloomFilterFrom normalizeByteString ef ()).1. }
    split.
    + intros e ->. simpl. split; [done|]. unfold deref.
      by rewrite insert_deref_id, set_heap_id.
    + intros f ->. simpl. split; [done|]. split; [done|]. split; [|split].
      * intros l' Hne. unfold deref. simpl.
        by rewrite list_lookup_total_insert_ne.
      * unfold deref. simpl. by rewrite list_lookup_total_insert_eq.
      * intros Hd. unfold promise_state, deref. simpl.
        rewrite list_lookup_total_insert_eq by done. simpl.
        unfold deref in Hd. by rewrite Hd.
Qed.

(** ** What only inbound messages do *)




(** ** The promises of the stream *)

Lemma step_stream_deferreds (op : Op) (w : WatchStream) :
  (_closedDeferred w ≠ Pending →
   _closedDeferred (step op w).2 = _closedDeferred w) ∧
  (is_Some (_stream w) → open_deferred w ≠ Pending →
   open_deferred (step op w).2 = open_deferred w).
Proof.
  rewrite (step_state normalizeByteString).
  destruct op as [| |i|h|h|h| |err|msg].
  9: { destruct (onMessageReceived_frame normalizeByteString msg w)
         as (_&_&_&Hc&_&Ho&_). by rewrite Hc, Ho. }
  3: { destruct (_stream w) as [stream|] eqn:Hs, (_closed w) eqn:Hc;
         try (by destruct (addTarget_fail i w) as [_ ->]; [auto|]).
       destruct w; simpl in *; subst. by unfold_api. }
  all: destruct w as [? [stream|] [] dc ? ? ? do]; unfold_api;
    repeat case_match; simplify_eq/=; split; intros; try done;
    first [by destruct dc | by destruct do | by destruct select (is_Some None)].
Qed.

(** The two promises of the stream are settled at most once: over any
    sequence of operations a settled "closed" deferred keeps its outcome,
    and so does the deferred of [open()] once the stream exists, since
    [open()] cannot succeed a second time. *)
Theorem stream_promises_settle_once (ops : list Op) (w : WatchStream) :
  (_closedDeferred w ≠ Pending →
   _closedDeferred (exec ops w) = _closedDeferred w) ∧
  (is_Some (_stream w) → open_deferred w ≠ Pending →
   open_deferred (exec ops w) = open_deferred w).
Proof.
  revert w. induction ops as [|op ops IH]; intros w; [done|].
  rewrite (exec_cons normalizeByteString).
  destruct (step_stream_deferreds op w) as [Hc Ho].
  destruct (IH (step op w).2) as [IHc IHo].
  destruct (step_lifecycle normalizeByteString op w) as (_ & Hs & _).
  split.
  - intros H. rewrite IHc; rewrite Hc; done.
  - intros Hst H. rewrite IHo; [by apply Ho | by apply Hs|].
    by rewrite Ho.
Qed.

(** ** The initial snapshot through the controller *)

(** For a registered machine in the Added state whose initial snapshot is
    pending, a [CURRENT] target change followed by a [NO_CHANGE] one with
    a resume token, an absent change type counting as [NO_CHANGE], both
    naming the id, are processed without error, and then
    [getInitialSnapshot] returns a promise that is fulfilled with the
    accumulated set of the machine and the token.  The [NO_CHANGE] alone,
    on a machine that is not current, leaves the promise pending. *)
Theorem snapshot_through_controller (w : WatchStream) (id : Z) (l : loc)
    (token : ByteString) (type : option string) :
  wf w → map_get id (_targets w) = Some l → Added (deref w l) →
  _initialSnapshotDeferred (deref w l) = Pending →
  type ?? "NO_CHANGE" = "NO_CHANGE" →
  let current := mkTargetChange (Some [id]) None (Some "CURRENT") None in
  let noChange := mkTargetChange (Some [id]) None type (Some token) in
  let r1 := _onTargetChange current w in
  let r2 := _onTargetChange noChange r1.2 in
  r1.1 = Ok tt ∧ r2.1 = Ok tt ∧
  (getInitialSnapshot (mkTargetHandle id) r2.2).1 =
    Ok (InitialSnapshotPromise l) ∧
  promise_state r2.2 (InitialSnapshotPromise l) =
    FulfilledSnapshot
      (mkTargetSnapshot (_accumulatedDocumentNames (deref w l)) token) ∧
  (_current (deref w l) = false →
   promise_state (_onTargetChange noChange w).2 (InitialSnapshotPromise l) =
     StillPending).
Proof.
  intros Hwf Hget [Ha Hr] Hd Htype. cbv zeta.
  set (current := mkTargetChange (Some [id]) None (Some "CURRENT") None).
  set (noChange := mkTargetChange (Some [id]) None type (Some token)).
  destruct (wf_lookup w id l Hwf Hget) as (Hlt & _).
  assert (machine_transition current = onCurrent) as Hmc by done.
  assert (machine_transition noChange = onNoChange (Some token)) as Hmn.
  { unfold machine_transition. simpl. by rewrite Htype. }
  assert (∀ w', onTargetChange_body current l w' = call l onCurrent w')
    as Hbc by done.
  assert (∀ w', onTargetChange_body noChange l w' =
                call l (onNoChange (Some token)) w') as Hbn.
  { intros w'. unfold onTargetChange_body. simpl. by rewrite Htype. }
  destruct (onTargetChange_single current w id l eq_refl Hget)
    as (Hres1 & Hheap1 & Hst1).
  rewrite Hmc in *. rewrite Hbc, call_state in Hst1.
  set (w1 := (_onTargetChange current w).2) in *.
  assert (onCurrent (deref w l) = (Ok tt, set_current true (deref w l)))
    as Hcur.
  { unfold onCurrent. unfold_monad. by rewrite Ha, Hr. }
  rewrite Hcur in *. simpl in *.
  assert (map_get id (_targets w1) = Some l) as Hget1 by (by rewrite Hst1).
  assert (deref w1 l = set_current true (deref w l)) as Hd1
    by (by apply (deref_insert_eq w)).
  assert (l < length (heap w1))%nat as Hlt1
    by (by rewrite Hheap1, length_insert).
  destruct (onTargetChange_single noChange w1 id l eq_refl Hget1)
    as (Hres2 & Hheap2 & Hst2).
  rewrite Hmn, Hd1 in *. rewrite Hbn, call_state in Hst2.
  assert (onNoChange (Some token) (set_current true (deref w l)) =
          (Ok tt,
           upd_initialSnapshotDeferred
             (resolve (mkTargetSnapshot
                         (_accumulatedDocumentNames (deref w l)) token))
             (set_current true (deref w l)))) as Hnc.
  { unfold onNoChange. unfold_monad. simpl. by rewrite Ha, Hr. }
  rewrite Hd1, Hnc in *. simpl in *.
  set (w2 := (_onTargetChange noChange w1).2) in *.
  split; [done|]. split; [done|]. split; [|split].
  - unfold_api. rewrite Hst2. simpl. by rewrite Hget1.
  - unfold promise_state.
    rewrite (deref_insert_eq w1 w2 l _ Hlt1 Hheap2). simpl. by rewrite Hd.
  - intros Hnot.
    destruct (onTargetChange_single noChange w id l eq_refl Hget)
      as (_ & Hheap & _).
    unfold promise_state. rewrite (deref_insert_eq w _ l _ Hlt Hheap), Hmn.
    unfold onNoChange. unfold_monad. rewrite Ha, Hr, Hnot. simpl.
    by rewrite Hd.
Qed.

(** ** Requests and the registry *)

Lemma map_set_keys {V} (k k' : Z) (v : V) (m : list (Z * V)) :
  k' ∈ map_keys (map_set k v m) → k' = k ∨ k' ∈ map_keys m.
Proof.
  unfold map_keys. induction m as [|[k1 v1] m IH]; simpl.
  - intros ->%list_elem_of_singleton. by left.
  - destruct (Z.eqb_spec k1 k) as [->|Hne]; simpl.
    + intros [->|?]%elem_of_cons; [by left|]. right. by right.
    + intros [->|[?|?]%IH]%elem_of_cons; [right; by left | by left|].
      right. by right.
Qed.

Lemma requested_grow (w w' : WatchStream) :
  requested w →
  _projectId w' = _projectId w → _targets w' = _targets w →
  match _stream w, _stream w' with
  | None, None => True
  | Some stream, Some stream' =>
      ∃ ext,
        sent stream' = (sent stream ++ ext)%list ∧
        ∀ req, req ∈ ext →
               database req =
                 Some ("projects/" +:+ _projectId w
                         +:+ "/databases/(default)")
  | None, Some stream' => sent stream' = []
  | Some _, None => False
  end →
  requested w'.
Proof.
  unfold requested. intros Hreq Hp Ht.
  destruct (_stream w) as [stream|], (_stream w') as [stream'|];
    rewrite ?Hp, ?Ht; try done.
  - intros (ext & Hsent & Hext). destruct Hreq as [Hdb Hk].
    rewrite Hsent. split.
    + intros req [?|?]%elem_of_app; auto.
    + intros id Hid. destruct (Hk id Hid) as (req & r & Hin & Hr).
      exists req, r. split; [|done]. apply elem_of_app. by left.
  - intros Hsent. rewrite Hsent, Hreq. split.
    + by intros req ?%elem_of_nil.
    + by intros id ?%elem_of_nil.
Qed.

Lemma requested_step (op : Op) (w : WatchStream) :
  requested w → requested (step op w).2.
Proof.
  intros Hreq. rewrite (step_state normalizeByteString).
  destruct op as [| |i|h|h|h| |err|msg].
  9: { destruct (onMessageReceived_frame normalizeByteString msg w)
         as (Hp&Hs&_&_&_&_&Hsub&_).
       unfold requested in *. rewrite Hs, Hp.
       destruct (_stream w) as [stream|].
       - destruct Hreq as [Hdb Hkeys]. split; [done|].
         intros id Hid. apply Hkeys. eapply elem_of_sublist; [done|].
         unfold map_keys. by apply fmap_sublist.
       - rewrite Hreq in Hsub. by apply sublist_nil_r in Hsub. }
  3: { destruct (_stream w) as [stream|] eqn:Hs, (_closed w) eqn:Hc;
         try (destruct (addTarget_fail i w) as [_ ->]; [by auto|];
              unfold requested in *; simpl; by rewrite Hs in *).
       destruct (addTarget_ok i w) as (_ & _ & Ht & _); [by eauto..|].
       unfold requested in *. rewrite Hs in Hreq. destruct Hreq as [Hdb Hk].
       rewrite Ht. clear Ht.
       destruct w as [p s c dc n ts hp od]; simpl in *; subst.
       unfold_api. split.
       - intros req [Hin| ->%list_elem_of_singleton]%elem_of_app; auto.
       - intros id [->|Hin]%map_set_keys.
         + eexists _, _. split.
           { apply elem_of_app. right. apply list_elem_of_here. }
           simpl. split; reflexivity.
         + destruct (Hk id Hin) as (req & r & Hreqin & Hadd & Hid).
           exists req, r. split; [|done]. apply elem_of_app. by left. }
  all: apply (requested_grow w); [done|..];
    destruct w as [p [stream|] [] dc n ts hp od]; unfold_api;
    repeat case_match; simplify_eq/=; try done;
    first [by exists []; split; [rewrite app_nil_r|intros ? ?%elem_of_nil]
          | eexists [_]; split; [reflexivity|];
            by intros ? ->%list_elem_of_singleton].
Qed.

(** The requests on the stream account for the registry.  In every
    controller reached from a new one: while [open()] has not succeeded no
    target is registered; afterwards every request that was sent carries
    the database of the controller's project, and every registered id is
    the target id of an [addTarget] request that was sent. *)
Theorem registered_targets_were_requested (projectId : string)
    (ops : list Op) :
  requested (exec ops (newWatchStream projectId)).
Proof.
  assert (∀ w, requested w → requested (exec ops w)) as H.
  { induction ops as [|op ops IH]; intros w Hw; [done|].
    rewrite (exec_cons normalizeByteString). by apply IH, requested_step. }
  by apply H.
Qed.

End Further.

(** * The further properties at sample inputs *)

Lemma deferreds_settle_once_witness :
  let t := (feed sample_decoder [EvAdded] (newTargetState 1 None)).2 in
  _addedDeferred t ≠ Pending ∧
  _addedDeferred
    (feed sample_decoder [EvError (mkStatus 7 "denied"); EvRemoved] t).2 =
  _addedDeferred t.
Proof.
  cbv zeta.
  set (t := (feed sample_decoder [EvAdded] (newTargetState 1 None)).2).
  assert (_addedDeferred t ≠ Pending) as Hne by (vm_compute; discriminate).
  destruct (deferreds_settle_once sample_decoder
              [EvError (mkStatus 7 "denied"); EvRemoved] t) as (H & _).
  split; [exact Hne | exact (H Hne)].
Defined.

Lemma guards_exact_witness :
  let t := (feed sample_decoder [EvAdded] (newTargetState 1 None)).2 in
  guarded EvCurrent ∧ Added t ∧
  ¬ throws TargetStateError (fire sample_decoder EvCurrent t).1.
Proof.
  cbv zeta.
  set (t := (feed sample_decoder [EvAdded] (newTargetState 1 None)).2).
  assert (Added t) as HA by (split; vm_compute; reflexivity).
  destruct (guards_exact sample_decoder EvCurrent t) as (_ & _ & H & _).
  split; [exact I|]. split; [exact HA|].
  intros Hthrows. exact (proj1 (H I) Hthrows HA).
Defined.

Lemma last_delta_decides_witness :
  let t := newTargetState 1 None in
  Added (feed sample_decoder [EvAdded; EvDocumentRemoved "A"] t).2 ∧
  "A" ∈ _accumulatedDocumentNames
    (feed sample_decoder
       ([EvAdded; EvDocumentRemoved "A"] ++
          EvDocumentChanged "A" :: [EvCurrent; EvDocumentRemoved "B"]) t).2.
Proof.
  cbv zeta.
  assert (Added (feed sample_decoder [EvAdded; EvDocumentRemoved "A"]
                   (newTargetState 1 None)).2) as HA
    by (split; vm_compute; reflexivity).
  destruct (last_delta_decides sample_decoder "A"
              [EvAdded; EvDocumentRemoved "A"]
              [EvCurrent; EvDocumentRemoved "B"] (newTargetState 1 None) HA)
    as (H & _).
  split; [exact HA|]. apply H.
  - intros Hin. repeat (apply elem_of_cons in Hin as [Hin|Hin];
                        [discriminate|]). by apply elem_of_nil in Hin.
  - intros Hin. repeat (apply elem_of_cons in Hin as [Hin|Hin];
                        [discriminate|]). by apply elem_of_nil in Hin.
Defined.

Lemma resolved_filter_valid_witness :
  _existenceFilterDeferred
    (feed sample_decoder [EvAdded; EvExistenceFilter filter_valid]
       (newTargetState 1 None)).2 =
    Resolved (Some (mkBloomFilter [x2a%byte] 3 5)) ∧
  valid_filter (mkBloomFilter [x2a%byte] 3 5).
Proof.
  assert (_existenceFilterDeferred
            (feed sample_decoder [EvAdded; EvExistenceFilter filter_valid]
               (newTargetState 1 None)).2 =
          Resolved (Some (mkBloomFilter [x2a%byte] 3 5))) as Hd
    by (vm_compute; reflexivity).
  split; [exact Hd|].
  exact (resolved_filter_valid sample_decoder 1 None
           [EvAdded; EvExistenceFilter filter_valid] _ Hd).
Defined.

Lemma registered_not_removed_witness :
  let w :=
    exec sample_decoder
      [Open; AddTarget sample_info; AddTarget sample_info;
       targetChange_msg [] "ADD" None; targetChange_msg [1] "REMOVE" None]
      (newWatchStream "proj") in
  map_get 2 (_targets w) = Some 1%nat ∧ _removed (deref w 1) = false.
Proof.
  cbv zeta.
  assert (map_get 2
            (_targets
               (exec sample_decoder
                  [Open; AddTarget sample_info; AddTarget sample_info;
                   targetChange_msg [] "ADD" None;
                   targetChange_msg [1] "REMOVE" None]
                  (newWatchStream "proj"))) = Some 1%nat) as Hget
    by (vm_compute; reflexivity).
  split; [exact Hget|].
  exact (registered_not_removed sample_decoder "proj" _ 2 1%nat Hget).
Defined.


Lemma addTarget_then_ack_witness :
  let w := sample_stream 2 in
  let tc := mkTargetChange (Some [3]) None (Some "ADD") None in
  let r1 := addTarget sample_info w in
  wf w ∧ is_Some (_stream w) ∧ _closed w = false ∧
  promise_state r1.2 (AddTargetPromise 3 2) = StillPending ∧
  promise_state (_onTargetChange tc r1.2).2 (AddTargetPromise 3 2) =
    FulfilledHandle (mkTargetHandle 3).
Proof.
  cbv zeta.
  set (w := sample_stream 2).
  set (tc := mkTargetChange (Some [3]) None (Some "ADD") None).
  assert (wf w) as Hwf by compute_done.
  assert (is_Some (_stream w)) as Hs by (eexists; vm_compute; reflexivity).
  assert (_closed w = false) as Hc by (vm_compute; reflexivity).
  destruct (addTarget_then_ack sample_info w tc Hwf Hs Hc
              eq_refl) as (_ & Hp & Hack & _).
  destruct (Hack eq_refl eq_refl) as [_ Hf].
  split; [exact Hwf|]. split; [exact Hs|]. split; [exact Hc|].
  split; [exact Hp | exact Hf].
Defined.

Lemma removeTarget_then_REMOVE_witness :
  let w := sample_stream 2 in
  let tc := mkTargetChange (Some [1]) None (Some "REMOVE") None in
  let r1 := removeTarget (mkTargetHandle 1) w in
  wf w ∧ map_get 1 (_targets w) = Some 0%nat ∧ Added (deref w 0) ∧
  _removedDeferred (deref w 0) = Pending ∧
  r1.1 = Ok (RemovedPromise 0) ∧ _targets r1.2 = _targets w ∧
  promise_state r1.2 (RemovedPromise 0) = StillPending ∧
  promise_state (_onTargetChange tc r1.2).2 (RemovedPromise 0) = Fulfilled ∧
  map_get 1 (_targets (_onTargetChange tc r1.2).2) = None.
Proof.
  cbv zeta.
  set (w := sample_stream 2).
  set (tc := mkTargetChange (Some [1]) None (Some "REMOVE") None).
  assert (wf w) as Hwf by compute_done.
  assert (∃ s, _stream w = Some s) as [s Hs]
    by (eexists; vm_compute; reflexivity).
  assert (_closed w = false) as Hc by (vm_compute; reflexivity).
  assert (map_get 1 (_targets w) = Some 0%nat) as Hget
    by (vm_compute; reflexivity).
  assert (Added (deref w 0)) as HA by (split; vm_compute; reflexivity).
  assert (_removedDeferred (deref w 0) = Pending) as Hd
    by (vm_compute; reflexivity).
  destruct (removeTarget_then_REMOVE (mkTargetHandle 1) w s 0%nat tc
              Hwf Hs Hc Hget eq_refl eq_refl eq_refl)
    as (Hr & Ht & _ & _ & Hp & Hadded & _).
  destruct (Hadded HA) as (_ & Hgone & _ & Hf & _).
  split; [exact Hwf|]. split; [exact Hget|]. split; [exact HA|].
  split; [exact Hd|]. split; [exact Hr|]. split; [exact Ht|].
  split; [|split; [exact (Hf Hd) | exact Hgone]].
  rewrite Hp. unfold promise_state. rewrite Hd. reflexivity.
Defined.

(** An unacknowledged target: [REMOVE] throws, the target stays
    registered. *)
Lemma removeTarget_unacknowledged :
  let w :=
    exec sample_decoder [Open; StreamOpened; AddTarget sample_info]
      (newWatchStream "proj") in
  let tc := mkTargetChange (Some [1]) None (Some "REMOVE") None in
  let r1 := removeTarget (mkTargetHandle 1) w in
  wf w ∧ map_get 1 (_targets w) = Some 0%nat ∧ ¬ Added (deref w 0) ∧
  r1.1 = Ok (RemovedPromise 0) ∧
  throws TargetStateError (_onTargetChange tc r1.2).1 ∧
  map_get 1 (_targets (_onTargetChange tc r1.2).2) = Some 0%nat.
Proof.
  cbv zeta. split; [compute_done|]. split; [vm_compute; reflexivity|].
  split; [intros [Ha _]; vm_compute in Ha; discriminate|].
  split; [vm_compute; reflexivity|].
  split; vm_compute; reflexivity.
Qed.

Lemma targetChange_cause_rejects_witness :
  let w := sample_stream 2 in
  let error := mkStatus 7 "denied" in
  let tc := mkTargetChange (Some [2]) (Some error) (Some "REMOVE") None in
  let r := _onTargetChange tc w in
  wf w ∧ r.1 = Ok tt ∧ _targets r.2 = _targets w ∧
  deref r.2 1 = (onError error (deref w 1)).2 ∧ deref r.2 0 = deref w 0.
Proof.
  cbv zeta.
  set (w := sample_stream 2).
  set (error := mkStatus 7 "denied").
  set (tc := mkTargetChange (Some [2]) (Some error) (Some "REMOVE") None).
  assert (wf w) as Hwf by compute_done.
  destruct (targetChange_cause_rejects tc w error Hwf eq_refl)
    as (Hok & Ht & Heff).
  { intros id ->%list_elem_of_singleton. exists 1%nat.
    vm_compute. reflexivity. }
  destruct (Heff 2 1%nat eq_refl) as [Hin _].
  destruct (Heff 1 0%nat eq_refl) as [_ Hout].
  split; [exact Hwf|]. split; [exact Hok|]. split; [exact Ht|]. split.
  - apply Hin. right. apply list_elem_of_here.
  - apply Hout; [discriminate|].
    intros Hin'%list_elem_of_singleton. discriminate.
Defined.

Lemma unknown_targetChangeType_witness :
  let w := sample_stream 2 in
  let tc := mkTargetChange (Some [1]) None (Some "FILTER") None in
  let r := _onTargetChange tc w in
  wf w ∧ known_type "FILTER" = false ∧ r.2 = w ∧ throws WatchError r.1.
Proof.
  cbv zeta.
  set (w := sample_stream 2).
  set (tc := mkTargetChange (Some [1]) None (Some "FILTER") None).
  assert (wf w) as Hwf by compute_done.
  destruct (unknown_targetChangeType tc w Hwf eq_refl eq_refl)
    as (Hsame & Hthrows & _).
  { intros id ->%list_elem_of_singleton. exists 0%nat.
    vm_compute. reflexivity. }
  split; [exact Hwf|]. split; [reflexivity|]. split; [exact Hsame|].
  apply Hthrows. left. discriminate.
Defined.

Lemma onDocumentRemove_effect_witness :
  let w := sample_stream 2 in
  let dr := mkDocumentRemove "docs/A" (Some [2]) in
  let r := _onDocumentRemove dr w in
  wf w ∧ map_get 2 (_targets w) = Some 1%nat ∧ Added (deref w 1) ∧
  r.1 = Ok tt ∧
  _accumulatedDocumentNames (deref r.2 1) =
    _accumulatedDocumentNames (deref w 1) ∖ {["docs/A"]} ∧
  deref r.2 0 = deref w 0.
Proof.
  cbv zeta.
  set (w := sample_stream 2).
  set (dr := mkDocumentRemove "docs/A" (Some [2])).
  assert (wf w) as Hwf by compute_done.
  assert (map_get 2 (_targets w) = Some 1%nat) as Hget
    by (vm_compute; reflexivity).
  assert (Added (deref w 1)) as HA by (split; vm_compute; reflexivity).
  destruct (onDocumentRemove_effect dr w Hwf) as (_ & Hok & _ & _ & Heff).
  { intros id ->%list_elem_of_singleton. exists 1%nat. by split. }
  destruct (Heff 2 1%nat Hget) as [Hin _].
  destruct (Heff 1 0%nat eq_refl) as [_ Hout].
  split; [exact Hwf|]. split; [exact Hget|]. split; [exact HA|].
  split; [exact Hok|]. split.
  - apply Hin. apply list_elem_of_here.
  - apply Hout. intros Hin'%list_elem_of_singleton. discriminate.
Defined.

Lemma onDocumentChange_effect_witness :
  let w := sample_stream 2 in
  let dc := mkDocumentChange "docs/A" (Some [1]) (Some []) in
  let r := _onDocumentChange dc w in
  wf w ∧ map_get 1 (_targets w) = Some 0%nat ∧ Added (deref w 0) ∧
  r.1 = Ok tt ∧
  _accumulatedDocumentNames (deref r.2 0) =
    _accumulatedDocumentNames (deref w 0) ∪ {["docs/A"]} ∧
  deref r.2 1 = deref w 1.
Proof.
  cbv zeta.
  set (w := sample_stream 2).
  set (dc := mkDocumentChange "docs/A" (Some [1]) (Some [])).
  assert (wf w) as Hwf by compute_done.
  assert (map_get 1 (_targets w) = Some 0%nat) as Hget
    by (vm_compute; reflexivity).
  assert (Added (deref w 0)) as HA by (split; vm_compute; reflexivity).
  destruct (onDocumentChange_effect dc w Hwf) as (Hok & _ & Heff).
  { discriminate. }
  { intros id [->%list_elem_of_singleton|Hin%elem_of_nil]; [|done].
    exists 0%nat. by split. }
  destruct (Heff 1 0%nat Hget) as (_ & Hin & _).
  destruct (Heff 2 1%nat eq_refl) as (_ & _ & Hout).
  split; [exact Hwf|]. split; [exact Hget|]. split; [exact HA|].
  split; [exact Hok|]. split.
  - apply Hin; [apply list_elem_of_here | apply not_elem_of_nil].
  - apply Hout; [|apply not_elem_of_nil].
    intros Hin'%list_elem_of_singleton. discriminate.
Defined.

Lemma onDocumentChange_unknown_id_witness :
  let w := sample_stream 2 in
  let dc := mkDocumentChange "docs/A" (Some [1]) (Some [9]) in
  let r := _onDocumentChange dc w in
  wf w ∧ map_get 9 (_targets w) = None ∧ throws WatchError r.1 ∧
  deref r.2 0 = (onDocumentChanged "docs/A" (deref w 0)).2.
Proof.
  cbv zeta.
  set (w := sample_stream 2).
  set (dc := mkDocumentChange "docs/A" (Some [1]) (Some [9])).
  assert (wf w) as Hwf by compute_done.
  assert (map_get 9 (_targets w) = None) as Hnone
    by (vm_compute; reflexivity).
  destruct (onDocumentChange_unknown_id dc w 9 Hwf Hnone) as (_ & H).
  destruct H as [Hthrows Heff].
  { discriminate. }
  { intros id ->%list_elem_of_singleton. exists 0%nat.
    split; [|split]; vm_compute; reflexivity. }
  { apply list_elem_of_here. }
  destruct (Heff 1 0%nat eq_refl) as [Hin _].
  split; [exact Hwf|]. split; [exact Hnone|]. split; [exact Hthrows|].
  apply Hin. apply list_elem_of_here.
Defined.

Lemma onExistenceFilter_dispatch_witness :
  let w := sample_stream 2 in
  let r := _onExistenceFilter sample_decoder filter_valid w in
  wf w ∧ map_get 1 (_targets w) = Some 0%nat ∧ Added (deref w 0) ∧
  r.1 = Ok tt ∧
  promise_state r.2 (ExistenceFilterPromise 0) =
    FulfilledFilter (Some (mkBloomFilter [x2a%byte] 3 5)) ∧
  throws WatchError
    (_onExistenceFilter sample_decoder
       (mkExistenceFilter (Some 9) None None) w).1.
Proof.
  cbv zeta.
  set (w := sample_stream 2).
  assert (wf w) as Hwf by compute_done.
  assert (map_get 1 (_targets w) = Some 0%nat) as Hget
    by (vm_compute; reflexivity).
  assert (Added (deref w 0)) as HA by (split; vm_compute; reflexivity).
  destruct (onExistenceFilter_dispatch sample_decoder filter_valid w)
    as (_ & H).
  destruct (H 1 0%nat Hwf eq_refl Hget HA) as (_ & Hmade).
  destruct (Hmade (Some (mkBloomFilter [x2a%byte] 3 5)) eq_refl)
    as (Hok & _ & _ & _ & Hp).
  destruct (onExistenceFilter_dispatch sample_decoder
              (mkExistenceFilter (Some 9) None None) w) as (Hunknown & _).
  split; [exact Hwf|]. split; [exact Hget|]. split; [exact HA|].
  split; [exact Hok|]. split.
  - apply Hp. vm_compute. reflexivity.
  - apply Hunknown. right. exists 9. split; [reflexivity|].
    vm_compute. reflexivity.
Defined.


Lemma stream_promises_settle_once_witness :
  let w :=
    exec sample_decoder [Open; StreamOpened] (newWatchStream "proj") in
  let ops := [StreamClosed (Some (mkStatus 14 "gone")); Open; Close] in
  is_Some (_stream w) ∧ open_deferred w ≠ Pending ∧
  open_deferred (exec sample_decoder ops w) = open_deferred w ∧
  promise_state (exec sample_decoder ops w) OpenPromise = Fulfilled.
Proof.
  cbv zeta.
  set (w := exec sample_decoder [Open; StreamOpened] (newWatchStream "proj")).
  set (ops := [StreamClosed (Some (mkStatus 14 "gone")); Open; Close]).
  assert (is_Some (_stream w)) as Hs by (eexists; vm_compute; reflexivity).
  assert (open_deferred w ≠ Pending) as Hne by (vm_compute; discriminate).
  destruct (stream_promises_settle_once sample_decoder ops w) as [_ Ho].
  split; [exact Hs|]. split; [exact Hne|]. split; [exact (Ho Hs Hne)|].
  unfold promise_state. rewrite (Ho Hs Hne). vm_compute. reflexivity.
Defined.

Lemma snapshot_through_controller_witness :
  let w :=
    exec sample_decoder [documentChange_msg "docs/A" [1] []] (sample_stream 2)
  in
  let current := mkTargetChange (Some [1]) None (Some "CURRENT") None in
  let noChange := mkTargetChange (Some [1]) None None (Some (OfString "T1")) in
  let r2 := _onTargetChange noChange (_onTargetChange current w).2 in
  wf w ∧ map_get 1 (_targets w) = Some 0%nat ∧ Added (deref w 0) ∧
  r2.1 = Ok tt ∧
  promise_state r2.2 (InitialSnapshotPromise 0) =
    FulfilledSnapshot (mkTargetSnapshot {["docs/A"]} (OfString "T1")).
Proof.
  cbv zeta.
  set (w := exec sample_decoder [documentChange_msg "docs/A" [1] []]
              (sample_stream 2)).
  assert (wf w) as Hwf by compute_done.
  assert (map_get 1 (_targets w) = Some 0%nat) as Hget
    by (vm_compute; reflexivity).
  assert (Added (deref w 0)) as HA by (split; vm_compute; reflexivity).
  assert (_initialSnapshotDeferred (deref w 0) = Pending) as Hd
    by (vm_compute; reflexivity).
  destruct (snapshot_through_controller w 1 0%nat (OfString "T1") None
              Hwf Hget HA Hd eq_refl) as (_ & Hok & _ & Hp & _).
  split; [exact Hwf|]. split; [exact Hget|]. split; [exact HA|].
  split; [exact Hok|]. rewrite Hp. vm_compute. reflexivity.
Defined.

Lemma reachable_wf_witness :
  let w :=
    exec sample_decoder [Open; AddTarget sample_info; AddTarget sample_info]
      (newWatchStream "proj") in
  _nextTargetId w < 2 ^ 53 ∧ linked w ∧ wf w ∧
  map_keys (_targets w) = [1; 2].
Proof.
  cbv zeta.
  set (ops := [Open; AddTarget sample_info; AddTarget sample_info]).
  assert (_nextTargetId (exec sample_decoder ops (newWatchStream "proj"))
          < 2 ^ 53) as Hlt by (vm_compute; reflexivity).
  destruct (reachable_wf sample_decoder "proj" ops) as (Hl & _ & _ & Hwf).
  split; [exact Hlt|]. split; [exact Hl|]. split; [exact (Hwf Hlt)|].
  vm_compute. reflexivity.
Defined.
